(** * info-central-app: block lifecycle, sandboxed execution and self-healing

    A shallow embedding of the backend services of the dashboard builder
    ([backend/app/models/block.py], [backend/app/services/*.py],
    [backend/app/api/blocks.py]) and the properties of their version
    lifecycle, executor and healing throttle.

    Conventions.
    - Text is [string]; a character is a code point below 256.
    - Integers are [Z]; instants and durations are [Z] microseconds.
    - A table is the list of its rows in insertion order; a query without
      ORDER BY answers in that order.
    - Code that raises, awaits the oracle or a child process, or touches
      the database runs in the monad [M] of module [Runtime], which threads
      the database, the artifact directories, the process table, the clock
      and the trace of calls. *)

From stdpp Require Import base list gmap strings.
From Stdlib Require Import ZArith Lia Ascii String Sorting.Permutation.
From Stdlib Require Import Sorting.Sorted Numbers.DecimalString.
From Stdlib Require Numbers.DecimalZ Numbers.DecimalPos.

Open Scope Z_scope.

(* ====================================================================== *)
(** * Part I: the program                                                  *)
(* ====================================================================== *)

(** ** Python string and list primitives used by the services *)

Module PyStr.

Definition nl : string := String "010"%char EmptyString.

(** [str.isspace] on one code point below 256: TAB..CR, FS..US, SPACE,
    NEL and NBSP. *)
Definition isspace (c : ascii) : bool :=
  let n := N_of_ascii c in
  (((9 <=? n) && (n <=? 13)) || ((28 <=? n) && (n <=? 32))
   || (n =? 133) || (n =? 160))%N.

Fixpoint lstrip (s : string) : string :=
  match s with
  | EmptyString => EmptyString
  | String c s' => if isspace c then lstrip s' else s
  end.

Definition rstrip (s : string) : string := String.rev (lstrip (String.rev s)).

(** [s.strip()] *)
Definition strip (s : string) : string := rstrip (lstrip s).

(** Cutting a text at every character satisfying [p]; never the empty
    list. *)
Fixpoint split_by (p : ascii -> bool) (s : string) : list string :=
  match s with
  | EmptyString => [EmptyString]
  | String c s' =>
      if p c then EmptyString :: split_by p s'
      else match split_by p s' with
           | [] => [String c EmptyString]
           | w :: ws => String c w :: ws
           end
  end.

(** [s.split(sep)] for a one-character separator. *)
Definition split (sep : ascii) (s : string) : list string :=
  split_by (Ascii.eqb sep) s.

(** [s.split()]: the maximal runs of non-blank characters. *)
Definition split_whitespace (s : string) : list string :=
  filter (fun w => w <> EmptyString) (split_by isspace s).

(** [sep.join(l)] *)
Definition join (sep : string) (l : list string) : string := String.concat sep l.

(** [s.startswith(p)] *)
Definition startswith (s p : string) : bool := String.prefix p s.

(** [s[1:]] *)
Definition tail (s : string) : string :=
  match s with
  | EmptyString => EmptyString
  | String _ s' => s'
  end.

(** [l[k:]], with Python's reading of a negative [k]. *)
Definition slice_from {A} (k : Z) (l : list A) : list A :=
  if 0 <=? k then drop (Z.to_nat k) l
  else drop (Z.to_nat (Z.of_nat (List.length l) + k)) l.

(** [str(n)] and [f"{n}"] for an integer. *)
Definition str_of_int (n : Z) : string := NilZero.string_of_int (Z.to_int n).

End PyStr.

(** ** JSON values and the library functions the source calls *)

#[warnings="-register-all"]
Inductive Json :=
| JNull
| JBool (b : bool)
| JInt (n : Z)
| JFloat (repr : string)
| JString (s : string)
| JArray (items : list Json)
| JObject (members : list (string * Json)).

(** Functions of the Python runtime whose code is not part of the
    repository: the JSON decoder, [int(...)] on text and [str.title]. *)
Class PyHost := {
  json_loads : string -> option Json;   (* [None]: json.JSONDecodeError *)
  py_int : string -> option Z;          (* [None]: ValueError *)
  str_title : string -> string
}.

(** ** models/block.py *)

(** The columns the services read or decide.  Left out are the surrogate
    keys of the three child tables, [execution_time_ms] (never written),
    and the timestamps [created_at] and [updated_at] of [Block] and
    [created_at] of [BlockVersion]: no service reads them; the store fills
    them in and rewrites [updated_at] with every update of a block row,
    and the routes hand them to the client as they are.  Nothing is proved
    here about those columns. *)

Module Block.
Record t := mk {
  id : Z;
  user_prompt : string;
  title : string;
  current_version : Z;
  refresh_interval : Z;       (* seconds *)
  layout_data : Json;
  status : string             (* active, error, disabled, deleted *)
}.
End Block.

Module BlockVersion.
Record t := mk {
  block_id : Z;
  version : Z;
  backend_code : string;
  frontend_code : string;
  ai_explanation : string;
  status : string             (* active, deprecated, failed *)
}.
End BlockVersion.

Module BlockData.
Record t := mk {
  block_id : Z;
  data : Json;
  fetched_at : Z;
  expires_at : option Z
}.
End BlockData.

Module ExecutionLog.
Record t := mk {
  block_id : Z;
  version : Z;
  execution_type : string;    (* fetch, process, heal *)
  success : bool;
  error_message : option string;
  created_at : Z
}.
End ExecutionLog.

Record DB := mkDB {
  blocks : list Block.t;
  block_versions : list BlockVersion.t;
  block_data : list BlockData.t;
  execution_logs : list ExecutionLog.t
}.

Definition empty_db : DB := mkDB [] [] [] [].

(** ** The world the services run in *)

Module Runtime.

(** *** Exceptions *)

Inductive ExnClass :=
| Exception
| ValueError
| ImportError
| OSError
| TimeoutError
| JSONDecodeError
| UnicodeDecodeError
| AttributeError
| RecursionError
| HTTPException (status_code : Z).

#[global] Instance ExnClass_eq_dec : EqDecision ExnClass.
Proof. solve_decision. Defined.

(** A raised exception: its class and [str(e)]. *)
Record exn := mkExn { exn_class : ExnClass; exn_msg : string }.

(** [isinstance(e, c)] for the classes the source catches. *)
Definition isinstance (e : exn) (c : ExnClass) : bool :=
  match c with
  | Exception => true
  | ValueError =>
      match exn_class e with
      | ValueError | JSONDecodeError | UnicodeDecodeError => true
      | _ => false
      end
  | _ => bool_decide (exn_class e = c)
  end.

Inductive result (A : Type) :=
| Return (a : A)
| Raise (e : exn).
Arguments Return {A} a.
Arguments Raise {A} e.

(** *** The environment: oracle, child processes, file removal *)

(** One answer of the chat-completion endpoint, and how long it took. *)
Inductive OracleReply :=
| Reply (content : option string) (took : Z)
| ApiError (msg : string) (took : Z).

(** A byte stream read from a child, seen through [.decode()]. *)
Inductive Output :=
| Text (s : string)
| Undecodable (reason : string).

(** What a spawned interpreter does. *)
Inductive Child :=
| SpawnError (msg : string)
| Exits (after : Z) (returncode : Z) (stdout stderr : Output)
| Hangs.

(** The environment answers the n-th call made to it; it may answer the
    same request differently each time. *)
Record Env := mkEnv {
  oracle : nat -> OracleReply;
  child : nat -> Child;
  rmtree_ok : Z -> string -> bool    (* does [shutil.rmtree] succeed *)
}.

(** *** State *)

Inductive Node := FileNode | DirNode.

#[global] Instance Node_eq_dec : EqDecision Node.
Proof. solve_decision. Defined.

(** [os.listdir] of one block's artifact directory. *)
Abbreviation Listing := (list (string * Node)).

Inductive Proc :=
| Running
| Exited (returncode : Z)
| Killed.

(** The optional context of a generation request. *)
Record Context := mkContext {
  original_prompt : string;
  previous_code : option string;
  iteration : string
}.

(** Calls and decisions, in the order they happen. *)
Inductive Event :=
| EvGenerate (user_prompt : string) (context : option Context) (at_ : Z)
| EvHealOracle (original_prompt : string) (error_message : option string)
    (failed_code : string) (at_ : Z)
| EvExec (block_id version : Z) (at_ : Z) (ok : bool)
| EvAutoHeal (block_id : Z) (at_ : Z).

Record World := mkWorld {
  db : DB;
  fs : gmap Z Listing;          (* generated_code/blocks/<block_id> *)
  procs : list Proc;
  clock : Z;
  calls : nat;                  (* calls made to the environment so far *)
  trace : list Event
}.

Definition initial_world : World := mkWorld empty_db ∅ [] 0 0%nat [].

Definition set_db (f : DB -> DB) (w : World) : World :=
  mkWorld (f (db w)) (fs w) (procs w) (clock w) (calls w) (trace w).
Definition set_fs (f : gmap Z Listing -> gmap Z Listing) (w : World) : World :=
  mkWorld (db w) (f (fs w)) (procs w) (clock w) (calls w) (trace w).
Definition set_procs (f : list Proc -> list Proc) (w : World) : World :=
  mkWorld (db w) (fs w) (f (procs w)) (clock w) (calls w) (trace w).
Definition tick (d : Z) (w : World) : World :=
  mkWorld (db w) (fs w) (procs w) (clock w + d) (S (calls w)) (trace w).
Definition wait (d : Z) (w : World) : World :=
  mkWorld (db w) (fs w) (procs w) (clock w + d) (calls w) (trace w).
Definition record (ev : Event) (w : World) : World :=
  mkWorld (db w) (fs w) (procs w) (clock w) (calls w) (trace w ++ [ev]).

(** *** The monad *)

Definition M (A : Type) : Type := World -> result A * World.

#[global] Instance M_ret : MRet M := fun A a w => (Return a, w).
#[global] Instance M_bind : MBind M := fun A B f c w =>
  match c w with
  | (Return a, w') => f a w'
  | (Raise e, w') => (Raise e, w')
  end.

Definition raise {A} (e : exn) : M A := fun w => (Raise e, w).

(** [try: c  except ... as e: h e]; what [c] did before raising stays. *)
Definition try_except {A} (c : M A) (h : exn -> M A) : M A := fun w =>
  match c w with
  | (Raise e, w') => h e w'
  | r => r
  end.

Definition get : M World := fun w => (Return w, w).
Definition modify (f : World -> World) : M unit := fun w => (Return tt, f w).

(** [datetime.utcnow()], [func.now()] *)
Definition utcnow : M Z := fun w => (Return (clock w), w).

(** Run [c], then note in the trace whether it returned. *)
Definition observed {A} (ev : Z -> bool -> Event) (c : M A) : M A := fun w =>
  match c w with
  | (Return a, w') => (Return a, record (ev (clock w') true) w')
  | (Raise e, w') => (Raise e, record (ev (clock w') false) w')
  end.

Definition seconds (n : Z) : Z := n * 1000000.
Definition HOUR : Z := seconds 3600.

End Runtime.

(** ** services/ai_service.py *)

Module AIService.
Import PyStr Runtime.

(** The dict returned by the two oracle calls. *)
Record GeneratedCode := mkGenerated {
  backend_code : string;
  frontend_code : string;
  explanation : string
}.

Inductive SectionName := backend | frontend | explanation_section.

#[global] Instance SectionName_eq_dec : EqDecision SectionName.
Proof. solve_decision. Defined.

(** The three labels the parser looks for. *)
Definition header (s : SectionName) : string :=
  match s with
  | backend => "## Backend Code"
  | frontend => "## Frontend Code"
  | explanation_section => "## Explanation"
  end.

(** The key of the result a section feeds. *)
Definition field (s : SectionName) (r : GeneratedCode) : string :=
  match s with
  | backend => backend_code r
  | frontend => frontend_code r
  | explanation_section => explanation r
  end.

(** The loop variables of [_parse_generated_code]. *)
Record ParseState := mkParse {
  result : GeneratedCode;
  current_section : option SectionName;
  current_code : list string
}.

Definition fence : string := "```".

(** One iteration of [for line in lines]. *)
Definition parse_line (st : ParseState) (line : string) : ParseState :=
  let s := strip line in
  if String.eqb s (header backend) then
    mkParse (result st) (Some backend) []
  else if String.eqb s (header frontend) then
    mkParse (result st) (Some frontend) []
  else if String.eqb s (header explanation_section) then
    mkParse (result st) (Some explanation_section) []
  else if startswith s fence then
    let r := result st in
    let r' :=
      match current_code st, current_section st with
      | _ :: _, Some backend =>
          mkGenerated (join nl (current_code st))
                      (frontend_code r) (explanation r)
      | _ :: _, Some frontend =>
          mkGenerated (backend_code r)
                      (join nl (current_code st)) (explanation r)
      | _, _ => r
      end in
    mkParse r' (current_section st) []
  else
    match current_section st with
    | Some explanation_section =>
        mkParse (result st) (current_section st) (current_code st ++ [line])
    | Some _ =>
        (* the guard [not line.strip().startswith(fence)] holds here *)
        mkParse (result st) (current_section st) (current_code st ++ [line])
    | None => st
    end.

Definition initial : ParseState := mkParse (mkGenerated "" "" "") None [].

(** The statement after the loop: the explanation is taken when it is the
    last section and has at least one line. *)
Definition finish (st : ParseState) : GeneratedCode :=
  match current_section st, current_code st with
  | Some explanation_section, _ :: _ =>
      mkGenerated (backend_code (result st)) (frontend_code (result st))
                  (strip (join nl (current_code st)))
  | _, _ => result st
  end.

Definition _parse_generated_code (content : string) : GeneratedCode :=
  finish (fold_left parse_line (split "010"%char content) initial).

(** A section is present when some line, once stripped, is its label. *)
Definition has_section (s : SectionName) (content : string) : bool :=
  existsb (fun line => String.eqb (strip line) (header s))
          (split "010"%char content).

Section Calls.
Context (env : Env).

(** [await self.client.chat.completions.create(...)] followed by
    [response.choices[0].message.content]: the next answer of the oracle. *)
Definition chat_completion (ev : Z -> Event) : M (option string) := fun w =>
  match oracle env (calls w) with
  | Reply content took =>
      let w' := tick took w in (Return content, record (ev (clock w')) w')
  | ApiError msg took =>
      let w' := tick took w in
      (Raise (mkExn Exception msg), record (ev (clock w')) w')
  end.

(** [self._parse_generated_code(content)] on what may be [None]. *)
Definition parse_content (content : option string) : M GeneratedCode :=
  match content with
  | Some text => mret (_parse_generated_code text)
  | None =>
      raise (mkExn AttributeError "'NoneType' object has no attribute 'split'")
  end.

Definition generate_block_code (user_prompt : string)
    (context : option Context) : M GeneratedCode :=
  try_except
    (content ← chat_completion (EvGenerate user_prompt context);
     parse_content content)
    (fun e => raise (mkExn Exception
                 ("AI code generation failed: " +:+ exn_msg e))).

Definition heal_block (original_prompt : string)
    (error_message : option string) (failed_code : string) : M GeneratedCode :=
  try_except
    (content ← chat_completion
                 (EvHealOracle original_prompt error_message failed_code);
     parse_content content)
    (fun e => raise (mkExn Exception ("AI healing failed: " +:+ exn_msg e))).

End Calls.

End AIService.

(** ** services/execution_service.py *)

Module ExecutionService.
Import PyStr Runtime.

(** *** The import guard written into every wrapped block ([_wrap_code]) *)

(** What [__import__] can do: hand back a module, raise [ImportError],
    or raise something else. *)
Inductive ImportOutcome :=
| Imported (module : string)
| RaisesImportError (msg : string)
| RaisesOther (e : exn).

(** The arguments [restricted_import] hands through untouched. *)
Record ImportArgs := mkImportArgs { fromlist : list string; level : Z }.

Definition ALLOWED_PACKAGES : list string :=
  [ "requests"; "httpx"; "beautifulsoup4"; "bs4"; "pandas"; "numpy";
    "dateutil"; "jmespath"; "json"; "datetime"; "time"; "urllib"; "re";
    "math"; "statistics"; "collections"; "itertools"; "functools";
    "typing"; "asyncio"; "aiohttp" ].

(** [name.split('.')[0]] *)
Definition base_name (name : string) : string :=
  match split "."%char name with
  | b :: _ => b
  | [] => ""
  end.

Definition restricted_import
    (original_import : string -> ImportArgs -> ImportOutcome)
    (name : string) (args : ImportArgs) : ImportOutcome :=
  if negb (bool_decide (base_name name ∈ ALLOWED_PACKAGES))
     && negb (startswith (base_name name) "_")
  then
    match original_import name args with
    | RaisesImportError _ =>
        RaisesImportError ("Package '" +:+ name +:+ "' is not allowed")
    | r => r
    end
  else original_import name args.

(** The top-level name is outside the allowlist and has no leading
    underscore. *)
Definition outside_allowlist (name : string) : bool :=
  negb (bool_decide (base_name name ∈ ALLOWED_PACKAGES))
  && negb (startswith (base_name name) "_").

(** An interpreter in which exactly the modules of [installed] load. *)
Definition interpreter_with (installed : list string)
    (name : string) (_ : ImportArgs) : ImportOutcome :=
  if bool_decide (name ∈ installed) then Imported name
  else RaisesImportError ("No module named '" +:+ name +:+ "'").

(** *** Artifact directories *)

Definition lookup_entry (name : string) (items : Listing) : option Node :=
  snd <$> List.find (fun e => String.eqb (fst e) name) items.

(** [os.makedirs(block_dir, exist_ok=True)] for
    [generated_code/blocks/<block_id>/<name>]. *)
Definition makedirs (block_id : Z) (name : string) : M unit := fun w =>
  let items := default [] (fs w !! block_id) in
  match lookup_entry name items with
  | Some FileNode => (Raise (mkExn OSError "File exists"), w)
  | Some DirNode => (Return tt, set_fs <[block_id := items]> w)
  | None =>
      (Return tt, set_fs <[block_id := items ++ [(name, DirNode)]]> w)
  end.

(** Order of the pairs [(version_num, item)]. *)
Definition key_compare (a b : Z * string) : comparison :=
  match a.1 ?= b.1 with
  | Eq => String.compare a.2 b.2
  | c => c
  end.

Definition key_geb (a b : Z * string) : bool :=
  match key_compare a b with
  | Lt => false
  | _ => true
  end.

Fixpoint insert_reverse (x : Z * string) (l : list (Z * string))
  : list (Z * string) :=
  match l with
  | [] => [x]
  | y :: l' => if key_geb x y then x :: l else y :: insert_reverse x l'
  end.

(** [l.sort(reverse=True)] *)
Definition sort_reverse (l : list (Z * string)) : list (Z * string) :=
  foldr insert_reverse [] l.

Definition TIMEOUT : Z := seconds 30.

Section Service.
Context `{host : PyHost} (env : Env).

(** The body of the scan loop of [cleanup_old_versions] for one item. *)
Definition scan_item (entry : string * Node) : option (Z * string) :=
  if startswith entry.1 "v" && bool_decide (entry.2 = DirNode) then
    match py_int (tail entry.1) with
    | Some version_num => Some (version_num, entry.1)
    | None => None
    end
  else None.

Definition version_dirs (items : Listing) : list (Z * string) :=
  omap scan_item items.

(** The removal loop: a directory whose [shutil.rmtree] fails stays. *)
Definition remove_dirs (block_id : Z) (to_remove : list (Z * string))
    (items : Listing) : Listing :=
  fold_left
    (fun items d =>
       if rmtree_ok env block_id d.2
       then filter (fun e => e.1 <> d.2) items
       else items)
    to_remove items.

Definition cleanup_listing (block_id : Z) (keep_versions : Z)
    (items : Listing) : Listing :=
  let sorted := sort_reverse (version_dirs items) in
  let to_remove := slice_from keep_versions sorted in
  remove_dirs block_id to_remove items.

Definition cleanup_old_versions (block_id : Z) (keep_versions : Z) : M unit :=
  fun w =>
    match fs w !! block_id with
    | None => (Return tt, w)
    | Some items =>
        (Return tt,
         set_fs <[block_id := cleanup_listing block_id keep_versions items]> w)
    end.

(** *** Running one version *)

(** [asyncio.create_subprocess_exec(sys.executable, script_file, ...)] *)
Definition create_subprocess_exec : M (nat * Child) := fun w =>
  match child env (calls w) with
  | SpawnError msg => (Raise (mkExn OSError msg), tick 0 w)
  | c =>
      (Return (List.length (procs w), c),
       set_procs (fun ps => ps ++ [Running]) (tick 0 w))
  end.

(** [asyncio.wait_for(process.communicate(), timeout)]: on expiry the
    wait is cancelled and the child is left as it is. *)
Definition wait_for_communicate (pid : nat) (c : Child) (timeout : Z)
  : M (Output * Output * Z) :=
  match c with
  | Exits after returncode stdout stderr =>
      if after <? timeout then
        modify (fun w => set_procs <[pid := Exited returncode]> (wait after w));;
        mret (stdout, stderr, returncode)
      else
        modify (wait timeout);; raise (mkExn TimeoutError "")
  | _ => modify (wait timeout);; raise (mkExn TimeoutError "")
  end.

(** [bytes.decode()] *)
Definition decode (o : Output) : M string :=
  match o with
  | Text s => mret s
  | Undecodable reason => raise (mkExn UnicodeDecodeError reason)
  end.

(** Truth value of a byte string. *)
Definition nonempty (o : Output) : bool :=
  match o with
  | Text s => negb (String.eqb s "")
  | Undecodable _ => true
  end.

(** The [try] statement of [execute_block]. *)
Definition run_script : M Json :=
  try_except
    ('(pid, c) ← create_subprocess_exec;
     '(stdout, stderr, returncode) ← wait_for_communicate pid c TIMEOUT;
     if negb (returncode =? 0) then
       error_msg ← (if nonempty stderr then decode stderr
                    else mret "Unknown execution error");
       raise (mkExn Exception ("Block execution failed: " +:+ error_msg))
     else
       try_except
         (text ← decode stdout;
          match json_loads text with
          | Some result => mret result
          | None => raise (mkExn JSONDecodeError "Expecting value")
          end)
         (fun e =>
            if isinstance e JSONDecodeError
            then raise (mkExn Exception "Block did not return valid JSON")
            else raise e))
    (fun e =>
       if isinstance e TimeoutError
       then raise (mkExn Exception "Block execution timed out")
       else raise (mkExn Exception ("Execution error: " +:+ exn_msg e))).

(** [execute_block]: the version directory is made (the two files written
    into it are not modelled), then the script is run. *)
Definition execute_block (block_id version : Z) (code : string) : M Json :=
  makedirs block_id ("v" +:+ str_of_int version);;
  observed (EvExec block_id version) run_script.

End Service.

End ExecutionService.

(** ** services/block_service.py *)

Module BlockService.
Import PyStr Runtime.

(** *** Queries *)

(** [db.query(Block).filter(Block.id == block_id).first()] *)
Definition first_block (d : DB) (block_id : Z) : option Block.t :=
  head (filter (fun b => Block.id b = block_id) (blocks d)).

(** [db.query(BlockVersion).filter(BlockVersion.block_id == block_id,
    BlockVersion.version == version).first()] *)
Definition first_version (d : DB) (block_id version : Z)
  : option BlockVersion.t :=
  head (filter (fun r => BlockVersion.block_id r = block_id
                         /\ BlockVersion.version r = version)
               (block_versions d)).

(** [.order_by(key.desc()).first()]; among rows with the greatest key the
    earliest inserted is kept. *)
Definition first_desc {A} (key : A -> Z) (l : list A) : option A :=
  fold_left
    (fun best x =>
       match best with
       | None => Some x
       | Some b => if key b <? key x then Some x else Some b
       end)
    l None.

Definition failures_of (d : DB) (block_id : Z) : list ExecutionLog.t :=
  filter (fun l => ExecutionLog.block_id l = block_id
                   /\ ExecutionLog.success l = false)
         (execution_logs d).

Definition latest_error (d : DB) (block_id : Z) : option ExecutionLog.t :=
  first_desc ExecutionLog.created_at (failures_of d block_id).

(** The count of failure logs of the block younger than one hour. *)
Definition recent_errors (d : DB) (block_id now : Z) : Z :=
  Z.of_nat (List.length
    (filter (fun l => ExecutionLog.block_id l = block_id
                      /\ ExecutionLog.success l = false
                      /\ now - HOUR < ExecutionLog.created_at l)
            (execution_logs d))).

(** *** Writes *)

Definition with_status (s : string) (b : Block.t) : Block.t :=
  Block.mk (Block.id b) (Block.user_prompt b) (Block.title b)
           (Block.current_version b) (Block.refresh_interval b)
           (Block.layout_data b) s.

Definition with_current_version (v : Z) (b : Block.t) : Block.t :=
  Block.mk (Block.id b) (Block.user_prompt b) (Block.title b)
           v (Block.refresh_interval b) (Block.layout_data b) (Block.status b).

Definition with_layout_data (j : Json) (b : Block.t) : Block.t :=
  Block.mk (Block.id b) (Block.user_prompt b) (Block.title b)
           (Block.current_version b) (Block.refresh_interval b)
           j (Block.status b).

(** An attribute assignment on the ORM object of row [block_id]. *)
Definition update_row (block_id : Z) (f : Block.t -> Block.t) (d : DB) : DB :=
  mkDB (map (fun b => if bool_decide (Block.id b = block_id) then f b else b)
            (blocks d))
       (block_versions d) (block_data d) (execution_logs d).

Definition assign (block_id : Z) (f : Block.t -> Block.t) : M unit :=
  modify (set_db (update_row block_id f)).

(** The next integer primary key of [blocks]. *)
Definition next_block_id (d : DB) : Z :=
  1 + foldr Z.max 0 (Block.id <$> blocks d).

Definition insert_block (b : Block.t) (d : DB) : DB :=
  mkDB (blocks d ++ [b]) (block_versions d) (block_data d) (execution_logs d).

Definition insert_version (r : BlockVersion.t) (d : DB) : DB :=
  mkDB (blocks d) (block_versions d ++ [r]) (block_data d) (execution_logs d).

Definition insert_data (r : BlockData.t) (d : DB) : DB :=
  mkDB (blocks d) (block_versions d) (block_data d ++ [r]) (execution_logs d).

Definition insert_log (l : ExecutionLog.t) (d : DB) : DB :=
  mkDB (blocks d) (block_versions d) (block_data d) (execution_logs d ++ [l]).

(** [db.add(block); db.flush()]: the row is inserted and its id known. *)
Definition add_block (mk : Z -> Block.t) : M Block.t := fun w =>
  let block := mk (next_block_id (db w)) in
  (Return block, set_db (insert_block block) w).

Definition add_version (r : BlockVersion.t) : M unit :=
  modify (set_db (insert_version r)).

(** [fetched_at] is filled by the server with the time of insertion
    ([func.now()]); it is modelled as the clock of that instant, to the
    microsecond, where a store may keep the whole second only. *)
Definition add_data (mk : Z -> BlockData.t) : M unit := fun w =>
  (Return tt, set_db (insert_data (mk (clock w))) w).

(** [created_at] is filled by the server with the time of insertion, and
    modelled like [fetched_at]. *)
Definition add_log (mk : Z -> ExecutionLog.t) : M unit := fun w =>
  (Return tt, set_db (insert_log (mk (clock w))) w).

(** Every write above is applied at once; nothing is ever rolled back. *)
Definition commit : M unit := mret tt.

(** The ORM object [block] as the session now holds it. *)
Definition reload (block : Block.t) : M Block.t := fun w =>
  (Return (default block (first_block (db w) (Block.id block))), w).

Definition default_layout : Json :=
  JObject [("x", JInt 0); ("y", JInt 0); ("w", JInt 6); ("h", JInt 4)].

Section Service.
Context `{host : PyHost} (env : Env).

Definition _generate_title (prompt : string) : string :=
  str_title (join " " (take 4 (split_whitespace (strip prompt)))).

(** [title or self._generate_title(user_prompt)] *)
Definition title_or (title : option string) (user_prompt : string) : string :=
  match title with
  | Some t => if String.eqb t "" then _generate_title user_prompt else t
  | None => _generate_title user_prompt
  end.

Definition create_block (user_prompt : string) (title : option string)
    (refresh_interval : Z) : M Block.t :=
  generated_code ← AIService.generate_block_code env user_prompt None;
  block ← add_block (fun id =>
    Block.mk id user_prompt (title_or title user_prompt) 1 refresh_interval
             default_layout "active");
  add_version (BlockVersion.mk (Block.id block) 1
    (AIService.backend_code generated_code)
    (AIService.frontend_code generated_code)
    (AIService.explanation generated_code) "active");;
  try_except
    (ExecutionService.execute_block env (Block.id block) 1
       (AIService.backend_code generated_code);;
     assign (Block.id block) (with_status "active"))
    (fun e =>
       assign (Block.id block) (with_status "error");;
       add_log (ExecutionLog.mk (Block.id block) 1 "fetch" false
                  (Some (exn_msg e))));;
  commit;;
  reload block.

Definition update_block (block_id : Z) (user_prompt : string) : M Block.t :=
  w ← get;
  match first_block (db w) block_id with
  | None =>
      raise (mkExn ValueError
               ("Block " +:+ str_of_int block_id +:+ " not found"))
  | Some block =>
      let previous_version :=
        first_version (db w) block_id (Block.current_version block) in
      let context :=
        mkContext (Block.user_prompt block)
                  (BlockVersion.backend_code <$> previous_version)
                  user_prompt in
      generated_code ←
        AIService.generate_block_code env user_prompt (Some context);
      let new_version := Block.current_version block + 1 in
      add_version (BlockVersion.mk (Block.id block) new_version
        (AIService.backend_code generated_code)
        (AIService.frontend_code generated_code)
        (AIService.explanation generated_code) "active");;
      try_except
        (ExecutionService.execute_block env (Block.id block) new_version
           (AIService.backend_code generated_code);;
         assign block_id (with_current_version new_version);;
         assign block_id (with_status "active"))
        (fun e =>
           assign block_id (with_status "error");;
           add_log (ExecutionLog.mk (Block.id block) new_version "fetch"
                      false (Some (exn_msg e))));;
      commit;;
      reload block
  end.

(** The [try] suite of [heal_block]. *)
Definition heal_attempt (block : Block.t) (current_version : BlockVersion.t)
    (latest_error : ExecutionLog.t) : M unit :=
  healed_code ← AIService.heal_block env (Block.user_prompt block)
                  (ExecutionLog.error_message latest_error)
                  (BlockVersion.backend_code current_version);
  let new_version := Block.current_version block + 1 in
  add_version (BlockVersion.mk (Block.id block) new_version
    (AIService.backend_code healed_code)
    (AIService.frontend_code healed_code)
    ("Auto-healed: " +:+ AIService.explanation healed_code) "active");;
  ExecutionService.execute_block env (Block.id block) new_version
    (AIService.backend_code healed_code);;
  assign (Block.id block) (with_current_version new_version);;
  assign (Block.id block) (with_status "active");;
  add_log (ExecutionLog.mk (Block.id block) new_version "heal" true None).

Definition heal_block (block_id : Z) : M Block.t :=
  w ← get;
  match first_block (db w) block_id with
  | None =>
      raise (mkExn ValueError
               ("Block " +:+ str_of_int block_id +:+ " not found"))
  | Some block =>
      match first_version (db w) block_id (Block.current_version block),
            latest_error (db w) block_id with
      | Some current_version, Some latest_error =>
          try_except
            (heal_attempt block current_version latest_error)
            (fun e =>
               now_block ← reload block;
               add_log (ExecutionLog.mk (Block.id block)
                          (Block.current_version now_block) "heal" false
                          (Some (exn_msg e))));;
          commit;;
          reload block
      | _, _ =>
          raise (mkExn ValueError
                   "Cannot heal block: missing version or error information")
      end
  end.

(** [depth] is the number of nested activations the interpreter stack
    still has room for; beyond it Python raises [RecursionError]. *)
Fixpoint refresh_block_data (depth : nat) (block_id : Z) : M Json :=
  match depth with
  | O => raise (mkExn RecursionError "maximum recursion depth exceeded")
  | S depth' =>
      w ← get;
      match first_block (db w) block_id with
      | None =>
          raise (mkExn ValueError
                   ("Block " +:+ str_of_int block_id +:+ " not found"))
      | Some block =>
          match first_version (db w) block_id (Block.current_version block) with
          | None =>
              raise (mkExn ValueError
                       ("No version found for block " +:+ str_of_int block_id))
          | Some current_version =>
              try_except
                (data ← ExecutionService.execute_block env (Block.id block)
                          (Block.current_version block)
                          (BlockVersion.backend_code current_version);
                 now ← utcnow;
                 add_data (fun fetched_at =>
                   BlockData.mk (Block.id block) data fetched_at
                     (Some (now + seconds (Block.refresh_interval block))));;
                 add_log (ExecutionLog.mk (Block.id block)
                            (Block.current_version block) "fetch" true None);;
                 commit;;
                 mret data)
                (fun e =>
                   add_log (ExecutionLog.mk (Block.id block)
                              (Block.current_version block) "fetch" false
                              (Some (exn_msg e)));;
                   commit;;
                   now ← utcnow;
                   w' ← get;
                   retried ←
                     (if recent_errors (db w') block_id now <=? 1 then
                        try_except
                          (modify (record (EvAutoHeal block_id now));;
                           heal_block block_id;;
                           data ← refresh_block_data depth' block_id;
                           mret (Some data))
                          (fun _ => mret None)
                      else mret None);
                   match retried with
                   | Some data => mret data
                   | None => raise e
                   end)
          end
      end
  end.

(** [db.query(Block).filter(Block.status != "deleted").all()] *)
Definition get_blocks (d : DB) : list Block.t :=
  filter (fun b => Block.status b <> "deleted") (blocks d).

Definition get_block (d : DB) (block_id : Z) : option Block.t :=
  first_block d block_id.

Definition delete_block (block_id : Z) : M bool :=
  w ← get;
  match first_block (db w) block_id with
  | Some block =>
      assign block_id (with_status "deleted");; commit;; mret true
  | None => mret false
  end.

(** The assignment [block.updated_at = datetime.utcnow()] goes to a column
    that is left out. *)
Definition update_block_layout (block_id : Z) (layout_data : Json) : M bool :=
  w ← get;
  match first_block (db w) block_id with
  | Some block =>
      assign block_id (with_layout_data layout_data);; commit;; mret true
  | None => mret false
  end.

End Service.

End BlockService.

(** ** api/blocks.py *)

Module Api.
Import PyStr Runtime.

(** The JSON object answered by [GET /blocks/{id}/data]. *)
Record DataResponse := mkResponse {
  data : Json;
  cached : bool;
  stamp : Z                  (* [fetched_at] or [refreshed_at] *)
}.

(** [db.query(BlockData).filter(BlockData.block_id == block_id)
    .order_by(BlockData.fetched_at.desc()).first()] *)
Definition most_recent_data (d : DB) (block_id : Z) : option BlockData.t :=
  BlockService.first_desc BlockData.fetched_at
    (filter (fun r => BlockData.block_id r = block_id) (block_data d)).

(** [cached_data.expires_at and datetime.utcnow() > cached_data.expires_at] *)
Definition expired (r : BlockData.t) (now : Z) : bool :=
  match BlockData.expires_at r with
  | Some expires_at => expires_at <? now
  | None => false
  end.

(** The operations of the lifecycle, as a client may issue them; [Elapse]
    lets time go by between two of them. *)
Inductive Op :=
| Create (user_prompt : string) (title : option string) (refresh_interval : Z)
| Update (block_id : Z) (user_prompt : string)
| Heal (block_id : Z)
| RefreshData (block_id : Z)
| GetData (block_id : Z)
| Delete (block_id : Z)
| UpdateLayout (block_id : Z) (layout_data : Json)
| Elapse (duration : Z).

Section Routes.
Context `{host : PyHost} (env : Env) (depth : nat).

(** [POST /blocks/{id}/refresh] *)
Definition refresh_block (block_id : Z) : M (Json * Z) :=
  try_except
    (data ← BlockService.refresh_block_data env depth block_id;
     now ← utcnow;
     mret (data, now))
    (fun e =>
       if isinstance e ValueError
       then raise (mkExn (HTTPException 404) (exn_msg e))
       else raise (mkExn (HTTPException 500) (exn_msg e))).

(** [GET /blocks/{id}/data] *)
Definition get_block_data (block_id : Z) : M DataResponse :=
  w ← get;
  match most_recent_data (db w) block_id with
  | None =>
      data ← BlockService.refresh_block_data env depth block_id;
      now ← utcnow;
      mret (mkResponse data false now)
  | Some cached_data =>
      now ← utcnow;
      if expired cached_data now then
        data ← BlockService.refresh_block_data env depth block_id;
        now' ← utcnow;
        mret (mkResponse data false now')
      else
        mret (mkResponse (BlockData.data cached_data) true
                         (BlockData.fetched_at cached_data))
  end.

(** The state after one operation, whatever it answered. *)
Definition perform (op : Op) (w : World) : World :=
  match op with
  | Create user_prompt title refresh_interval =>
      (BlockService.create_block env user_prompt title refresh_interval w).2
  | Update block_id user_prompt =>
      (BlockService.update_block env block_id user_prompt w).2
  | Heal block_id => (BlockService.heal_block env block_id w).2
  | RefreshData block_id => (refresh_block block_id w).2
  | GetData block_id => (get_block_data block_id w).2
  | Delete block_id => (BlockService.delete_block block_id w).2
  | UpdateLayout block_id layout_data =>
      (BlockService.update_block_layout block_id layout_data w).2
  | Elapse duration => wait duration w
  end.

Definition run (ops : list Op) (w : World) : World :=
  fold_left (fun w op => perform op w) ops w.

End Routes.

End Api.

(** ** api/blocks.py: the other routes *)

Module Router.
Import PyStr Runtime.

(** The body of [POST /blocks/]; [refresh_interval] is 3600 when the
    request leaves it out. *)
Record CreateBlockRequest := mkCreateRequest {
  user_prompt : string;
  title : option string;
  refresh_interval : Z
}.

(** The columns of a version row that [GET /blocks/{id}/versions] answers
    ([id] and [created_at] are not modelled); the backend code is not among
    them. *)
Record BlockVersionResponse := mkVersionResponse {
  version : Z;
  frontend_code : string;
  ai_explanation : string;
  status : string
}.

Definition version_response (r : BlockVersion.t) : BlockVersionResponse :=
  mkVersionResponse (BlockVersion.version r) (BlockVersion.frontend_code r)
    (BlockVersion.ai_explanation r) (BlockVersion.status r).

(** [HTTPException(status_code=..., detail=...)] *)
Definition http (status_code : Z) (detail : string) : exn :=
  mkExn (HTTPException status_code) detail.

(** [BlockResponse.model_validate(block)]: of the columns modelled only
    [layout_data] can fail (it must be an object); pydantic's
    ValidationError is a ValueError. *)
Definition model_validate (block : Block.t) : M Block.t :=
  match Block.layout_data block with
  | JObject _ => mret block
  | _ =>
      raise (mkExn ValueError
               "1 validation error for BlockResponse: layout_data")
  end.

Fixpoint insert_desc {A} (key : A -> Z) (x : A) (l : list A) : list A :=
  match l with
  | [] => [x]
  | y :: l' => if key x <? key y then y :: insert_desc key x l' else x :: l
  end.

(** [.order_by(key.desc()).all()]; rows with equal keys stay in the order
    of insertion. *)
Definition order_by_desc {A} (key : A -> Z) (l : list A) : list A :=
  foldr (insert_desc key) [] l.

Section Routes.
Context `{host : PyHost} (env : Env).

(** [POST /blocks/]; the background task scheduled here only sleeps
    ([schedule_block_refresh]) and is not modelled. *)
Definition create_block (request : CreateBlockRequest) : M Block.t :=
  try_except
    (block ← BlockService.create_block env (user_prompt request)
               (title request) (refresh_interval request);
     model_validate block)
    (fun e => raise (http 500 (exn_msg e))).

(** [PUT /blocks/{block_id}] *)
Definition update_block (block_id : Z) (user_prompt : string) : M Block.t :=
  try_except
    (block ← BlockService.update_block env block_id user_prompt;
     model_validate block)
    (fun e =>
       if isinstance e ValueError then raise (http 404 (exn_msg e))
       else raise (http 500 (exn_msg e))).

(** [POST /blocks/{block_id}/heal] *)
Definition heal_block (block_id : Z) : M Block.t :=
  try_except
    (block ← BlockService.heal_block env block_id;
     model_validate block)
    (fun e =>
       if isinstance e ValueError then raise (http 404 (exn_msg e))
       else raise (http 500 (exn_msg e))).

(** [GET /blocks/{block_id}/versions] *)
Definition get_block_versions (block_id : Z) : M (list BlockVersionResponse) :=
  w ← get;
  match BlockService.get_block (db w) block_id with
  | None => raise (http 404 "Block not found")
  | Some _ =>
      let versions :=
        order_by_desc BlockVersion.version
          (filter (fun r => BlockVersion.block_id r = block_id)
                  (block_versions (db w))) in
      mret (version_response <$> versions)
  end.

End Routes.

End Router.

(** ** A concrete host and scripted environments, for running the model *)

Module Demo.
Import PyStr Runtime.

(** Decimal numerals for [int], objects by their first character for
    [json.loads], and titles left as they are. *)
Definition demo_host : PyHost := {|
  json_loads := fun s => if startswith s "{" then Some (JString s) else None;
  py_int := fun s => Z.of_int <$> NilZero.int_of_string s;
  str_title := fun s => s
|}.

Inductive Answer :=
| FromOracle (r : OracleReply)
| FromChild (c : Child).

(** The environment that gives the listed answers in order, and in which
    removing the directories named in [stuck] fails. *)
Definition scripted (answers : list Answer) (stuck : list string) : Env :=
  mkEnv
    (fun n => match answers !! n with
              | Some (FromOracle r) => r
              | _ => ApiError "connection refused" 0
              end)
    (fun n => match answers !! n with
              | Some (FromChild c) => c
              | _ => SpawnError "no interpreter"
              end)
    (fun _ name => negb (bool_decide (name ∈ stuck))).

(** A well-formed reply of the oracle. *)
Definition good_reply : string :=
  join nl [ "## Backend Code"; "```python"; "class BlockExecutor: pass"; "```";
            ""; "## Frontend Code"; "```typescript";
            "export function GeneratedBlock() {}"; "```";
            ""; "## Explanation"; "Shows the weather." ].

Definition oracle_ok : Answer := FromOracle (Reply (Some good_reply) (seconds 5)).
Definition oracle_down : Answer := FromOracle (ApiError "rate limited" (seconds 1)).
Definition child_ok : Answer :=
  FromChild (Exits (seconds 2) 0 (Text "{}") (Text "")).
Definition child_crash : Answer :=
  FromChild (Exits (seconds 1) 1 (Text "") (Text "Traceback")).
Definition child_hang : Answer := FromChild Hangs.

End Demo.

(* ====================================================================== *)
(** * Part II: properties                                                  *)
(* ====================================================================== *)

Import PyStr Runtime.

(** ** The parser of oracle replies *)

Section Parser.
Import AIService.

(** Before the label of [s] has been seen, the loop is not in section [s]
    and the key of [s] still holds its initial empty string. *)
Definition untouched (s : SectionName) (st : ParseState) : Prop :=
  current_section st <> Some s /\ field s (result st) = "".

Lemma untouched_initial s : untouched s initial.
Proof. split; [discriminate | by destruct s]. Qed.

Lemma parse_line_untouched s st line :
  strip line <> header s -> untouched s st -> untouched s (parse_line st line).
Proof.
  intros Hne [Hsec Hfld]. unfold parse_line.
  destruct (String.eqb_spec (strip line) (header backend)) as [E1|_].
  { split; simpl; [|done]. intros [= <-]. by apply Hne. }
  destruct (String.eqb_spec (strip line) (header frontend)) as [E2|_].
  { split; simpl; [|done]. intros [= <-]. by apply Hne. }
  destruct (String.eqb_spec (strip line) (header explanation_section)) as [E3|_].
  { split; simpl; [|done]. intros [= <-]. by apply Hne. }
  destruct (startswith (strip line) fence).
  - split; simpl; [done|].
    destruct (current_code st) as [|c cs]; [done|].
    destruct (current_section st) as [[| |]|]; try done;
      destruct s; simpl in *; congruence.
  - destruct (current_section st) as [[| |]|] eqn:E;
      (split; simpl; [congruence | done]).
Qed.

Lemma fold_untouched s lines st :
  (forall line, line ∈ lines -> strip line <> header s) ->
  untouched s st -> untouched s (fold_left parse_line lines st).
Proof.
  revert st. induction lines as [|l ls IH]; intros st Hall Hst; simpl; [done|].
  apply IH.
  - intros line Hin. apply Hall. by right.
  - apply parse_line_untouched; [|done]. apply Hall. by left.
Qed.

Lemma finish_untouched s st : untouched s st -> field s (finish st) = "".
Proof.
  intros [Hsec Hfld]. unfold finish.
  destruct (current_section st) as [[| |]|]; try done.
  destruct (current_code st); [done|].
  destruct s; simpl in *; congruence.
Qed.

Lemma has_section_false s content line :
  has_section s content = false ->
  line ∈ split "010"%char content -> strip line <> header s.
Proof.
  unfold has_section. intros Hno Hin Heq.
  assert (existsb (fun l => String.eqb (strip l) (header s))
                  (split "010"%char content) = true) as Hex.
  { apply existsb_exists. exists line. split.
    - by apply list_elem_of_In.
    - by apply String.eqb_eq. }
  congruence.
Qed.

(** C8. The parser is a total function from reply texts to records with
    the keys [backend_code], [frontend_code] and [explanation] (it has no
    raising path), and for each of the three labelled sections that is
    missing from the text the corresponding key holds the empty string. *)
Theorem parse_missing_section_empty (content : string) (s : SectionName) :
  has_section s content = false ->
  field s (_parse_generated_code content) = "".
Proof.
  intros Hmiss. unfold _parse_generated_code.
  apply finish_untouched, fold_untouched; [|apply untouched_initial].
  intros line Hin. by apply (has_section_false s content).
Qed.

(** A reply with its two code sections and no explanation. *)
Definition reply_without_explanation : string :=
  join nl [ "## Backend Code"; "```python"; "x = 1"; "```";
            "## Frontend Code"; "```typescript"; "y"; "```" ].

Lemma parse_missing_section_empty_witness :
  has_section explanation_section reply_without_explanation = false /\
  explanation (_parse_generated_code reply_without_explanation) = "".
Proof.
  split; [reflexivity|].
  apply (parse_missing_section_empty reply_without_explanation
           explanation_section).
  reflexivity.
Defined.

End Parser.

(** ** The import guard *)

Section Imports.
Import ExecutionService.

(** Whatever the interpreter can load the guard loads: both branches call
    [original_import], and only the message of a failing import differs. *)
Lemma restricted_import_transparent original_import name args m :
  original_import name args = Imported m ->
  restricted_import original_import name args = Imported m.
Proof.
  intros H. unfold restricted_import.
  destruct (_ && _); by rewrite H.
Qed.

Lemma restricted_import_succeeds_iff original_import name args :
  (exists m, restricted_import original_import name args = Imported m) <->
  (exists m, original_import name args = Imported m).
Proof.
  unfold restricted_import. split; intros [m H].
  - destruct (_ && _); [|by exists m].
    destruct (original_import name args); try discriminate. by exists m.
  - exists m. destruct (_ && _); by rewrite H.
Qed.

(** C6 (the code departs from the claim). [sqlalchemy] is outside the
    allowlist and has no leading underscore, and the backend's own
    interpreter has it installed; its import through the guard is not
    rejected: the module is handed back. *)
Theorem restricted_import_loads_unlisted_package :
  outside_allowlist "sqlalchemy" = true /\
  restricted_import (interpreter_with ["sqlalchemy"; "subprocess"])
    "sqlalchemy" (mkImportArgs [] 0) = Imported "sqlalchemy".
Proof. split; reflexivity. Qed.

End Imports.

(** ** Running computations of [M] *)

Lemma bind_run {A B} (c : M A) (f : A -> M B) (w : World) :
  (c ≫= f) w = match c w with
               | (Return a, w') => f a w'
               | (Raise e, w') => (Raise e, w')
               end.
Proof. reflexivity. Qed.

(** Unfolding of the monad's operations in the goal. *)
Ltac msimpl :=
  cbv [mbind M_bind mret M_ret try_except raise modify get utcnow observed
       BlockService.reload BlockService.add_log BlockService.add_version
       BlockService.add_data BlockService.add_block BlockService.assign
       BlockService.commit];
  simpl.

Lemma try_except_run {A} (c : M A) (h : exn -> M A) (w : World) :
  try_except c h w = match c w with
                     | (Raise e, w') => h e w'
                     | r => r
                     end.
Proof. reflexivity. Qed.

(** ** Rows are found by their key *)

Section Queries.
Import BlockService.

Lemma first_block_Some d block_id b :
  first_block d block_id = Some b -> b ∈ blocks d /\ Block.id b = block_id.
Proof.
  unfold first_block. intros H.
  apply head_Some_elem_of in H.
  by apply list_elem_of_filter in H as [? ?].
Qed.

Lemma first_block_update_row d block_id id' f :
  (forall b, Block.id (f b) = Block.id b) ->
  first_block (update_row id' f d) block_id =
  (fun b => if bool_decide (Block.id b = id') then f b else b)
    <$> first_block d block_id.
Proof.
  intros Hid. unfold first_block, update_row. simpl.
  induction (blocks d) as [|b bs IH]; [done|].
  rewrite fmap_cons, !filter_cons.
  assert (Block.id (if bool_decide (Block.id b = id') then f b else b)
          = Block.id b) as ->.
  { case_bool_decide; [apply Hid | done]. }
  case_decide; [done | apply IH].
Qed.

Lemma first_block_insert_log l d block_id :
  first_block (insert_log l d) block_id = first_block d block_id.
Proof. reflexivity. Qed.

Lemma first_block_insert_version r d block_id :
  first_block (insert_version r d) block_id = first_block d block_id.
Proof. reflexivity. Qed.

Lemma first_block_insert_data r d block_id :
  first_block (insert_data r d) block_id = first_block d block_id.
Proof. reflexivity. Qed.

Lemma with_status_id s b : Block.id (with_status s b) = Block.id b.
Proof. done. Qed.

Lemma with_current_version_id v b :
  Block.id (with_current_version v b) = Block.id b.
Proof. done. Qed.

Lemma with_layout_data_id j b : Block.id (with_layout_data j b) = Block.id b.
Proof. done. Qed.

End Queries.

(** ** Listing and soft deletion *)

Section Listing.
Import BlockService.

Lemma delete_block_run block_id w b :
  first_block (db w) block_id = Some b ->
  delete_block block_id w =
  (Return true, set_db (update_row block_id (with_status "deleted")) w).
Proof.
  intros H. unfold delete_block. rewrite bind_run. simpl. by rewrite H.
Qed.

(** C10. The listing holds exactly the stored blocks whose status is not
    [deleted]: blocks in status [error] or [disabled] are listed, and
    after a soft deletion the block is no longer listed while its row is
    still answered, with status [deleted], by the lookup by id. *)
Theorem get_blocks_lists_all_but_deleted (d : DB) :
  (forall b, b ∈ get_blocks d <-> b ∈ blocks d /\ Block.status b <> "deleted")
  /\ (forall b, b ∈ blocks d ->
        Block.status b = "error" \/ Block.status b = "disabled" ->
        b ∈ get_blocks d)
  /\ (forall w block_id b,
        db w = d -> first_block d block_id = Some b ->
        let d' := db (delete_block block_id w).2 in
        get_block d' block_id = Some (with_status "deleted" b)
        /\ (forall b', b' ∈ get_blocks d' -> Block.id b' <> block_id)
        /\ List.length (blocks d') = List.length (blocks d)).
Proof.
  split; [|split].
  - intros b. unfold get_blocks. rewrite list_elem_of_filter. tauto.
  - intros b Hin Hst. unfold get_blocks. apply list_elem_of_filter.
    split; [|done]. destruct Hst as [-> | ->]; discriminate.
  - intros w block_id b <- Hb. rewrite (delete_block_run _ _ b Hb). simpl.
    split; [|split].
    + unfold get_block. rewrite first_block_update_row by done.
      rewrite Hb. simpl. apply first_block_Some in Hb as [_ Hid].
      by rewrite bool_decide_eq_true_2.
    + intros b' Hin Hid. unfold get_blocks in Hin.
      apply list_elem_of_filter in Hin as [Hst Hin].
      unfold update_row in Hin. simpl in Hin.
      apply list_elem_of_fmap in Hin as [b0 [-> Hin0]].
      case_bool_decide; [by apply Hst|]. congruence.
    + unfold update_row. simpl. by rewrite length_map.
Qed.

End Listing.

(** ** The executor *)

Section Executor.
Import ExecutionService.
Context `{host : PyHost} (env : Env).

(** The wait on the child expires. *)
Definition times_out (c : Child) : bool :=
  match c with
  | Hangs => true
  | Exits after _ _ _ => TIMEOUT <=? after
  | SpawnError _ => false
  end.

Definition timed_out : exn := mkExn Exception "Block execution timed out".

(** What [run_script] answers for each behaviour of the child. *)
Definition script_result (c : Child) : result Json :=
  match c with
  | SpawnError msg => Raise (mkExn Exception ("Execution error: " +:+ msg))
  | Hangs => Raise timed_out
  | Exits after returncode stdout stderr =>
      if after <? TIMEOUT then
        if negb (returncode =? 0) then
          match stderr with
          | Undecodable reason =>
              Raise (mkExn Exception ("Execution error: " +:+ reason))
          | Text s =>
              Raise (mkExn Exception
                ("Execution error: " +:+ "Block execution failed: " +:+
                 (if String.eqb s "" then "Unknown execution error" else s)))
          end
        else
          match stdout with
          | Undecodable reason =>
              Raise (mkExn Exception ("Execution error: " +:+ reason))
          | Text s =>
              match json_loads s with
              | Some j => Return j
              | None =>
                  Raise (mkExn Exception
                    ("Execution error: " +:+ "Block did not return valid JSON"))
              end
          end
      else Raise timed_out
  end.

(** The world after [run_script]: one more call to the environment, the
    child in the process table, and the time it took. *)
Definition script_world (c : Child) (w : World) : World :=
  match c with
  | SpawnError _ => tick 0 w
  | Hangs => wait TIMEOUT (set_procs (fun ps => ps ++ [Running]) (tick 0 w))
  | Exits after returncode _ _ =>
      if after <? TIMEOUT then
        set_procs <[List.length (procs w) := Exited returncode]>
          (wait after (set_procs (fun ps => ps ++ [Running]) (tick 0 w)))
      else wait TIMEOUT (set_procs (fun ps => ps ++ [Running]) (tick 0 w))
  end.

Lemma run_script_classified w :
  run_script env w =
  (script_result (child env (calls w)), script_world (child env (calls w)) w).
Proof.
  unfold run_script, create_subprocess_exec.
  rewrite try_except_run, bind_run.
  destruct (child env (calls w)) as [msg|after rc out err|] eqn:Ec; simpl.
  - reflexivity.
  - rewrite bind_run. unfold wait_for_communicate.
    destruct (after <? TIMEOUT) eqn:Et; simpl; [|reflexivity].
    destruct (rc =? 0) eqn:Erc; simpl.
    + destruct out as [s|reason]; msimpl; [|reflexivity].
      destruct (json_loads s); reflexivity.
    + destruct err as [s|reason]; msimpl; [|reflexivity].
      destruct (String.eqb s ""); reflexivity.
  - reflexivity.
Qed.

Lemma execution_error_not_timed_out msg :
  mkExn Exception ("Execution error: " +:+ msg) <> timed_out.
Proof. discriminate. Qed.

Lemma script_result_timed_out_iff c :
  script_result c = Raise timed_out <-> times_out c = true.
Proof.
  destruct c as [msg|after rc out err|]; simpl.
  - split; [intros [=] | discriminate].
  - rewrite Z.leb_antisym. destruct (after <? TIMEOUT); simpl.
    + split; [|discriminate].
      destruct (rc =? 0); simpl.
      * destruct out as [s|?]; [destruct (json_loads s)|]; intros [=].
      * destruct err as [s|?]; intros [=].
    + done.
  - done.
Qed.

Lemma makedirs_db block_id name w r w' :
  makedirs block_id name w = (r, w') ->
  db w' = db w /\ trace w' = trace w /\ clock w' = clock w
  /\ calls w' = calls w /\ procs w' = procs w.
Proof.
  unfold makedirs.
  destruct (lookup_entry name _) as [[|]|]; intros [= <- <-]; done.
Qed.

(** C5, as the code has it. When the wait on the child expires (the child
    hangs, or exits only after the 30 seconds), [execute_block] raises the
    failure "Block execution timed out"; no other failure of the executor
    carries that message; and the child is not killed: its entry in the
    process table is left [Running]. *)
Theorem execute_block_timeout block_id version code w w0 :
  makedirs block_id ("v" +:+ str_of_int version) w = (Return tt, w0) ->
  times_out (child env (calls w)) = true ->
  exists w',
    execute_block env block_id version code w = (Raise timed_out, w')
    /\ procs w' = procs w ++ [Running]
    /\ clock w' = clock w + TIMEOUT
    /\ (forall w2, (ExecutionService.run_script env w2).1 = Raise timed_out ->
                   times_out (child env (calls w2)) = true).
Proof.
  intros Hmk Hto. unfold execute_block. rewrite bind_run, Hmk.
  unfold observed. rewrite run_script_classified.
  apply makedirs_db in Hmk as (Hdb & Htr & Hck & Hcl & Hps).
  rewrite Hcl.
  apply script_result_timed_out_iff in Hto as Hres. rewrite Hres.
  eexists. split; [reflexivity|].
  split; [|split].
  - destruct (child env (calls w)) as [?|after ? ? ?|]; simpl in *;
      [discriminate| |by rewrite Hps].
    apply Z.leb_le in Hto. apply Z.ltb_ge in Hto. rewrite Hto. simpl.
    by rewrite Hps.
  - destruct (child env (calls w)) as [?|after ? ? ?|]; simpl in *;
      [discriminate| |lia].
    apply Z.leb_le in Hto. apply Z.ltb_ge in Hto. rewrite Hto. simpl. lia.
  - intros w2. rewrite run_script_classified. simpl.
    apply script_result_timed_out_iff.
Qed.

End Executor.

(** ** Retention of artifact directories *)

Section Retention.
Import ExecutionService.
Context `{host : PyHost} (env : Env).

Lemma ascii_compare_refl a : Ascii.compare a a = Eq.
Proof. unfold Ascii.compare. apply N.compare_refl. Qed.

Lemma string_compare_refl s : String.compare s s = Eq.
Proof.
  induction s as [|a s IH]; simpl; [done|]. by rewrite ascii_compare_refl.
Qed.

(** [<=] on texts is transitive. *)
Lemma string_compare_not_Gt_trans s1 s2 s3 :
  String.compare s1 s2 <> Gt -> String.compare s2 s3 <> Gt ->
  String.compare s1 s3 <> Gt.
Proof.
  revert s2 s3. induction s1 as [|a s1 IH]; intros [|b s2] [|c s3];
    simpl; try done.
  unfold Ascii.compare.
  destruct (N.compare_spec (N_of_ascii a) (N_of_ascii b)) as [Eab|Lab|Gab];
    destruct (N.compare_spec (N_of_ascii b) (N_of_ascii c)) as [Ebc|Lbc|Gbc];
    try done.
  - rewrite Eab, Ebc, N.compare_refl. apply IH.
  - intros _ _. rewrite Eab. by apply N.compare_lt_iff in Lbc as ->.
  - intros _ _. rewrite <- Ebc. by apply N.compare_lt_iff in Lab as ->.
  - intros _ _.
    assert (N_of_ascii a < N_of_ascii c)%N as H by lia.
    by apply N.compare_lt_iff in H as ->.
Qed.

Lemma key_compare_refl a : key_compare a a = Eq.
Proof.
  unfold key_compare. by rewrite Z.compare_refl, string_compare_refl.
Qed.

Lemma key_compare_antisym a b : key_compare a b = CompOpp (key_compare b a).
Proof.
  unfold key_compare. rewrite (Z.compare_antisym a.1 b.1).
  destruct (a.1 ?= b.1); simpl; try done. apply String.compare_antisym.
Qed.

Lemma key_geb_total a b : key_geb a b = true \/ key_geb b a = true.
Proof.
  unfold key_geb. rewrite (key_compare_antisym b a).
  destruct (key_compare a b); simpl; auto.
Qed.

Lemma key_geb_trans a b c :
  key_geb a b = true -> key_geb b c = true -> key_geb a c = true.
Proof.
  unfold key_geb, key_compare.
  destruct (Z.compare_spec a.1 b.1) as [Eab|Lab|Gab]; try done;
    destruct (Z.compare_spec b.1 c.1) as [Ebc|Lbc|Gbc]; try done.
  - rewrite Eab, Ebc, Z.compare_refl. intros H1 H2.
    assert (String.compare c.2 a.2 <> Gt) as H.
    { apply (string_compare_not_Gt_trans _ b.2).
      - rewrite String.compare_antisym. by destruct (String.compare b.2 c.2).
      - rewrite String.compare_antisym. by destruct (String.compare a.2 b.2). }
    rewrite String.compare_antisym. by destruct (String.compare c.2 a.2).
  - intros _ _. rewrite Eab. by apply Z.compare_gt_iff in Gbc as ->.
  - intros _ _. rewrite <- Ebc. by apply Z.compare_gt_iff in Gab as ->.
  - intros _ _. assert (c.1 < a.1) as H by lia.
    by apply Z.compare_gt_iff in H as ->.
Qed.

(** A pair standing before another in the reverse order has at least its
    version number. *)
Lemma key_geb_version a b : key_geb a b = true -> b.1 <= a.1.
Proof.
  unfold key_geb, key_compare.
  destruct (Z.compare_spec a.1 b.1); try done; lia.
Qed.

Lemma insert_reverse_perm x l : insert_reverse x l ≡ₚ x :: l.
Proof.
  induction l as [|y l IH]; simpl; [done|].
  destruct (key_geb x y); [done|]. rewrite IH. apply Permutation_swap.
Qed.

Lemma sort_reverse_perm l : sort_reverse l ≡ₚ l.
Proof.
  induction l as [|x l IH]; simpl; [done|].
  fold (sort_reverse l). by rewrite insert_reverse_perm, IH.
Qed.

Definition before (a b : Z * string) : Prop := key_geb a b = true.

Lemma insert_reverse_sorted x l :
  StronglySorted before l -> StronglySorted before (insert_reverse x l).
Proof.
  induction 1 as [|y l Hl IH Hy]; simpl.
  - repeat constructor.
  - destruct (key_geb x y) eqn:E.
    + constructor; [by constructor|].
      constructor; [done|].
      eapply Forall_impl; [exact Hy|].
      intros z Hz. by apply (key_geb_trans x y z).
    + constructor; [done|].
      rewrite insert_reverse_perm. constructor; [|done].
      destruct (key_geb_total x y) as [H|H]; [congruence | done].
Qed.

Lemma sort_reverse_sorted l : StronglySorted before (sort_reverse l).
Proof.
  induction l as [|x l IH]; simpl; [constructor|].
  by apply insert_reverse_sorted.
Qed.

Lemma sorted_take_drop n l k d :
  StronglySorted before l -> k ∈ take n l -> d ∈ drop n l -> before k d.
Proof.
  intros Hs. revert n. induction Hs as [|x l Hl IH Hx]; intros n Hk Hd.
  - rewrite take_nil in Hk. by apply elem_of_nil in Hk.
  - destruct n as [|n]; simpl in *; [by apply elem_of_nil in Hk|].
    apply elem_of_cons in Hk as [->|Hk].
    + rewrite Forall_forall in Hx. apply Hx.
      by apply (subseteq_drop n l).
    + by apply (IH n).
Qed.

(** The scan keeps the item's name. *)
Lemma scan_item_name e d : scan_item e = Some d -> d.2 = e.1.
Proof.
  unfold scan_item. destruct (_ && _); [|done].
  destruct (py_int _); [|done]. by intros [= <-].
Qed.

Lemma version_dirs_filter (Q : string -> Prop) `{!forall s, Decision (Q s)}
    (items : Listing) :
  version_dirs (filter (fun e => Q e.1) items)
  = filter (fun d => Q d.2) (version_dirs items).
Proof.
  unfold version_dirs. induction items as [|e items IH]; [done|].
  rewrite filter_cons.
  destruct (decide (Q e.1)) as [HQ|HQ]; simpl;
    destruct (scan_item e) as [d|] eqn:Ed; simpl; try apply IH.
  - rewrite filter_cons_True; [f_equal; apply IH|].
    by rewrite (scan_item_name _ _ Ed).
  - rewrite filter_cons_False; [apply IH|].
    by rewrite (scan_item_name _ _ Ed).
Qed.

Lemma version_dirs_names items d :
  d ∈ version_dirs items -> d.2 ∈ items.*1.
Proof.
  unfold version_dirs. rewrite list_elem_of_omap. intros [e [Hin He]].
  apply scan_item_name in He as ->. apply list_elem_of_fmap. by exists e.
Qed.

Lemma version_dirs_NoDup items :
  NoDup items.*1 -> NoDup (version_dirs items).*2.
Proof.
  unfold version_dirs. induction items as [|e items IH]; simpl.
  { intros _. constructor. }
  rewrite NoDup_cons. intros [Hnotin Hnd].
  destruct (scan_item e) as [d|] eqn:Ed; [|by apply IH].
  rewrite fmap_cons. apply NoDup_cons. split; [|by apply IH].
  apply scan_item_name in Ed as ->. intros Hin. apply Hnotin.
  apply list_elem_of_fmap in Hin as [d' [-> Hd']].
  by apply version_dirs_names.
Qed.

(** The names the removal loop deletes. *)
Definition gone (block_id : Z) (to_remove : list (Z * string)) : list string :=
  (filter (fun d => rmtree_ok env block_id d.2 = true) to_remove).*2.

Lemma remove_dirs_filter block_id to_remove items :
  remove_dirs env block_id to_remove items
  = filter (fun e => e.1 ∉ gone block_id to_remove) items.
Proof.
  unfold remove_dirs, gone.
  revert items. induction to_remove as [|d ds IH]; intros items; simpl.
  - induction items as [|e items IHi]; [done|].
    rewrite filter_cons_True by apply not_elem_of_nil. by rewrite <- IHi.
  - rewrite IH, filter_cons. destruct (rmtree_ok env block_id d.2) eqn:E.
    + rewrite decide_True by done. rewrite list_filter_filter.
      apply list_filter_iff. intros e. rewrite fmap_cons, not_elem_of_cons.
      tauto.
    + by rewrite decide_False by congruence.
Qed.

Lemma filter_ext_elem {A} (P Q : A -> Prop) `{!forall x, Decision (P x)}
    `{!forall x, Decision (Q x)} (l : list A) :
  (forall x, x ∈ l -> P x <-> Q x) -> filter P l = filter Q l.
Proof.
  induction l as [|x l IH]; intros Hext; [done|].
  rewrite !filter_cons.
  assert (filter P l = filter Q l) as ->.
  { apply IH. intros y Hy. apply Hext. by right. }
  pose proof (Hext x (list_elem_of_here _ _)) as Hx.
  destruct (decide (P x)) as [Hp|Hp], (decide (Q x)) as [Hq|Hq];
    try done; tauto.
Qed.

Lemma filter_all_elem {A} (P : A -> Prop) `{!forall x, Decision (P x)}
    (l : list A) :
  (forall x, x ∈ l -> P x) -> filter P l = l.
Proof.
  induction l as [|x l IH]; intros Hall; [done|].
  rewrite filter_cons_True by (apply Hall; by left).
  f_equal. apply IH. intros y Hy. apply Hall. by right.
Qed.

Lemma gone_spec block_id to_remove d :
  d ∈ to_remove ->
  d.2 ∉ gone block_id to_remove <-> rmtree_ok env block_id d.2 = false.
Proof.
  intros Hd. unfold gone. split.
  - intros Hnot. destruct (rmtree_ok env block_id d.2) eqn:E; [|done].
    exfalso. apply Hnot. apply list_elem_of_fmap. exists d. split; [done|].
    by apply list_elem_of_filter.
  - intros Hf Hin. apply list_elem_of_fmap in Hin as [d' [Heq Hd']].
    apply list_elem_of_filter in Hd' as [Hok _]. congruence.
Qed.

Lemma gone_subset block_id to_remove name :
  name ∈ gone block_id to_remove -> name ∈ to_remove.*2.
Proof.
  unfold gone. intros H. apply list_elem_of_fmap in H as [d [-> Hd]].
  apply list_elem_of_filter in Hd as [_ Hd]. by apply list_elem_of_fmap_2.
Qed.

Lemma cleanup_old_versions_returns block_id keep_versions w :
  (cleanup_old_versions env block_id keep_versions w).1 = Return tt.
Proof. unfold cleanup_old_versions. by destruct (fs w !! block_id). Qed.

(** X29. [cleanup_old_versions] is a method that nothing in the program
    calls.  When it is run on a block's directory with the default of 5,
    the version directories found split into the 5 first of the reverse
    order, which are kept, and the rest; no removed directory has a higher
    version number than a kept one; what remains afterwards is the kept
    ones together with the directories whose removal failed, a failure the
    call swallows (it always returns); so when every removal succeeds and
    at least 5 version directories were found, exactly 5 remain. *)
Theorem cleanup_keeps_most_recent block_id (items : Listing) :
  NoDup items.*1 ->
  let found := version_dirs items in
  let kept := take 5 (sort_reverse found) in
  let dropped := drop 5 (sort_reverse found) in
  let remaining := version_dirs (cleanup_listing env block_id 5 items) in
  kept ++ dropped ≡ₚ found
  /\ (forall k d, k ∈ kept -> d ∈ dropped -> d.1 <= k.1)
  /\ remaining ≡ₚ
       kept ++ filter (fun d => rmtree_ok env block_id d.2 = false) dropped
  /\ ((forall d, d ∈ dropped -> rmtree_ok env block_id d.2 = true) ->
      (5 <= List.length found)%nat ->
      remaining ≡ₚ kept /\ List.length remaining = 5%nat)
  /\ (forall w, (cleanup_old_versions env block_id 5 w).1 = Return tt).
Proof.
  intros Hnd found kept dropped remaining.
  assert (kept ++ dropped ≡ₚ found) as Hperm.
  { unfold kept, dropped. rewrite take_drop. apply sort_reverse_perm. }
  assert (remaining ≡ₚ
          kept ++ filter (fun d => rmtree_ok env block_id d.2 = false) dropped)
    as Hrem.
  { unfold remaining, cleanup_listing, slice_from. simpl.
    change (Z.to_nat 5) with 5%nat. fold found. fold dropped.
    rewrite remove_dirs_filter.
    assert (version_dirs
              (filter (fun e => e.1 ∉ gone block_id dropped) items)
            = filter (fun d => d.2 ∉ gone block_id dropped) found) as ->
      by exact (version_dirs_filter
                  (fun n => n ∉ gone block_id dropped) items).
    rewrite <- Hperm, filter_app.
    assert (NoDup (kept ++ dropped).*2) as Hnd2.
    { rewrite Hperm. by apply version_dirs_NoDup. }
    rewrite fmap_app in Hnd2. apply NoDup_app in Hnd2 as (_ & Hdisj & _).
    assert (filter (fun d => d.2 ∉ gone block_id dropped) kept = kept) as ->.
    { apply filter_all_elem. intros k Hk Hg.
      apply (Hdisj k.2); [by apply list_elem_of_fmap_2|].
      by apply (gone_subset block_id). }
    assert (filter (fun d => d.2 ∉ gone block_id dropped) dropped
            = filter (fun d => rmtree_ok env block_id d.2 = false) dropped)
      as ->; [|done].
    apply filter_ext_elem. intros d Hd. by apply gone_spec. }
  split; [done|]. split; [|split; [done|split]].
  - intros k d Hk Hd. apply key_geb_version.
    apply (sorted_take_drop 5 (sort_reverse found)); [|done..].
    apply sort_reverse_sorted.
  - intros Hok Hlen.
    assert (filter (fun d => rmtree_ok env block_id d.2 = false) dropped = [])
      as Hnil.
    { clear -Hok. induction dropped as [|d ds IH]; [done|].
      rewrite filter_cons_False.
      - apply IH. intros d' Hd'. apply Hok. by right.
      - rewrite (Hok d (list_elem_of_here _ _)). discriminate. }
    rewrite Hnil, app_nil_r in Hrem. split; [done|].
    rewrite Hrem. unfold kept. rewrite length_take.
    rewrite (Permutation_length (sort_reverse_perm found)). lia.
  - intros w. apply cleanup_old_versions_returns.
Qed.

End Retention.

(** ** Effects of the calls to the oracle and to the executor *)

Definition is_return {A} (r : result A) : bool :=
  match r with
  | Return _ => true
  | Raise _ => false
  end.

Definition took_of (r : OracleReply) : Z :=
  match r with
  | Reply _ took => took
  | ApiError _ took => took
  end.

Section Effects.
Import BlockService.
Context `{host : PyHost} (env : Env).

Lemma chat_completion_effect ev w r w' :
  AIService.chat_completion env ev w = (r, w') ->
  db w' = db w /\ fs w' = fs w
  /\ clock w' = clock w + took_of (oracle env (calls w))
  /\ trace w' = trace w ++ [ev (clock w')].
Proof.
  unfold AIService.chat_completion.
  destruct (oracle env (calls w)); intros [= <- <-]; done.
Qed.

Lemma generate_block_code_effect user_prompt context w r w' :
  AIService.generate_block_code env user_prompt context w = (r, w') ->
  db w' = db w /\ fs w' = fs w
  /\ clock w' = clock w + took_of (oracle env (calls w))
  /\ trace w' = trace w ++ [EvGenerate user_prompt context (clock w')].
Proof.
  unfold AIService.generate_block_code.
  rewrite try_except_run, bind_run.
  destruct (AIService.chat_completion env _ w) as [[content|e] w1] eqn:E;
    apply chat_completion_effect in E.
  - destruct content; msimpl; intros [= <- <-]; done.
  - msimpl. intros [= <- <-]. done.
Qed.

Lemma oracle_heal_effect original_prompt error_message failed_code w r w' :
  AIService.heal_block env original_prompt error_message failed_code w
  = (r, w') ->
  db w' = db w /\ fs w' = fs w
  /\ clock w' = clock w + took_of (oracle env (calls w))
  /\ trace w' = trace w ++
       [EvHealOracle original_prompt error_message failed_code (clock w')].
Proof.
  unfold AIService.heal_block.
  rewrite try_except_run, bind_run.
  destruct (AIService.chat_completion env _ w) as [[content|e] w1] eqn:E;
    apply chat_completion_effect in E.
  - destruct content; msimpl; intros [= <- <-]; done.
  - msimpl. intros [= <- <-]. done.
Qed.

Lemma script_world_effect c w :
  db (script_world c w) = db w /\ fs (script_world c w) = fs w
  /\ trace (script_world c w) = trace w
  /\ clock (script_world c w) <= clock w + ExecutionService.TIMEOUT.
Proof.
  assert (0 < ExecutionService.TIMEOUT) by done.
  destruct c as [?|after ? ? ?|]; simpl; repeat split; try done; try lia.
  - by destruct (after <? _).
  - by destruct (after <? _).
  - by destruct (after <? _).
  - destruct (after <? _) eqn:E; simpl; [|lia].
    apply Z.ltb_lt in E. lia.
Qed.

(** A run of the executor leaves the database alone, takes at most the
    timeout, and is noted in the trace with its outcome, unless the
    version directory could not be made. *)
Lemma execute_block_effect block_id version code w r w' :
  ExecutionService.execute_block env block_id version code w = (r, w') ->
  db w' = db w
  /\ clock w' <= clock w + ExecutionService.TIMEOUT
  /\ (trace w' = trace w ++ [EvExec block_id version (clock w') (is_return r)]
      \/ trace w' = trace w /\ is_return r = false).
Proof.
  unfold ExecutionService.execute_block. rewrite bind_run.
  destruct (ExecutionService.makedirs _ _ w) as [[[]|e] w0] eqn:Emk;
    apply makedirs_db in Emk as (Hdb & Htr & Hck & Hcl & Hps).
  - unfold observed. rewrite run_script_classified.
    destruct (script_world_effect (child env (calls w0)) w0)
      as (Hdb' & _ & Htr' & Hck').
    destruct (script_result _) as [j|e]; intros [= <- <-]; simpl;
      rewrite ?Hdb', ?Htr'; (split; [done|]); (split; [lia|]);
      left; by rewrite Htr.
  - intros [= <- <-]. assert (0 < ExecutionService.TIMEOUT) by done.
    split; [done|]. split; [lia|]. by right.
Qed.

End Effects.

(** ** Healing *)

Section Healing.
Import BlockService.
Context `{host : PyHost} (env : Env).

(** The version row a heal attempt stores for the oracle's answer. *)
Definition healed_version (block : Block.t) (healed : AIService.GeneratedCode)
  : BlockVersion.t :=
  BlockVersion.mk (Block.id block) (Block.current_version block + 1)
    (AIService.backend_code healed) (AIService.frontend_code healed)
    ("Auto-healed: " +:+ AIService.explanation healed) "active".

(** The heal attempt fails with [e], leaving the world [w1]: the oracle
    call fails, or the healed code does not pass the executor. *)
Definition heal_fails (block : Block.t) (current_version : BlockVersion.t)
    (latest_error : ExecutionLog.t) (w : World) (e : exn) (w1 : World) : Prop :=
  AIService.heal_block env (Block.user_prompt block)
    (ExecutionLog.error_message latest_error)
    (BlockVersion.backend_code current_version) w = (Raise e, w1)
  \/ exists healed w0,
       AIService.heal_block env (Block.user_prompt block)
         (ExecutionLog.error_message latest_error)
         (BlockVersion.backend_code current_version) w = (Return healed, w0)
       /\ ExecutionService.execute_block env (Block.id block)
            (Block.current_version block + 1) (AIService.backend_code healed)
            (set_db (insert_version (healed_version block healed)) w0)
          = (Raise e, w1).

(** The heal attempt succeeds, leaving the world [w1] before the block row
    is advanced. *)
Definition heal_passes (block : Block.t) (current_version : BlockVersion.t)
    (latest_error : ExecutionLog.t) (w : World) (w1 : World) : Prop :=
  exists healed w0 data,
    AIService.heal_block env (Block.user_prompt block)
      (ExecutionLog.error_message latest_error)
      (BlockVersion.backend_code current_version) w = (Return healed, w0)
    /\ ExecutionService.execute_block env (Block.id block)
         (Block.current_version block + 1) (AIService.backend_code healed)
         (set_db (insert_version (healed_version block healed)) w0)
       = (Return data, w1).

(** The block row is advanced to the version just run and set active. *)
Definition advanced_world (block : Block.t) (w1 : World) : World :=
  set_db (update_row (Block.id block) (with_status "active"))
    (set_db (update_row (Block.id block)
               (with_current_version (Block.current_version block + 1)))
       w1).

(** The world after a successful heal attempt that left [w1]. *)
Definition healed_world (block : Block.t) (w1 : World) : World :=
  set_db (insert_log (ExecutionLog.mk (Block.id block)
                        (Block.current_version block + 1) "heal" true None
                        (clock w1)))
    (advanced_world block w1).

Lemma heal_attempt_cases block cv le w :
  (exists e w1, heal_fails block cv le w e w1
                /\ heal_attempt env block cv le w = (Raise e, w1))
  \/ (exists w1, heal_passes block cv le w w1
                 /\ heal_attempt env block cv le w
                    = (Return tt, healed_world block w1)).
Proof.
  unfold heal_attempt, heal_fails, heal_passes. rewrite bind_run.
  destruct (AIService.heal_block env _ _ _ w) as [[healed|e] w0] eqn:Eo.
  - msimpl. fold (healed_version block healed).
    destruct (ExecutionService.execute_block env _ _ _ _)
      as [[data|e] w1] eqn:Ee.
    + right. exists w1. split; [|reflexivity]. by exists healed, w0, data.
    + left. exists e, w1. split; [|reflexivity]. right. by exists healed, w0.
  - left. exists e, w0. split; [by left | reflexivity].
Qed.

Lemma heal_fails_blocks block cv le w e w1 :
  heal_fails block cv le w e w1 ->
  blocks (db w1) = blocks (db w)
  /\ execution_logs (db w1) = execution_logs (db w).
Proof.
  intros [Ho | (healed & w0 & Ho & He)].
  - apply oracle_heal_effect in Ho as (-> & _). done.
  - apply oracle_heal_effect in Ho as (Hdb & _).
    apply execute_block_effect in He as (-> & _). simpl. by rewrite Hdb.
Qed.

Lemma heal_block_run block_id w block cv le :
  first_block (db w) block_id = Some block ->
  first_version (db w) block_id (Block.current_version block) = Some cv ->
  latest_error (db w) block_id = Some le ->
  heal_block env block_id w =
  match heal_attempt env block cv le w with
  | (Return _, w1) =>
      (Return (default block (first_block (db w1) (Block.id block))), w1)
  | (Raise e, w1) =>
      let now_block := default block (first_block (db w1) (Block.id block)) in
      let w2 :=
        set_db (insert_log (ExecutionLog.mk (Block.id block)
                              (Block.current_version now_block) "heal" false
                              (Some (exn_msg e)) (clock w1))) w1 in
      (Return (default block (first_block (db w2) (Block.id block))), w2)
  end.
Proof.
  intros Hb Hv Hl. unfold heal_block. msimpl. rewrite Hb, Hv, Hl.
  by destruct (heal_attempt env block cv le w) as [[[]|e] w1].
Qed.

Lemma first_block_same_blocks d d' block_id :
  blocks d' = blocks d -> first_block d' block_id = first_block d block_id.
Proof. unfold first_block. by intros ->. Qed.

(** The row a block has after a successful heal. *)
Definition healed_block (block : Block.t) : Block.t :=
  with_status "active"
    (with_current_version (Block.current_version block + 1) block).

Lemma first_block_advanced_world block_id block w w1 :
  first_block (db w) block_id = Some block ->
  blocks (db w1) = blocks (db w) ->
  first_block (db (advanced_world block w1)) block_id
  = Some (healed_block block).
Proof.
  intros Hb Hbl. apply first_block_Some in Hb as Hid. destruct Hid as [_ Hid].
  unfold advanced_world, set_db. cbn [db].
  rewrite !first_block_update_row by done.
  rewrite (first_block_same_blocks (db w)) by done.
  rewrite Hb. simpl. rewrite Hid.
  rewrite (bool_decide_eq_true_2 (block_id = block_id)) by done.
  simpl. rewrite Hid. by rewrite bool_decide_eq_true_2.
Qed.

Lemma first_block_advanced_world_other block_id block w1 :
  block_id <> Block.id block ->
  first_block (db (advanced_world block w1)) block_id
  = first_block (db w1) block_id.
Proof.
  intros Hne. unfold advanced_world, set_db. cbn [db].
  rewrite !first_block_update_row by done.
  destruct (first_block (db w1) block_id) as [b|] eqn:Eb; [|done].
  apply first_block_Some in Eb as [_ Hid]. simpl.
  rewrite (bool_decide_eq_false_2 (Block.id b = Block.id block)) by congruence.
  simpl. by rewrite bool_decide_eq_false_2 by congruence.
Qed.

Lemma first_block_healed_world block_id block w w1 :
  first_block (db w) block_id = Some block ->
  blocks (db w1) = blocks (db w) ->
  first_block (db (healed_world block w1)) block_id = Some (healed_block block).
Proof. apply first_block_advanced_world. Qed.

Lemma heal_passes_blocks block cv le w w1 :
  heal_passes block cv le w w1 -> blocks (db w1) = blocks (db w).
Proof.
  intros (healed & w0 & data & Ho & He).
  apply oracle_heal_effect in Ho as (Hdb & _).
  apply execute_block_effect in He as (-> & _). simpl. by rewrite Hdb.
Qed.

Lemma heal_fails_raises block cv le w e w1 :
  heal_fails block cv le w e w1 ->
  heal_attempt env block cv le w = (Raise e, w1).
Proof.
  intros Hf.
  destruct (heal_attempt_cases block cv le w)
    as [(e' & w1' & Hf' & ->) | (w1' & Hp & _)].
  - destruct Hf as [Ho|(g & w0 & Ho & He)],
             Hf' as [Ho'|(g' & w0' & Ho' & He')]; congruence.
  - destruct Hp as (g' & w0' & data & Ho' & He').
    destruct Hf as [Ho|(g & w0 & Ho & He)]; congruence.
Qed.

(** A failed heal attempt: the block is returned as it was and the failure
    is logged against the version that was, and stays, current. *)
Lemma heal_block_failure_run block_id w block cv le e w1 :
  first_block (db w) block_id = Some block ->
  first_version (db w) block_id (Block.current_version block) = Some cv ->
  latest_error (db w) block_id = Some le ->
  heal_fails block cv le w e w1 ->
  heal_block env block_id w =
  (Return block,
   set_db (insert_log (ExecutionLog.mk block_id
                         (Block.current_version block) "heal" false
                         (Some (exn_msg e)) (clock w1))) w1)
  /\ blocks (db w1) = blocks (db w).
Proof.
  intros Hb Hv Hl Hf.
  pose proof (first_block_Some _ _ _ Hb) as [_ Hid].
  pose proof (heal_fails_blocks _ _ _ _ _ _ Hf) as [Hbl _].
  rewrite (heal_block_run _ _ _ _ _ Hb Hv Hl), (heal_fails_raises _ _ _ _ _ _ Hf).
  simpl. rewrite Hid.
  rewrite (first_block_same_blocks (db w) (db w1)) by done.
  rewrite Hb. simpl. split; [|done]. do 2 f_equal.
  unfold first_block. simpl. rewrite Hbl.
  fold (first_block (db w) block_id). by rewrite Hb.
Qed.

(** [heal_block] raises only at its entry checks. *)
Lemma heal_block_raises_only_at_entry block_id w e w' :
  heal_block env block_id w = (Raise e, w') ->
  w' = w /\ exn_class e = ValueError
  /\ (first_block (db w) block_id = None
      \/ exists b, first_block (db w) block_id = Some b
           /\ (first_version (db w) block_id (Block.current_version b) = None
               \/ latest_error (db w) block_id = None)).
Proof.
  unfold heal_block. msimpl.
  destruct (first_block (db w) block_id) as [b|] eqn:Eb.
  - destruct (first_version (db w) block_id (Block.current_version b))
      as [v|] eqn:Ev.
    + destruct (latest_error (db w) block_id) as [l|] eqn:El.
      * by destruct (heal_attempt env b v l w) as [[[]|?] ?].
      * intros [= <- <-]. split; [done|]. split; [done|].
        right. exists b. split; [done|]. by right.
    + intros [= <- <-]. split; [done|]. split; [done|].
      right. exists b. split; [done|]. by left.
  - intros [= <- <-]. split; [done|]. split; [done|]. by left.
Qed.

(** C2. For a block that has a version row at [current_version] and at
    least one failure log, [heal_block] returns a block and does not raise;
    when the oracle call or the run of the healed code fails,
    [current_version] is not advanced (the block rows are those from before
    the call), a [heal] failure log is written whose version is the
    [current_version] from before the attempt, and the unchanged block is
    returned; and whenever [heal_block] does raise, it raises [ValueError]
    before changing anything, because the block, its current version row
    or its failure log is missing. *)
Theorem heal_block_never_raises block_id w block cv le :
  first_block (db w) block_id = Some block ->
  first_version (db w) block_id (Block.current_version block) = Some cv ->
  latest_error (db w) block_id = Some le ->
  (exists block' w',
     heal_block env block_id w = (Return block', w')
     /\ first_block (db w') block_id = Some block')
  /\ (forall e w1,
        heal_fails block cv le w e w1 ->
        heal_block env block_id w =
        (Return block,
         set_db (insert_log (ExecutionLog.mk block_id
                               (Block.current_version block) "heal" false
                               (Some (exn_msg e)) (clock w1))) w1)
        /\ blocks (db w1) = blocks (db w))
  /\ (forall w2 e w',
        heal_block env block_id w2 = (Raise e, w') ->
        w' = w2 /\ exn_class e = ValueError
        /\ (first_block (db w2) block_id = None
            \/ exists b, first_block (db w2) block_id = Some b
                 /\ (first_version (db w2) block_id (Block.current_version b)
                     = None
                     \/ latest_error (db w2) block_id = None))).
Proof.
  intros Hb Hv Hl.
  pose proof (first_block_Some _ _ _ Hb) as [_ Hid].
  split; [|split].
  - destruct (heal_attempt_cases block cv le w)
      as [(e & w1 & Hf & _) | (w1 & Hp & Hrun)].
    + destruct (heal_block_failure_run _ _ _ _ _ _ _ Hb Hv Hl Hf)
        as [-> Hbl].
      eexists _, _. split; [done|].
      simpl. by rewrite (first_block_same_blocks (db w)).
    + rewrite (heal_block_run _ _ _ _ _ Hb Hv Hl), Hrun.
      pose proof (first_block_healed_world _ _ _ _ Hb
                    (heal_passes_blocks _ _ _ _ _ Hp)) as Hfb.
      rewrite Hid, Hfb. simpl. eexists _, _. split; [done|]. exact Hfb.
  - intros e w1. by apply heal_block_failure_run.
  - intros w2 e w'. apply heal_block_raises_only_at_entry.
Qed.

End Healing.

(** ** The lifecycle as a step relation *)

Definition is_oracle (ev : Event) : bool :=
  match ev with
  | EvGenerate _ _ _ | EvHealOracle _ _ _ _ => true
  | _ => false
  end.

Definition is_auto_heal (ev : Event) : bool :=
  match ev with
  | EvAutoHeal _ _ => true
  | _ => false
  end.

Definition is_failure_of (block_id : Z) (l : ExecutionLog.t) : Prop :=
  ExecutionLog.block_id l = block_id /\ ExecutionLog.success l = false.

(** The moves the services make on the world.  A candidate version is
    stored and run right after the oracle's answer, and only a passing run
    promotes it ([step_promote]); an automated heal is decided right after
    the failure log is written ([step_auto_heal]). *)
Inductive step : World -> World -> Prop :=
| step_call w w' evs :
    db w' = db w -> trace w' = trace w ++ evs ->
    Forall (fun ev => is_auto_heal ev = false) evs ->
    step w w'
| step_create w w' b r evs :
    Block.id b = BlockService.next_block_id (db w) ->
    Block.current_version b = 1 ->
    BlockVersion.block_id r = Block.id b -> BlockVersion.version r = 1 ->
    db w' = BlockService.insert_version r (BlockService.insert_block b (db w)) ->
    trace w' = trace w ++ evs ->
    Forall (fun ev => is_auto_heal ev = false) evs ->
    step w w'
| step_promote w w' b r o t :
    BlockService.first_block (db w) (Block.id b) = Some b ->
    BlockVersion.block_id r = Block.id b ->
    BlockVersion.version r = Block.current_version b + 1 ->
    db w' = BlockService.insert_version r (db w) ->
    trace w' = trace w ++ [o; EvExec (Block.id b) (BlockVersion.version r) t true] ->
    is_oracle o = true ->
    step w (set_db (BlockService.update_row (Block.id b)
                      (BlockService.with_current_version
                         (BlockVersion.version r))) w')
| step_reject w w' b r evs :
    BlockService.first_block (db w) (Block.id b) = Some b ->
    BlockVersion.block_id r = Block.id b ->
    BlockVersion.version r = Block.current_version b + 1 ->
    db w' = BlockService.insert_version r (db w) ->
    trace w' = trace w ++ evs ->
    Forall (fun ev => is_auto_heal ev = false
                      /\ forall i v t, ev <> EvExec i v t true) evs ->
    step w w'
| step_status w block_id s :
    step w (set_db (BlockService.update_row block_id
                      (BlockService.with_status s)) w)
| step_layout w block_id j :
    step w (set_db (BlockService.update_row block_id
                      (BlockService.with_layout_data j)) w)
| step_log w l :
    step w (set_db (BlockService.insert_log l) w)
| step_data w r :
    step w (set_db (BlockService.insert_data r) w)
| step_auto_heal w l block_id :
    is_failure_of block_id l ->
    BlockService.recent_errors (BlockService.insert_log l (db w)) block_id
      (ExecutionLog.created_at l) <= 1 ->
    step w (record (EvAutoHeal block_id (ExecutionLog.created_at l))
              (set_db (BlockService.insert_log l) w)).

(** Worlds reached by any number of moves. *)
Definition reach : World -> World -> Prop := rtc step.

Lemma reach_refl w : reach w w.
Proof. apply rtc_refl. Qed.

Lemma reach_trans w1 w2 w3 : reach w1 w2 -> reach w2 w3 -> reach w1 w3.
Proof. apply rtc_trans. Qed.

Lemma reach_step w w' : step w w' -> reach w w'.
Proof. apply rtc_once. Qed.

Lemma reach_call w w' evs :
  db w' = db w -> trace w' = trace w ++ evs ->
  Forall (fun ev => is_auto_heal ev = false) evs -> reach w w'.
Proof. intros. apply reach_step. by eapply step_call. Qed.

(** ** Every operation is a sequence of moves *)

Section Moves.
Import BlockService.
Context `{host : PyHost} (env : Env).

Lemma execute_block_returns block_id version code w data w' :
  ExecutionService.execute_block env block_id version code w
  = (Return data, w') ->
  db w' = db w
  /\ trace w' = trace w ++ [EvExec block_id version (clock w') true].
Proof.
  intros H. apply execute_block_effect in H as (Hdb & _ & [Ht|[_ Ht]]);
    [done | discriminate].
Qed.

Lemma execute_block_raises block_id version code w e w' :
  ExecutionService.execute_block env block_id version code w = (Raise e, w') ->
  db w' = db w
  /\ exists evs, trace w' = trace w ++ evs
       /\ Forall (fun ev => is_auto_heal ev = false
                            /\ forall i v t, ev <> EvExec i v t true) evs.
Proof.
  intros H. apply execute_block_effect in H as (Hdb & _ & [Ht|[Ht _]]).
  - split; [done|]. eexists. split; [exact Ht|].
    repeat constructor. done.
  - split; [done|]. exists []. rewrite app_nil_r. split; [done|constructor].
Qed.

Lemma execute_block_reach block_id version code w :
  reach w (ExecutionService.execute_block env block_id version code w).2.
Proof.
  destruct (ExecutionService.execute_block env block_id version code w)
    as [[data|e] w'] eqn:E; simpl.
  - apply execute_block_returns in E as [Hdb Ht].
    eapply reach_call; [done..|]. by repeat constructor.
  - apply execute_block_raises in E as (Hdb & evs & Ht & Hev).
    eapply reach_call; [done..|].
    eapply Forall_impl; [exact Hev|]. by intros ev [? _].
Qed.

Lemma heal_block_reach block_id w : reach w (heal_block env block_id w).2.
Proof.
  destruct (first_block (db w) block_id) as [block|] eqn:Hb;
    [|unfold heal_block; msimpl; rewrite Hb; apply reach_refl].
  destruct (first_version (db w) block_id (Block.current_version block))
    as [cv|] eqn:Hv;
    [|unfold heal_block; msimpl; rewrite Hb, Hv; apply reach_refl].
  destruct (latest_error (db w) block_id) as [le|] eqn:Hl;
    [|unfold heal_block; msimpl; rewrite Hb, Hv, Hl; apply reach_refl].
  pose proof (first_block_Some _ _ _ Hb) as [_ Hid].
  rewrite (heal_block_run env _ _ _ _ _ Hb Hv Hl).
  destruct (heal_attempt_cases env block cv le w)
    as [(e & w1 & Hf & ->) | (w1 & Hp & ->)]; simpl.
  - eapply reach_trans; [|apply reach_step, step_log].
    destruct Hf as [Ho | (healed & w0 & Ho & He)].
    + apply oracle_heal_effect in Ho as (Hdb & _ & _ & Ht).
      eapply reach_call; [done..|]. by repeat constructor.
    + apply oracle_heal_effect in Ho as (Hdb & _ & _ & Ht).
      apply execute_block_raises in He as (Hdb' & evs & Ht' & Hev).
      apply reach_step.
      eapply (step_reject w w1 block (healed_version block healed)
                (_ :: evs)); try done.
      * by rewrite Hid.
      * rewrite Hdb'. simpl. by rewrite Hdb.
      * rewrite Ht'. simpl. rewrite Ht. by rewrite <- app_assoc.
      * constructor; [|done]. split; [done|]. discriminate.
  - destruct Hp as (healed & w0 & data & Ho & He).
    apply oracle_heal_effect in Ho as (Hdb & _ & _ & Ht).
    apply execute_block_returns in He as (Hdb' & Ht').
    unfold healed_world, advanced_world.
    eapply reach_trans; [|apply reach_step, step_log].
    eapply reach_trans; [|apply reach_step, step_status].
    apply reach_step.
    eapply (step_promote w w1 block (healed_version block healed)); try done.
    + by rewrite Hid.
    + rewrite Hdb'. simpl. by rewrite Hdb.
    + rewrite Ht'. simpl. rewrite Ht. by rewrite <- app_assoc.
    + done.
Qed.

(** The version row an update stores for the oracle's answer. *)
Definition new_version (block : Block.t) (g : AIService.GeneratedCode)
  : BlockVersion.t :=
  BlockVersion.mk (Block.id block) (Block.current_version block + 1)
    (AIService.backend_code g) (AIService.frontend_code g)
    (AIService.explanation g) "active".

(** The world after a candidate version [v] failed its run with [e]. *)
Definition rejected_world (block : Block.t) (v : Z) (e : exn) (w3 : World)
  : World :=
  set_db (insert_log (ExecutionLog.mk (Block.id block) v "fetch" false
                        (Some (exn_msg e)) (clock w3)))
    (set_db (update_row (Block.id block) (with_status "error")) w3).

Definition update_context (w : World) (block : Block.t) (user_prompt : string)
  : Context :=
  mkContext (Block.user_prompt block)
    (BlockVersion.backend_code <$>
       first_version (db w) (Block.id block) (Block.current_version block))
    user_prompt.

(** The three ways an update of an existing block ends. *)
Lemma update_block_cases block_id user_prompt w block :
  first_block (db w) block_id = Some block ->
  (exists e w1,
     AIService.generate_block_code env user_prompt
       (Some (update_context w block user_prompt)) w = (Raise e, w1)
     /\ update_block env block_id user_prompt w = (Raise e, w1))
  \/ (exists g w1 data w3 blk,
        AIService.generate_block_code env user_prompt
          (Some (update_context w block user_prompt)) w = (Return g, w1)
        /\ ExecutionService.execute_block env (Block.id block)
             (Block.current_version block + 1) (AIService.backend_code g)
             (set_db (insert_version (new_version block g)) w1)
           = (Return data, w3)
        /\ update_block env block_id user_prompt w
           = (Return blk, advanced_world block w3))
  \/ (exists g w1 e w3 blk,
        AIService.generate_block_code env user_prompt
          (Some (update_context w block user_prompt)) w = (Return g, w1)
        /\ ExecutionService.execute_block env (Block.id block)
             (Block.current_version block + 1) (AIService.backend_code g)
             (set_db (insert_version (new_version block g)) w1)
           = (Raise e, w3)
        /\ update_block env block_id user_prompt w
           = (Return blk,
              rejected_world block (Block.current_version block + 1) e w3)).
Proof.
  intros Hb. pose proof (first_block_Some _ _ _ Hb) as [_ Hid]. subst block_id.
  unfold update_block. msimpl. rewrite Hb.
  fold (update_context w block user_prompt).
  destruct (AIService.generate_block_code env _ _ w) as [[g|e] w1] eqn:Eo.
  - fold (new_version block g).
    destruct (ExecutionService.execute_block env _ _ _ _)
      as [[data|e] w3] eqn:Ee.
    + right. left. by eexists g, w1, data, w3, _.
    + right. right. by eexists g, w1, e, w3, _.
  - left. by exists e, w1.
Qed.

Lemma update_block_missing block_id user_prompt w :
  first_block (db w) block_id = None ->
  exists e, update_block env block_id user_prompt w = (Raise e, w).
Proof. intros Hb. unfold update_block. msimpl. rewrite Hb. by eexists. Qed.

Lemma update_block_reach block_id user_prompt w :
  reach w (update_block env block_id user_prompt w).2.
Proof.
  destruct (first_block (db w) block_id) as [block|] eqn:Hb.
  2:{ destruct (update_block_missing _ user_prompt _ Hb) as [e ->].
      apply reach_refl. }
  destruct (update_block_cases _ user_prompt _ _ Hb)
    as [(e & w1 & Ho & ->)
       |[(g & w1 & data & w3 & blk & Ho & He & ->)
        |(g & w1 & e & w3 & blk & Ho & He & ->)]]; simpl.
  - apply generate_block_code_effect in Ho as (Hdb & _ & _ & Ht).
    eapply reach_call; [done..|]. by repeat constructor.
  - apply generate_block_code_effect in Ho as (Hdb & _ & _ & Ht).
    apply execute_block_returns in He as (Hdb' & Ht').
    unfold advanced_world.
    eapply reach_trans; [|apply reach_step, step_status].
    apply reach_step.
    eapply (step_promote w w3 block (new_version block g)); try done.
    + pose proof (first_block_Some _ _ _ Hb) as [_ Hid]. by rewrite Hid.
    + rewrite Hdb'. simpl. by rewrite Hdb.
    + rewrite Ht'. simpl. rewrite Ht. by rewrite <- app_assoc.
    + done.
  - apply generate_block_code_effect in Ho as (Hdb & _ & _ & Ht).
    apply execute_block_raises in He as (Hdb' & evs & Ht' & Hev).
    unfold rejected_world.
    eapply reach_trans; [|apply reach_step, step_log].
    eapply reach_trans; [|apply reach_step, step_status].
    apply reach_step.
    eapply (step_reject w w3 block (new_version block g) (_ :: evs));
      try done.
    + pose proof (first_block_Some _ _ _ Hb) as [_ Hid]. by rewrite Hid.
    + rewrite Hdb'. simpl. by rewrite Hdb.
    + rewrite Ht'. simpl. rewrite Ht. by rewrite <- app_assoc.
    + constructor; [|done]. split; [done|]. discriminate.
Qed.

(** The row of a new block and of its first version. *)
Definition created_block (w : World) (user_prompt : string)
    (title : option string) (refresh_interval : Z) : Block.t :=
  Block.mk (next_block_id (db w)) user_prompt (title_or title user_prompt) 1
    refresh_interval default_layout "active".

Definition first_version_row (block : Block.t) (g : AIService.GeneratedCode)
  : BlockVersion.t :=
  BlockVersion.mk (Block.id block) 1
    (AIService.backend_code g) (AIService.frontend_code g)
    (AIService.explanation g) "active".

(** The three ways a creation ends. *)
Lemma create_block_cases user_prompt title refresh_interval w :
  (exists e w1,
     AIService.generate_block_code env user_prompt None w = (Raise e, w1)
     /\ create_block env user_prompt title refresh_interval w = (Raise e, w1))
  \/ (exists g w1 w3 blk,
        AIService.generate_block_code env user_prompt None w = (Return g, w1)
        /\ let b := created_block w1 user_prompt title refresh_interval in
           exists data,
           ExecutionService.execute_block env (Block.id b) 1
             (AIService.backend_code g)
             (set_db (insert_version (first_version_row b g))
                (set_db (insert_block b) w1))
           = (Return data, w3)
           /\ create_block env user_prompt title refresh_interval w
              = (Return blk,
                 set_db (update_row (Block.id b) (with_status "active")) w3))
  \/ (exists g w1 w3 blk,
        AIService.generate_block_code env user_prompt None w = (Return g, w1)
        /\ let b := created_block w1 user_prompt title refresh_interval in
           exists e,
           ExecutionService.execute_block env (Block.id b) 1
             (AIService.backend_code g)
             (set_db (insert_version (first_version_row b g))
                (set_db (insert_block b) w1))
           = (Raise e, w3)
           /\ create_block env user_prompt title refresh_interval w
              = (Return blk, rejected_world b 1 e w3)).
Proof.
  unfold create_block. msimpl.
  destruct (AIService.generate_block_code env _ _ w) as [[g|e] w1] eqn:Eo.
  - fold (created_block w1 user_prompt title refresh_interval).
    set (b := created_block w1 user_prompt title refresh_interval).
    fold (first_version_row b g).
    destruct (ExecutionService.execute_block env _ _ _ _)
      as [[data|e] w3] eqn:Ee.
    + right. left. eexists g, w1, w3, _. split; [done|]. by exists data.
    + right. right. eexists g, w1, w3, _. split; [done|]. by exists e.
  - left. by exists e, w1.
Qed.

Lemma create_block_reach user_prompt title refresh_interval w :
  reach w (create_block env user_prompt title refresh_interval w).2.
Proof.
  destruct (create_block_cases user_prompt title refresh_interval w)
    as [(e & w1 & Ho & ->)
       |[(g & w1 & w3 & blk & Ho & data & He & ->)
        |(g & w1 & w3 & blk & Ho & e & He & ->)]]; simpl.
  - apply generate_block_code_effect in Ho as (Hdb & _ & _ & Ht).
    eapply reach_call; [done..|]. by repeat constructor.
  - apply generate_block_code_effect in Ho as (Hdb & _ & _ & Ht).
    apply execute_block_returns in He as (Hdb' & Ht').
    eapply reach_trans; [|apply reach_step, step_status].
    apply reach_step.
    eapply (step_create w w3 (created_block w1 user_prompt title
                                refresh_interval)
              (first_version_row _ g) [_; _]); try done.
    + simpl. by rewrite Hdb.
    + rewrite Hdb'. simpl. by rewrite Hdb.
    + rewrite Ht'. simpl. rewrite Ht. by rewrite <- app_assoc.
    + by repeat constructor.
  - apply generate_block_code_effect in Ho as (Hdb & _ & _ & Ht).
    apply execute_block_raises in He as (Hdb' & evs & Ht' & Hev).
    unfold rejected_world.
    eapply reach_trans; [|apply reach_step, step_log].
    eapply reach_trans; [|apply reach_step, step_status].
    apply reach_step.
    eapply (step_create w w3 (created_block w1 user_prompt title
                                refresh_interval)
              (first_version_row _ g) (_ :: evs)); try done.
    + simpl. by rewrite Hdb.
    + rewrite Hdb'. simpl. by rewrite Hdb.
    + rewrite Ht'. simpl. rewrite Ht. by rewrite <- app_assoc.
    + constructor; [done|].
      eapply Forall_impl; [exact Hev|]. by intros ev [? _].
Qed.

Lemma delete_block_reach block_id w : reach w (delete_block block_id w).2.
Proof.
  unfold delete_block. msimpl.
  destruct (first_block (db w) block_id); simpl; [|apply reach_refl].
  apply reach_step, step_status.
Qed.

Lemma update_block_layout_reach block_id layout_data w :
  reach w (update_block_layout block_id layout_data w).2.
Proof.
  unfold update_block_layout. msimpl.
  destruct (first_block (db w) block_id); simpl; [|apply reach_refl].
  apply reach_step, step_layout.
Qed.

(** The rows a refresh writes. *)
Definition fetched_row (block : Block.t) (data : Json) (w1 : World)
  : BlockData.t :=
  BlockData.mk (Block.id block) data (clock w1)
    (Some (clock w1 + seconds (Block.refresh_interval block))).

Definition fetch_log (block : Block.t) (success : bool)
    (error_message : option string) (w1 : World) : ExecutionLog.t :=
  ExecutionLog.mk (Block.id block) (Block.current_version block) "fetch"
    success error_message (clock w1).

(** The world after a successful refresh whose run left [w1]. *)
Definition refreshed_world (block : Block.t) (data : Json) (w1 : World)
  : World :=
  set_db (insert_log (fetch_log block true None w1))
    (set_db (insert_data (fetched_row block data w1)) w1).

(** The world after the failure log of a refresh is written. *)
Definition failed_world (block : Block.t) (e : exn) (w1 : World) : World :=
  set_db (insert_log (fetch_log block false (Some (exn_msg e)) w1)) w1.

(** One activation of [refresh_block_data], on a block that has its
    current version row. *)
Lemma refresh_block_data_unfold depth block_id w block cv :
  first_block (db w) block_id = Some block ->
  first_version (db w) block_id (Block.current_version block) = Some cv ->
  refresh_block_data env (S depth) block_id w =
  match ExecutionService.execute_block env (Block.id block)
          (Block.current_version block) (BlockVersion.backend_code cv) w with
  | (Return data, w1) => (Return data, refreshed_world block data w1)
  | (Raise e, w1) =>
      let w2 := failed_world block e w1 in
      if recent_errors (db w2) block_id (clock w1) <=? 1 then
        match heal_block env block_id
                (record (EvAutoHeal block_id (clock w1)) w2) with
        | (Return _, w3) =>
            match refresh_block_data env depth block_id w3 with
            | (Return data, w4) => (Return data, w4)
            | (Raise _, w4) => (Raise e, w4)
            end
        | (Raise _, w3) => (Raise e, w3)
        end
      else (Raise e, w2)
  end.
Proof.
  intros Hb Hv. simpl. msimpl. rewrite Hb, Hv.
  destruct (ExecutionService.execute_block env _ _ _ w) as [[data|e] w1];
    [reflexivity|].
  unfold failed_world. simpl.
  destruct (recent_errors _ _ _ <=? 1); [|reflexivity].
  destruct (heal_block env block_id _) as [[blk|e'] w3]; [|reflexivity].
  by destruct (refresh_block_data env depth block_id w3) as [[data|e''] w4].
Qed.

Lemma refresh_block_data_reach depth block_id w :
  reach w (refresh_block_data env depth block_id w).2.
Proof.
  revert w. induction depth as [|depth IH]; intros w; [apply reach_refl|].
  destruct (first_block (db w) block_id) as [block|] eqn:Hb;
    [|simpl; msimpl; rewrite Hb; apply reach_refl].
  destruct (first_version (db w) block_id (Block.current_version block))
    as [cv|] eqn:Hv;
    [|simpl; msimpl; rewrite Hb, Hv; apply reach_refl].
  pose proof (first_block_Some _ _ _ Hb) as [_ Hid].
  rewrite (refresh_block_data_unfold _ _ _ _ _ Hb Hv).
  pose proof (execute_block_reach (Block.id block)
                (Block.current_version block)
                (BlockVersion.backend_code cv) w) as Hexec.
  destruct (ExecutionService.execute_block env _ _ _ w) as [[data|e] w1];
    simpl in Hexec.
  - simpl. unfold refreshed_world.
    eapply reach_trans; [exact Hexec|].
    eapply reach_trans; [apply reach_step, step_data|].
    apply reach_step, step_log.
  - cbv zeta.
    destruct (recent_errors _ _ _ <=? 1) eqn:Hrecent.
    + apply Z.leb_le in Hrecent.
      assert (reach w (record (EvAutoHeal block_id (clock w1))
                         (failed_world block e w1))) as Hheal.
      { eapply reach_trans; [exact Hexec|]. apply reach_step.
        apply (step_auto_heal w1
                 (fetch_log block false (Some (exn_msg e)) w1) block_id);
          [by split|exact Hrecent]. }
      pose proof (heal_block_reach block_id
                    (record (EvAutoHeal block_id (clock w1))
                       (failed_world block e w1))) as Hh.
      destruct (heal_block env block_id _) as [[blk|e'] w3]; simpl in Hh.
      * pose proof (IH w3) as Hn.
        destruct (refresh_block_data env depth block_id w3)
          as [[data|e''] w4]; simpl in *;
          (eapply reach_trans; [exact Hheal|]);
          (eapply reach_trans; [exact Hh|exact Hn]).
      * simpl. eapply reach_trans; [exact Hheal|exact Hh].
    + simpl. eapply reach_trans; [exact Hexec|].
      apply reach_step, step_log.
Qed.

End Moves.

Section Routes.
Context `{host : PyHost} (env : Env) (depth : nat).

Lemma refresh_block_world block_id w :
  (Api.refresh_block env depth block_id w).2
  = (BlockService.refresh_block_data env depth block_id w).2.
Proof.
  unfold Api.refresh_block. msimpl.
  destruct (BlockService.refresh_block_data env depth block_id w)
    as [[data|e] w']; [done|].
  destruct e as [c m]. by destruct c.
Qed.

(** [get_block_data] either answers from the cache and leaves the world
    as it is, or is one call of [refresh_block_data]. *)
Lemma get_block_data_cases block_id w :
  (exists cached_data,
     Api.most_recent_data (db w) block_id = Some cached_data
     /\ Api.expired cached_data (clock w) = false
     /\ Api.get_block_data env depth block_id w
        = (Return (Api.mkResponse (BlockData.data cached_data) true
                     (BlockData.fetched_at cached_data)), w))
  \/ ((Api.most_recent_data (db w) block_id = None
       \/ exists cached_data,
            Api.most_recent_data (db w) block_id = Some cached_data
            /\ Api.expired cached_data (clock w) = true)
      /\ Api.get_block_data env depth block_id w
         = match BlockService.refresh_block_data env depth block_id w with
           | (Return data, w') =>
               (Return (Api.mkResponse data false (clock w')), w')
           | (Raise e, w') => (Raise e, w')
           end).
Proof.
  unfold Api.get_block_data. msimpl.
  destruct (Api.most_recent_data (db w) block_id) as [cached_data|] eqn:Ec.
  - destruct (Api.expired cached_data (clock w)) eqn:Ex.
    + right. split; [right; by exists cached_data|].
      by destruct (BlockService.refresh_block_data env depth block_id w)
        as [[data|e] w'].
    + left. by exists cached_data.
  - right. split; [by left|].
    by destruct (BlockService.refresh_block_data env depth block_id w)
      as [[data|e] w'].
Qed.

Lemma get_block_data_reach block_id w :
  reach w (Api.get_block_data env depth block_id w).2.
Proof.
  destruct (get_block_data_cases block_id w)
    as [(c & _ & _ & ->) | [_ ->]]; [apply reach_refl|].
  pose proof (refresh_block_data_reach env depth block_id w) as H.
  by destruct (BlockService.refresh_block_data env depth block_id w)
    as [[data|e] w'].
Qed.

Lemma perform_reach op w : reach w (Api.perform env depth op w).
Proof.
  destruct op; simpl.
  - apply create_block_reach.
  - apply update_block_reach.
  - apply heal_block_reach.
  - rewrite refresh_block_world. apply refresh_block_data_reach.
  - apply get_block_data_reach.
  - apply delete_block_reach.
  - apply update_block_layout_reach.
  - apply (reach_call _ _ []); [done| |constructor].
    simpl. by rewrite app_nil_r.
Qed.

Lemma run_reach ops w : reach w (Api.run env depth ops w).
Proof.
  revert w. induction ops as [|op ops IH]; intros w; [apply reach_refl|].
  simpl. eapply reach_trans; [apply perform_reach | apply IH].
Qed.

End Routes.

(** ** What a block row can go through *)

Section Rows.
Import BlockService.

Lemma first_block_insert_block_old b d block_id b0 :
  first_block d block_id = Some b0 ->
  first_block (insert_block b d) block_id = Some b0.
Proof.
  unfold first_block, insert_block. simpl. rewrite filter_app.
  intros H. destruct (filter _ (blocks d)); [done|]. exact H.
Qed.

Lemma first_block_insert_block_ne b d block_id :
  Block.id b <> block_id ->
  first_block (insert_block b d) block_id = first_block d block_id.
Proof.
  intros Hne. unfold first_block, insert_block. simpl.
  rewrite filter_app, filter_cons_False, filter_nil, app_nil_r; done.
Qed.

Lemma next_block_id_above d b :
  b ∈ blocks d -> Block.id b < next_block_id d.
Proof.
  unfold next_block_id. induction (blocks d) as [|b0 bs IH].
  - intros H. by apply elem_of_nil in H.
  - rewrite fmap_cons. cbn [foldr].
    intros [->|H]%elem_of_cons; [lia|]. apply IH in H. lia.
Qed.

Lemma next_block_id_fresh d : first_block d (next_block_id d) = None.
Proof.
  destruct (first_block d (next_block_id d)) as [b|] eqn:E; [|done].
  apply first_block_Some in E as [Hin Hid].
  apply next_block_id_above in Hin. lia.
Qed.

Lemma first_block_insert_block_new b d :
  first_block d (Block.id b) = None ->
  first_block (insert_block b d) (Block.id b) = Some b.
Proof.
  unfold first_block, insert_block. simpl. rewrite filter_app.
  intros H. destruct (filter _ (blocks d)); [|done].
  by rewrite filter_cons_True.
Qed.

Lemma first_block_update_row_keeps d block_id id' f b :
  (forall b, Block.id (f b) = Block.id b) ->
  (forall b, Block.current_version (f b) = Block.current_version b) ->
  first_block d block_id = Some b ->
  exists b', first_block (update_row id' f d) block_id = Some b'
             /\ Block.current_version b' = Block.current_version b.
Proof.
  intros Hid Hcv Hb. rewrite first_block_update_row, Hb by done. simpl.
  eexists. split; [done|]. by case_bool_decide.
Qed.

Lemma first_block_update_row_other d block_id id' f :
  (forall b, Block.id (f b) = Block.id b) ->
  block_id <> id' ->
  first_block (update_row id' f d) block_id = first_block d block_id.
Proof.
  intros Hid Hne. rewrite first_block_update_row by done.
  destruct (first_block d block_id) as [b|] eqn:Eb; [|done].
  apply first_block_Some in Eb as [_ Hb]. simpl.
  by rewrite bool_decide_eq_false_2 by congruence.
Qed.

End Rows.

(** ** The current version moves only on a validated candidate *)

Section Moved.
Import BlockService.

(** Among the events [evs], an answer of the oracle is directly followed
    by a passing executor run of version [v] of the block. *)
Definition validated (block_id v : Z) (evs : list Event) : Prop :=
  exists pre o t post,
    evs = pre ++ [o; EvExec block_id v t true] ++ post /\ is_oracle o = true.

(** From [w] to [w'] the trace only grows, no block disappears, and a
    block whose current version differs has a higher one, validated by the
    new events. *)
Definition moved (w w' : World) : Prop :=
  exists evs,
    trace w' = trace w ++ evs
    /\ forall block_id b,
         first_block (db w) block_id = Some b ->
         exists b',
           first_block (db w') block_id = Some b'
           /\ (Block.current_version b' = Block.current_version b
               \/ (Block.current_version b < Block.current_version b'
                   /\ validated block_id (Block.current_version b') evs)).

Lemma validated_app_l block_id v evs1 evs2 :
  validated block_id v evs1 -> validated block_id v (evs1 ++ evs2).
Proof.
  intros (pre & o & t & post & -> & Ho).
  exists pre, o, t, (post ++ evs2). split; [|done].
  by rewrite <- !app_assoc.
Qed.

Lemma validated_app_r block_id v evs1 evs2 :
  validated block_id v evs2 -> validated block_id v (evs1 ++ evs2).
Proof.
  intros (pre & o & t & post & -> & Ho).
  exists (evs1 ++ pre), o, t, post. split; [|done].
  by rewrite <- !app_assoc.
Qed.

Lemma moved_refl w : moved w w.
Proof.
  exists []. split; [by rewrite app_nil_r|].
  intros block_id b Hb. exists b. auto.
Qed.

Lemma moved_trans w1 w2 w3 : moved w1 w2 -> moved w2 w3 -> moved w1 w3.
Proof.
  intros (evs1 & Ht1 & H1) (evs2 & Ht2 & H2).
  exists (evs1 ++ evs2). split; [by rewrite Ht2, Ht1, app_assoc|].
  intros block_id b Hb.
  destruct (H1 _ _ Hb) as (b1 & Hb1 & Hc1).
  destruct (H2 _ _ Hb1) as (b2 & Hb2 & Hc2).
  exists b2. split; [done|].
  destruct Hc1 as [E1|[L1 V1]], Hc2 as [E2|[L2 V2]].
  - left. congruence.
  - right. split; [lia|]. by apply validated_app_r.
  - right. rewrite E2. split; [done|]. by apply validated_app_l.
  - right. split; [lia|]. by apply validated_app_r.
Qed.

(** A move that leaves the block rows as they are. *)
Lemma moved_same_blocks w w' evs :
  blocks (db w') = blocks (db w) -> trace w' = trace w ++ evs -> moved w w'.
Proof.
  intros Hbl Ht. exists evs. split; [done|].
  intros block_id b Hb. exists b. split; [|by left].
  by rewrite (first_block_same_blocks (db w)).
Qed.

Lemma step_moved w w' : step w w' -> moved w w'.
Proof.
  destruct 1 as [w w' evs Hdb Ht _
                |w w' b r evs Hid Hcv Hrid Hrv Hdb Ht _
                |w w' b r o t Hb Hrid Hrv Hdb Ht Ho
                |w w' b r evs Hb Hrid Hrv Hdb Ht _
                |w block_id s|w block_id j|w l|w r|w l block_id Hl Hrec].
  - apply (moved_same_blocks _ _ evs); [by rewrite Hdb | done].
  - exists evs. split; [done|]. intros block_id b0 Hb0. exists b0.
    split; [|by left]. rewrite Hdb.
    rewrite first_block_insert_version.
    by apply first_block_insert_block_old.
  - exists [o; EvExec (Block.id b) (BlockVersion.version r) t true].
    split; [done|]. intros block_id b0 Hb0. simpl.
    destruct (decide (block_id = Block.id b)) as [->|Hne].
    + rewrite first_block_update_row, Hdb, first_block_insert_version, Hb
        by done.
      simpl. rewrite bool_decide_eq_true_2 by done.
      eexists. split; [done|]. right. simpl.
      assert (b0 = b) as -> by congruence.
      split; [lia|]. by exists [], o, t, [].
    + rewrite first_block_update_row_other, Hdb, first_block_insert_version
        by done.
      exists b0. auto.
  - apply (moved_same_blocks _ _ evs); [by rewrite Hdb | done].
  - exists []. split; [by rewrite app_nil_r|]. intros id b Hb. simpl.
    destruct (first_block_update_row_keeps (db w) id block_id (with_status s) b)
      as (b' & Hb' & Hcv); try done.
    exists b'. auto.
  - exists []. split; [by rewrite app_nil_r|]. intros id b Hb. simpl.
    destruct (first_block_update_row_keeps (db w) id block_id
                (with_layout_data j) b) as (b' & Hb' & Hcv); try done.
    exists b'. auto.
  - apply (moved_same_blocks _ _ []); [done | by rewrite app_nil_r].
  - apply (moved_same_blocks _ _ []); [done | by rewrite app_nil_r].
  - by apply (moved_same_blocks _ _ [EvAutoHeal block_id
                                       (ExecutionLog.created_at l)]).
Qed.

Lemma reach_moved w w' : reach w w' -> moved w w'.
Proof.
  induction 1 as [w|w w1 w2 Hs _ IH]; [apply moved_refl|].
  eapply moved_trans; [by apply step_moved | exact IH].
Qed.

End Moved.

Section CurrentVersion.
Import BlockService.
Context `{host : PyHost} (env : Env) (depth : nat).

(** The operations that call neither the oracle nor the executor. *)
Definition is_quiet (op : Api.Op) : bool :=
  match op with
  | Api.Delete _ | Api.UpdateLayout _ _ | Api.Elapse _ => true
  | _ => false
  end.

Lemma quiet_trace op w :
  is_quiet op = true -> trace (Api.perform env depth op w) = trace w.
Proof.
  destruct op; try discriminate; intros _; simpl.
  - unfold delete_block. msimpl. by destruct (first_block _ _).
  - unfold update_block_layout. msimpl. by destruct (first_block _ _).
  - done.
Qed.

Lemma not_validated_nil block_id v : ~ validated block_id v [].
Proof. intros (pre & o & t & post & H & _). by destruct pre. Qed.

Lemma first_block_rejected_world block_id block v e w w3 :
  first_block (db w) block_id = Some block ->
  blocks (db w3) = blocks (db w) ->
  first_block (db (rejected_world block v e w3)) block_id
  = Some (with_status "error" block).
Proof.
  intros Hb Hbl. pose proof (first_block_Some _ _ _ Hb) as [_ Hid].
  unfold rejected_world, set_db. cbn [db].
  rewrite first_block_insert_log, first_block_update_row by done.
  rewrite (first_block_same_blocks (db w)), Hb by done. simpl.
  by rewrite bool_decide_eq_true_2.
Qed.

Lemma update_block_error_keeps_version block_id user_prompt w b r w' b' :
  first_block (db w) block_id = Some b ->
  update_block env block_id user_prompt w = (r, w') ->
  first_block (db w') block_id = Some b' ->
  Block.status b' = "error" ->
  Block.current_version b' = Block.current_version b.
Proof.
  intros Hb Hrun Hb' Hst.
  destruct (update_block_cases env _ user_prompt _ _ Hb)
    as [(e & w1 & Ho & Hu)
       |[(g & w1 & data & w3 & blk & Ho & He & Hu)
        |(g & w1 & e & w3 & blk & Ho & He & Hu)]];
    rewrite Hu in Hrun; injection Hrun as <- <-;
    apply generate_block_code_effect in Ho as (Hdb & _).
  - rewrite Hdb in Hb'. congruence.
  - apply execute_block_returns in He as (Hdb' & _).
    rewrite (first_block_advanced_world _ _ w) in Hb'; try done.
    + injection Hb' as <-. discriminate.
    + rewrite Hdb'. simpl. by rewrite Hdb.
  - apply execute_block_raises in He as (Hdb' & _).
    rewrite (first_block_rejected_world _ _ _ _ w) in Hb'; try done.
    + by injection Hb' as <-.
    + rewrite Hdb'. simpl. by rewrite Hdb.
Qed.

Lemma heal_block_error_keeps_version block_id w b r w' b' :
  first_block (db w) block_id = Some b ->
  heal_block env block_id w = (r, w') ->
  first_block (db w') block_id = Some b' ->
  Block.status b' = "error" ->
  Block.current_version b' = Block.current_version b.
Proof.
  intros Hb Hrun Hb' Hst.
  destruct (first_version (db w) block_id (Block.current_version b))
    as [cv|] eqn:Hv.
  2:{ revert Hrun. unfold heal_block. msimpl. rewrite Hb, Hv.
      intros [= <- <-]. congruence. }
  destruct (latest_error (db w) block_id) as [le|] eqn:Hl.
  2:{ revert Hrun. unfold heal_block. msimpl. rewrite Hb, Hv, Hl.
      intros [= <- <-]. congruence. }
  rewrite (heal_block_run env _ _ _ _ _ Hb Hv Hl) in Hrun.
  destruct (heal_attempt_cases env b cv le w)
    as [(e & w1 & Hf & Ha) | (w1 & Hp & Ha)];
    rewrite Ha in Hrun; simpl in Hrun; injection Hrun as <- <-.
  - apply heal_fails_blocks in Hf as [Hbl _].
    rewrite (first_block_same_blocks (db w)) in Hb' by done. congruence.
  - apply heal_passes_blocks in Hp.
    rewrite (first_block_healed_world _ _ w) in Hb' by done.
    injection Hb' as <-. discriminate.
Qed.

(** C3. Over any sequence of operations the trace only grows and no block
    disappears; a block whose [current_version] differs afterwards has a
    higher one, and the new part of the trace holds an answer of the
    oracle directly followed by a passing executor run of exactly that
    version of that block, which is what Update and Heal do with their
    candidate; operations that run nothing (Delete, UpdateLayout, the
    passing of time) leave every [current_version] as it is; and whenever
    Update or Heal leaves the block in status [error], its
    [current_version] is the one from before the call. *)
Theorem current_version_moves_only_on_success :
  (forall ops w block_id b,
     first_block (db w) block_id = Some b ->
     exists b' evs,
       first_block (db (Api.run env depth ops w)) block_id = Some b'
       /\ trace (Api.run env depth ops w) = trace w ++ evs
       /\ (Block.current_version b' <> Block.current_version b ->
           Block.current_version b < Block.current_version b'
           /\ validated block_id (Block.current_version b') evs))
  /\ (forall op w block_id b,
        is_quiet op = true ->
        first_block (db w) block_id = Some b ->
        exists b',
          first_block (db (Api.perform env depth op w)) block_id = Some b'
          /\ Block.current_version b' = Block.current_version b)
  /\ (forall block_id user_prompt w b r w' b',
        first_block (db w) block_id = Some b ->
        update_block env block_id user_prompt w = (r, w') ->
        first_block (db w') block_id = Some b' ->
        Block.status b' = "error" ->
        Block.current_version b' = Block.current_version b)
  /\ (forall block_id w b r w' b',
        first_block (db w) block_id = Some b ->
        heal_block env block_id w = (r, w') ->
        first_block (db w') block_id = Some b' ->
        Block.status b' = "error" ->
        Block.current_version b' = Block.current_version b).
Proof.
  split; [|split; [|split]].
  - intros ops w block_id b Hb.
    destruct (reach_moved _ _ (run_reach env depth ops w))
      as (evs & Ht & Hmv).
    destruct (Hmv _ _ Hb) as (b' & Hb' & Hc).
    exists b', evs. split; [done|]. split; [done|].
    intros Hne. by destruct Hc as [E|Hc].
  - intros op w block_id b Hq Hb.
    destruct (reach_moved _ _ (perform_reach env depth op w))
      as (evs & Ht & Hmv).
    destruct (Hmv _ _ Hb) as (b' & Hb' & Hc).
    exists b'. split; [done|]. destruct Hc as [E|[_ Hv]]; [done|].
    rewrite (quiet_trace _ _ Hq) in Ht.
    assert (evs = []) as ->.
    { apply (f_equal List.length) in Ht. rewrite length_app in Ht.
      destruct evs; [done|]. simpl in Ht. lia. }
    by apply not_validated_nil in Hv.
  - apply update_block_error_keeps_version.
  - apply heal_block_error_keeps_version.
Qed.

End CurrentVersion.

(** ** Version numbers *)

Section Numbering.
Import BlockService.

(** The version numbers of a block's rows, in the order of insertion. *)
Definition versions_of (d : DB) (block_id : Z) : list Z :=
  BlockVersion.version <$>
    filter (fun r => BlockVersion.block_id r = block_id) (block_versions d).

(** Each number is the one before it or one more. *)
Definition climbs (vs : list Z) : Prop :=
  forall i x y, vs !! i = Some x -> vs !! S i = Some y -> y = x \/ y = x + 1.

(** The numbering invariant of the version store: rows belong to stored
    blocks; a stored block has rows, the last of them numbered
    [current_version] or one more; the first row is numbered 1; and the
    numbers climb by steps of at most one. *)
Definition numbered (d : DB) : Prop :=
  forall block_id,
    (first_block d block_id = None -> versions_of d block_id = [])
    /\ (forall b, first_block d block_id = Some b ->
          exists x, last (versions_of d block_id) = Some x
                    /\ (x = Block.current_version b
                        \/ x = Block.current_version b + 1))
    /\ (forall x, head (versions_of d block_id) = Some x -> x = 1)
    /\ climbs (versions_of d block_id).

Lemma versions_of_insert_version r d block_id :
  versions_of (insert_version r d) block_id
  = versions_of d block_id
    ++ (if decide (BlockVersion.block_id r = block_id)
        then [BlockVersion.version r] else []).
Proof.
  unfold versions_of, insert_version. simpl.
  rewrite filter_app, fmap_app. f_equal.
  rewrite filter_cons, filter_nil. by case_decide.
Qed.

Lemma climbs_snoc vs x y :
  last vs = Some x -> (y = x \/ y = x + 1) -> climbs vs -> climbs (vs ++ [y]).
Proof.
  intros Hlast Hy Hc i a b Ha Hb.
  destruct (decide (S i < List.length vs)%nat) as [Hlt|Hge].
  - rewrite lookup_app_l in Ha by lia. rewrite lookup_app_l in Hb by lia.
    by eapply Hc.
  - assert (S i = List.length vs) as Hi.
    { apply lookup_lt_Some in Hb. rewrite length_app in Hb. simpl in Hb. lia. }
    rewrite lookup_app_l in Ha by lia.
    rewrite lookup_app_r in Hb by lia.
    rewrite Hi, Nat.sub_diag in Hb. simpl in Hb. injection Hb as <-.
    rewrite last_lookup in Hlast.
    assert (Init.Nat.pred (List.length vs) = i) as Hp by lia.
    rewrite Hp in Hlast. congruence.
Qed.

Lemma head_snoc_nonempty {A} (vs : list A) x y :
  last vs = Some x -> head (vs ++ [y]) = head vs.
Proof. by destruct vs. Qed.

Lemma numbered_empty : numbered empty_db.
Proof.
  intros block_id. repeat split; done.
Qed.

(** A change of the database that keeps, for every block, the rows of
    its versions and its [current_version]. *)
Lemma numbered_same d d' :
  (forall block_id, versions_of d' block_id = versions_of d block_id) ->
  (forall block_id,
     match first_block d block_id, first_block d' block_id with
     | Some b, Some b' => Block.current_version b' = Block.current_version b
     | None, None => True
     | _, _ => False
     end) ->
  numbered d -> numbered d'.
Proof.
  intros Hvs Hbl Hn block_id. specialize (Hbl block_id).
  destruct (Hn block_id) as (H1 & H2 & H3 & H4). rewrite Hvs.
  destruct (first_block d block_id) as [b|],
           (first_block d' block_id) as [b'|]; try done.
  repeat split; try done. intros b0 [= <-].
  destruct (H2 b eq_refl) as (x & Hx & Hc). exists x. split; [done|].
  by rewrite Hbl.
Qed.

Lemma numbered_update_row d block_id f :
  (forall b, Block.id (f b) = Block.id b) ->
  (forall b, Block.current_version (f b) = Block.current_version b) ->
  numbered d -> numbered (update_row block_id f d).
Proof.
  intros Hid Hcv. apply numbered_same; [done|].
  intros id. rewrite first_block_update_row by done.
  destruct (first_block d id) as [b|]; simpl; [|done].
  by case_bool_decide.
Qed.

Lemma numbered_same_rows d d' :
  blocks d' = blocks d -> block_versions d' = block_versions d ->
  numbered d -> numbered d'.
Proof.
  intros Hbl Hvs. apply numbered_same.
  - intros id. unfold versions_of. by rewrite Hvs.
  - intros id. rewrite (first_block_same_blocks d d') by done.
    by destruct (first_block d id).
Qed.

(** Storing a candidate numbered [current_version + 1]. *)
Lemma numbered_candidate d b r :
  first_block d (Block.id b) = Some b ->
  BlockVersion.block_id r = Block.id b ->
  BlockVersion.version r = Block.current_version b + 1 ->
  numbered d -> numbered (insert_version r d).
Proof.
  intros Hb Hrid Hrv Hn block_id.
  rewrite versions_of_insert_version, first_block_insert_version.
  destruct (Hn block_id) as (H1 & H2 & H3 & H4).
  case_decide as Hd; [|rewrite app_nil_r; done].
  assert (block_id = Block.id b) as -> by congruence.
  destruct (H2 b Hb) as (x & Hx & Hc).
  split; [by rewrite Hb|]. split; [|split].
  - intros b0 Hb0. assert (b0 = b) as -> by congruence.
    exists (BlockVersion.version r). rewrite last_snoc. auto.
  - rewrite (head_snoc_nonempty _ x) by done. exact H3.
  - apply (climbs_snoc _ x); [done| lia |done].
Qed.

(** Promoting the candidate just stored. *)
Lemma numbered_promote d b r :
  first_block d (Block.id b) = Some b ->
  BlockVersion.block_id r = Block.id b ->
  BlockVersion.version r = Block.current_version b + 1 ->
  numbered d ->
  numbered (update_row (Block.id b)
              (with_current_version (BlockVersion.version r))
              (insert_version r d)).
Proof.
  intros Hb Hrid Hrv Hn.
  pose proof (numbered_candidate d b r Hb Hrid Hrv Hn) as Hn'.
  intros block_id. destruct (Hn' block_id) as (H1 & H2 & H3 & H4).
  rewrite first_block_update_row by done.
  change (versions_of (update_row _ _ ?d) block_id)
    with (versions_of d block_id).
  rewrite first_block_insert_version in *.
  split; [|split; [|done]].
  - intros Hnone. apply H1. by destruct (first_block d block_id).
  - intros b0 Hb0. destruct (first_block d block_id) as [b1|] eqn:E1; [|done].
    simpl in Hb0. injection Hb0 as <-.
    case_bool_decide as Hd.
    + pose proof (first_block_Some _ _ _ E1) as [_ Hid1].
      assert (block_id = Block.id b) as -> by congruence.
      rewrite versions_of_insert_version, decide_True by done.
      exists (BlockVersion.version r). rewrite last_snoc. simpl. auto.
    + by apply H2.
Qed.

Lemma numbered_create d b r :
  Block.id b = next_block_id d ->
  Block.current_version b = 1 ->
  BlockVersion.block_id r = Block.id b ->
  BlockVersion.version r = 1 ->
  numbered d -> numbered (insert_version r (insert_block b d)).
Proof.
  intros Hid Hcv Hrid Hrv Hn block_id.
  rewrite versions_of_insert_version, first_block_insert_version.
  change (versions_of (insert_block b d) block_id)
    with (versions_of d block_id).
  destruct (Hn block_id) as (H1 & H2 & H3 & H4).
  pose proof (next_block_id_fresh d) as Hfresh. rewrite <- Hid in Hfresh.
  case_decide as Hd.
  - assert (block_id = Block.id b) as -> by congruence.
    rewrite first_block_insert_block_new by done.
    rewrite (H1 Hfresh). simpl. repeat split; try done.
    + intros b0 [= <-]. exists (BlockVersion.version r).
      split; [done|]. left. congruence.
    + intros x [= <-]. done.
  - rewrite first_block_insert_block_ne, app_nil_r by congruence. done.
Qed.

Lemma step_numbered w w' : step w w' -> numbered (db w) -> numbered (db w').
Proof.
  destruct 1 as [w w' evs Hdb Ht _
                |w w' b r evs Hid Hcv Hrid Hrv Hdb Ht _
                |w w' b r o t Hb Hrid Hrv Hdb Ht Ho
                |w w' b r evs Hb Hrid Hrv Hdb Ht _
                |w block_id s|w block_id j|w l|w r|w l block_id Hl Hrec];
    intros Hn; simpl.
  - by rewrite Hdb.
  - rewrite Hdb. by apply numbered_create.
  - rewrite Hdb. by apply numbered_promote.
  - rewrite Hdb. by apply (numbered_candidate _ b).
  - by apply numbered_update_row.
  - by apply numbered_update_row.
  - by apply (numbered_same_rows (db w)).
  - by apply (numbered_same_rows (db w)).
  - by apply (numbered_same_rows (db w)).
Qed.

Lemma reach_numbered w w' : reach w w' -> numbered (db w) -> numbered (db w').
Proof.
  induction 1 as [w|w w1 w2 Hs _ IH]; [done|].
  intros Hn. apply IH. by apply (step_numbered w).
Qed.

(** Numbers that climb never decrease. *)
Lemma climbs_monotone vs i j x y :
  climbs vs -> (i <= j)%nat -> vs !! i = Some x -> vs !! j = Some y -> x <= y.
Proof.
  intros Hc Hij Hx. revert y. induction Hij as [|j Hij IH]; intros y Hy.
  - assert (x = y) by congruence. lia.
  - destruct (vs !! j) as [z|] eqn:Ez.
    + specialize (IH z eq_refl). destruct (Hc j z y Ez Hy); lia.
    + apply lookup_ge_None in Ez. apply lookup_lt_Some in Hy. lia.
Qed.

End Numbering.

Section NumberingOfRuns.
Import BlockService.
Context `{host : PyHost} (env : Env) (depth : nat).

Lemma update_block_stores_candidate block_id user_prompt w b g w1 :
  first_block (db w) block_id = Some b ->
  AIService.generate_block_code env user_prompt
    (Some (update_context w b user_prompt)) w = (Return g, w1) ->
  block_versions (db (update_block env block_id user_prompt w).2)
  = block_versions (db w) ++ [new_version b g].
Proof.
  intros Hb Hg.
  destruct (update_block_cases env _ user_prompt _ _ Hb)
    as [(e & w1' & Ho & Hu)
       |[(g' & w1' & data & w3 & blk & Ho & He & Hu)
        |(g' & w1' & e & w3 & blk & Ho & He & Hu)]];
    rewrite Hu; rewrite Ho in Hg; try discriminate;
    injection Hg as -> ->; simpl;
    apply generate_block_code_effect in Ho as (Hdb & _).
  - apply execute_block_returns in He as (-> & _). simpl. by rewrite Hdb.
  - apply execute_block_raises in He as (-> & _). simpl. by rewrite Hdb.
Qed.

Lemma heal_block_stores_candidate block_id w b cv le healed w0 :
  first_block (db w) block_id = Some b ->
  first_version (db w) block_id (Block.current_version b) = Some cv ->
  latest_error (db w) block_id = Some le ->
  AIService.heal_block env (Block.user_prompt b)
    (ExecutionLog.error_message le) (BlockVersion.backend_code cv) w
  = (Return healed, w0) ->
  block_versions (db (heal_block env block_id w).2)
  = block_versions (db w) ++ [healed_version b healed].
Proof.
  intros Hb Hv Hl Ho.
  rewrite (heal_block_run env _ _ _ _ _ Hb Hv Hl).
  destruct (heal_attempt_cases env b cv le w)
    as [(e & w1 & Hf & ->) | (w1 & Hp & ->)]; simpl.
  - destruct Hf as [Ho' | (healed' & w0' & Ho' & He)]; [congruence|].
    rewrite Ho in Ho'. injection Ho' as <- <-.
    apply oracle_heal_effect in Ho as (Hdb & _).
    apply execute_block_raises in He as (-> & _). simpl. by rewrite Hdb.
  - destruct Hp as (healed' & w0' & data & Ho' & He).
    rewrite Ho in Ho'. injection Ho' as <- <-.
    apply oracle_heal_effect in Ho as (Hdb & _).
    apply execute_block_returns in He as (-> & _). simpl. by rewrite Hdb.
Qed.

Lemma create_block_stores_first_version user_prompt title refresh_interval
    w g w1 :
  AIService.generate_block_code env user_prompt None w = (Return g, w1) ->
  let b := created_block w user_prompt title refresh_interval in
  block_versions (db (create_block env user_prompt title refresh_interval w).2)
  = block_versions (db w) ++ [first_version_row b g].
Proof.
  intros Hg b.
  destruct (create_block_cases env user_prompt title refresh_interval w)
    as [(e & w1' & Ho & Hu)
       |[(g' & w1' & w3 & blk & Ho & data & He & Hu)
        |(g' & w1' & w3 & blk & Ho & e & He & Hu)]];
    rewrite Hu; rewrite Ho in Hg; try discriminate;
    injection Hg as -> ->; simpl;
    apply generate_block_code_effect in Ho as (Hdb & _).
  - apply execute_block_returns in He as (-> & _). simpl.
    unfold b, created_block. by rewrite Hdb.
  - apply execute_block_raises in He as (-> & _). simpl.
    unfold b, created_block. by rewrite Hdb.
Qed.

(** C4, as the code has it. The first version row of a new block is
    numbered 1, and the row stored by an Update or a Heal is numbered
    [current_version + 1]; so in every state reached from the empty
    database each block has version rows, the first numbered 1, each
    number being the one before it or one more (after a failed candidate
    [current_version] has not moved and the next candidate takes the same
    number again), and the numbers never decrease. *)
Theorem version_numbers_climb_from_one :
  (forall ops block_id b,
     let d := db (Api.run env depth ops initial_world) in
     first_block d block_id = Some b ->
     head (versions_of d block_id) = Some 1
     /\ climbs (versions_of d block_id)
     /\ (forall i j x y,
           (i <= j)%nat ->
           versions_of d block_id !! i = Some x ->
           versions_of d block_id !! j = Some y -> x <= y)
     /\ exists x, last (versions_of d block_id) = Some x
                  /\ (x = Block.current_version b
                      \/ x = Block.current_version b + 1))
  /\ (forall user_prompt title refresh_interval w g w1,
        AIService.generate_block_code env user_prompt None w = (Return g, w1) ->
        exists r,
          block_versions
            (db (create_block env user_prompt title refresh_interval w).2)
          = block_versions (db w) ++ [r]
          /\ BlockVersion.block_id r = next_block_id (db w)
          /\ BlockVersion.version r = 1)
  /\ (forall block_id user_prompt w b g w1,
        first_block (db w) block_id = Some b ->
        AIService.generate_block_code env user_prompt
          (Some (update_context w b user_prompt)) w = (Return g, w1) ->
        exists r,
          block_versions (db (update_block env block_id user_prompt w).2)
          = block_versions (db w) ++ [r]
          /\ BlockVersion.block_id r = block_id
          /\ BlockVersion.version r = Block.current_version b + 1)
  /\ (forall block_id w b cv le healed w0,
        first_block (db w) block_id = Some b ->
        first_version (db w) block_id (Block.current_version b) = Some cv ->
        latest_error (db w) block_id = Some le ->
        AIService.heal_block env (Block.user_prompt b)
          (ExecutionLog.error_message le) (BlockVersion.backend_code cv) w
        = (Return healed, w0) ->
        exists r,
          block_versions (db (heal_block env block_id w).2)
          = block_versions (db w) ++ [r]
          /\ BlockVersion.block_id r = block_id
          /\ BlockVersion.version r = Block.current_version b + 1).
Proof.
  split; [|split; [|split]].
  - intros ops block_id b d Hb.
    assert (numbered d) as Hn.
    { apply (reach_numbered initial_world); [apply run_reach|].
      apply numbered_empty. }
    destruct (Hn block_id) as (_ & H2 & H3 & H4).
    destruct (H2 b Hb) as (x & Hx & Hc).
    split; [|split; [done|split]].
    + destruct (versions_of d block_id) as [|h vs] eqn:E; [done|].
      simpl. f_equal. by apply H3.
    + intros i j x' y' Hij Hx' Hy'.
      by apply (climbs_monotone (versions_of d block_id) i j).
    + by exists x.
  - intros user_prompt title refresh_interval w g w1 Hg.
    eexists. split; [by apply (create_block_stores_first_version _ _ _ _ g w1)|].
    done.
  - intros block_id user_prompt w b g w1 Hb Hg.
    eexists. split; [by apply (update_block_stores_candidate _ _ _ b g w1)|].
    split; [|done]. by apply first_block_Some in Hb as [_ ?].
  - intros block_id w b cv le healed w0 Hb Hv Hl Ho.
    eexists.
    split; [by apply (heal_block_stores_candidate _ _ b cv le healed w0)|].
    split; [|done]. by apply first_block_Some in Hb as [_ ?].
Qed.

End NumberingOfRuns.

(** ** The healing throttle *)

Section Throttle.
Import BlockService.

(** Two automated heals of one block are at least an hour apart. *)
Definition sparse (tr : list Event) : Prop :=
  forall i j block_id t1 t2,
    (i < j)%nat ->
    tr !! i = Some (EvAutoHeal block_id t1) ->
    tr !! j = Some (EvAutoHeal block_id t2) ->
    t1 + HOUR <= t2.

(** Every automated heal was decided on a failure log of its instant. *)
Definition backed (w : World) : Prop :=
  forall block_id t,
    EvAutoHeal block_id t ∈ trace w ->
    exists l, l ∈ execution_logs (db w)
              /\ is_failure_of block_id l /\ ExecutionLog.created_at l = t.

Definition throttled (w : World) : Prop := sparse (trace w) /\ backed w.

(** The failure logs the throttle counts. *)
Definition counted (block_id now : Z) (l : ExecutionLog.t) : Prop :=
  ExecutionLog.block_id l = block_id
  /\ ExecutionLog.success l = false
  /\ now - HOUR < ExecutionLog.created_at l.

Lemma recent_errors_insert_log l d block_id now :
  recent_errors (insert_log l d) block_id now
  = recent_errors d block_id now
    + (if decide (counted block_id now l) then 1 else 0).
Proof.
  unfold recent_errors, insert_log, counted. simpl.
  rewrite filter_app, length_app, filter_cons, filter_nil.
  case_decide; simpl; lia.
Qed.

Lemma recent_errors_nonneg d block_id now : 0 <= recent_errors d block_id now.
Proof. unfold recent_errors. lia. Qed.

Lemma recent_errors_zero d block_id now l :
  recent_errors d block_id now <= 0 ->
  l ∈ execution_logs d -> ~ counted block_id now l.
Proof.
  unfold recent_errors, counted. intros Hz Hin Hc.
  assert (l ∈ filter (fun l => ExecutionLog.block_id l = block_id
                               /\ ExecutionLog.success l = false
                               /\ now - HOUR < ExecutionLog.created_at l)
                     (execution_logs d)) as Hf
    by (by apply list_elem_of_filter).
  destruct (filter _ (execution_logs d)); [by apply elem_of_nil in Hf|].
  simpl in Hz. lia.
Qed.

Lemma lookup_app_quiet (tr evs : list Event) i block_id t :
  Forall (fun ev => is_auto_heal ev = false) evs ->
  (tr ++ evs) !! i = Some (EvAutoHeal block_id t) ->
  tr !! i = Some (EvAutoHeal block_id t).
Proof.
  intros Hq Hl. apply lookup_app_Some in Hl as [Hl|[_ Hl]]; [done|].
  rewrite Forall_forall in Hq.
  apply list_elem_of_lookup_2, Hq in Hl. discriminate.
Qed.

Lemma sparse_app_quiet tr evs :
  Forall (fun ev => is_auto_heal ev = false) evs ->
  sparse tr -> sparse (tr ++ evs).
Proof.
  intros Hq Hs i j block_id t1 t2 Hij Hi Hj.
  apply (lookup_app_quiet _ _ _ _ _ Hq) in Hi.
  apply (lookup_app_quiet _ _ _ _ _ Hq) in Hj.
  exact (Hs i j block_id t1 t2 Hij Hi Hj).
Qed.

(** A move that emits no automated heal and drops no log. *)
Lemma throttled_quiet w w' evs :
  trace w' = trace w ++ evs ->
  Forall (fun ev => is_auto_heal ev = false) evs ->
  (forall l, l ∈ execution_logs (db w) -> l ∈ execution_logs (db w')) ->
  throttled w -> throttled w'.
Proof.
  intros Ht Hq Hlogs [Hs Hb]. split.
  - rewrite Ht. by apply sparse_app_quiet.
  - intros block_id t Hin. rewrite Ht in Hin.
    apply elem_of_app in Hin as [Hin|Hin].
    + destruct (Hb _ _ Hin) as (l & Hl & Hf & Hc). exists l. auto.
    + rewrite Forall_forall in Hq. apply Hq in Hin. discriminate.
Qed.

Lemma HOUR_pos : 0 < HOUR.
Proof. done. Qed.

Lemma throttled_auto_heal w l block_id :
  is_failure_of block_id l ->
  recent_errors (insert_log l (db w)) block_id (ExecutionLog.created_at l) <= 1 ->
  throttled w ->
  throttled (record (EvAutoHeal block_id (ExecutionLog.created_at l))
               (set_db (insert_log l) w)).
Proof.
  intros Hl Hrec [Hs Hb].
  pose proof HOUR_pos as Hpos.
  rewrite recent_errors_insert_log in Hrec.
  rewrite decide_True in Hrec
    by (destruct Hl; unfold counted; repeat split; try done; lia).
  split.
  - simpl. intros i j id t1 t2 Hij Hi Hj.
    apply lookup_app_Some in Hj as [Hj|[Hge Hj]].
    + apply lookup_lt_Some in Hj as Hlt.
      rewrite lookup_app_l in Hi by lia. exact (Hs i j id t1 t2 Hij Hi Hj).
    + apply list_lookup_singleton_Some in Hj as [Hz [= <- <-]].
      rewrite lookup_app_l in Hi by lia.
      apply list_elem_of_lookup_2 in Hi.
      destruct (Hb _ _ Hi) as (l1 & Hin1 & [Hid1 Hsu1] & Hc1).
      assert (~ counted block_id (ExecutionLog.created_at l) l1) as Hnot.
      { apply (recent_errors_zero (db w)); [lia | done]. }
      unfold counted in Hnot.
      destruct (decide (ExecutionLog.created_at l - HOUR
                        < ExecutionLog.created_at l1)); [|lia].
      exfalso. by apply Hnot.
  - simpl. intros id t Hin. apply elem_of_app in Hin as [Hin|Hin].
    + destruct (Hb _ _ Hin) as (l1 & Hl1 & Hf & Hc). exists l1.
      split; [|done]. simpl. apply elem_of_app. by left.
    + apply list_elem_of_singleton in Hin as [= -> ->]. exists l.
      split; [|done]. simpl. apply elem_of_app. right.
      by apply list_elem_of_singleton.
Qed.

Lemma step_throttled w w' : step w w' -> throttled w -> throttled w'.
Proof.
  destruct 1 as [w w' evs Hdb Ht Hq
                |w w' b r evs Hid Hcv Hrid Hrv Hdb Ht Hq
                |w w' b r o t Hb Hrid Hrv Hdb Ht Ho
                |w w' b r evs Hb Hrid Hrv Hdb Ht Hq
                |w block_id s|w block_id j|w l|w r|w l block_id Hl Hrec].
  - apply (throttled_quiet _ _ evs); [done..|]. by rewrite Hdb.
  - apply (throttled_quiet _ _ evs); [done..|]. by rewrite Hdb.
  - apply (throttled_quiet _ _ [o; EvExec (Block.id b)
                                     (BlockVersion.version r) t true]);
      [done| |simpl; by rewrite Hdb].
    repeat constructor. by destruct o.
  - apply (throttled_quiet _ _ evs); [done| |by rewrite Hdb].
    eapply Forall_impl; [exact Hq|]. by intros ev [? _].
  - apply (throttled_quiet _ _ []); [simpl; by rewrite app_nil_r|done..].
  - apply (throttled_quiet _ _ []); [simpl; by rewrite app_nil_r|done..].
  - apply (throttled_quiet _ _ []); [simpl; by rewrite app_nil_r|done|].
    simpl. intros l0 Hl0. apply elem_of_app. by left.
  - apply (throttled_quiet _ _ []); [simpl; by rewrite app_nil_r|done..].
  - by apply throttled_auto_heal.
Qed.

Lemma reach_throttled w w' : reach w w' -> throttled w -> throttled w'.
Proof.
  induction 1 as [w|w w1 w2 Hs _ IH]; [done|].
  intros Hn. apply IH. by apply (step_throttled w).
Qed.

Lemma throttled_initial : throttled initial_world.
Proof.
  split.
  - intros i j block_id t1 t2 _ Hi. done.
  - intros block_id t Hin. by apply elem_of_nil in Hin.
Qed.

End Throttle.

(** ** One refresh that fails *)

Section FailingRefresh.
Import BlockService.
Context `{host : PyHost} (env : Env).

Lemma first_desc_acc {A} (key : A -> Z) (l : list A) (a : A) :
  is_Some (fold_left
    (fun best x =>
       match best with
       | None => Some x
       | Some b => if key b <? key x then Some x else Some b
       end) l (Some a)).
Proof.
  revert a. induction l as [|x l IH]; intros a; simpl; [by eexists|].
  destruct (key a <? key x); apply IH.
Qed.

Lemma first_desc_is_Some {A} (key : A -> Z) (l : list A) :
  l <> [] -> is_Some (first_desc key l).
Proof.
  unfold first_desc. destruct l as [|x l]; [done|]. intros _. simpl.
  apply first_desc_acc.
Qed.

Lemma latest_error_after_failure d l block_id :
  is_failure_of block_id l -> is_Some (latest_error (insert_log l d) block_id).
Proof.
  intros [Hid Hs]. unfold latest_error. apply first_desc_is_Some.
  unfold failures_of, insert_log. simpl. rewrite filter_app.
  rewrite (filter_cons_True _ l) by done.
  by destruct (filter _ (execution_logs d)).
Qed.

Lemma first_version_insert_log l d block_id v :
  first_version (insert_log l d) block_id v = first_version d block_id v.
Proof. reflexivity. Qed.

Lemma first_version_more d d' block_id v extra :
  block_versions d' = block_versions d ++ extra ->
  is_Some (first_version d block_id v) ->
  first_version d' block_id v = first_version d block_id v.
Proof.
  unfold first_version. intros -> [r Hr]. rewrite filter_app.
  by destruct (filter _ (block_versions d)).
Qed.

Lemma first_version_stored d block_id v r :
  r ∈ block_versions d ->
  BlockVersion.block_id r = block_id -> BlockVersion.version r = v ->
  is_Some (first_version d block_id v).
Proof.
  intros Hin Hid Hv. unfold first_version.
  assert (r ∈ filter (fun r => BlockVersion.block_id r = block_id
                               /\ BlockVersion.version r = v)
                     (block_versions d)) as Hf
    by (by apply list_elem_of_filter).
  destruct (filter _ (block_versions d)); [by apply elem_of_nil in Hf|].
  by eexists.
Qed.

(** What a heal leaves behind, when its preconditions hold: the block is
    still there with a row for its current version, no log is lost, and
    the heal took at most the oracle's answer time plus one timeout. *)
Lemma heal_block_after block_id w block cv le :
  first_block (db w) block_id = Some block ->
  first_version (db w) block_id (Block.current_version block) = Some cv ->
  latest_error (db w) block_id = Some le ->
  exists blk w',
    heal_block env block_id w = (Return blk, w')
    /\ first_block (db w') block_id = Some blk
    /\ is_Some (first_version (db w') block_id (Block.current_version blk))
    /\ (exists extra,
          execution_logs (db w') = execution_logs (db w) ++ extra)
    /\ clock w' <= clock w + took_of (oracle env (calls w))
                   + ExecutionService.TIMEOUT.
Proof.
  intros Hb Hv Hl. pose proof (first_block_Some _ _ _ Hb) as [_ Hid].
  assert (0 < ExecutionService.TIMEOUT) as Hpos by done.
  destruct (heal_attempt_cases env block cv le w)
    as [(e & w1 & Hf & Ha) | (w1 & Hp & Ha)].
  - destruct (heal_block_failure_run env _ _ _ _ _ _ _ Hb Hv Hl Hf)
      as [Hrun Hbl]. rewrite Hrun.
    eexists _, _. split; [done|].
    unfold set_db. cbn [db clock].
    rewrite first_block_insert_log, first_version_insert_log.
    destruct Hf as [Ho | (healed & w0 & Ho & He)].
    + apply oracle_heal_effect in Ho as (Hdb & _ & Hck & _).
      rewrite Hdb, Hb, Hv. split; [done|]. split; [by eexists|].
      split; [by eexists | lia].
    + apply oracle_heal_effect in Ho as (Hdb & _ & Hck & _).
      apply execute_block_effect in He as (Hdb' & Hck' & _).
      simpl in Hdb', Hck'. rewrite Hdb', Hdb.
      rewrite first_block_insert_version, Hb.
      rewrite (first_version_more (db w) _ _ _
                 [healed_version block healed]), Hv
        by (done || by rewrite Hv).
      split; [done|]. split; [by eexists|].
      split; [by eexists | lia].
  - rewrite (heal_block_run env _ _ _ _ _ Hb Hv Hl), Ha.
    pose proof (first_block_healed_world _ _ _ _ Hb
                  (heal_passes_blocks env _ _ _ _ _ Hp)) as Hfb.
    rewrite Hid, Hfb. cbn [default].
    destruct Hp as (healed & w0 & data & Ho & He).
    apply oracle_heal_effect in Ho as (Hdb & _ & Hck & _).
    apply execute_block_effect in He as (Hdb' & Hck' & _).
    simpl in Hdb', Hck'.
    eexists _, _. split; [done|]. split; [done|]. split; [|split].
    + apply (first_version_stored _ _ _ (healed_version block healed));
        [|done..].
      simpl. rewrite Hdb'. simpl. apply elem_of_app. right.
      by apply list_elem_of_singleton.
    + simpl. rewrite Hdb', Hdb. simpl. by eexists.
    + simpl. lia.
Qed.

Lemma recent_errors_second d l1 l2 block_id now :
  l1 ∈ execution_logs d ->
  counted block_id now l1 -> counted block_id now l2 ->
  1 < recent_errors (insert_log l2 d) block_id now.
Proof.
  intros Hin H1 H2. rewrite recent_errors_insert_log, decide_True by done.
  destruct (decide (recent_errors d block_id now <= 0)) as [Hz|Hz]; [|lia].
  exfalso. by apply (recent_errors_zero d block_id now l1).
Qed.

(** C1. When the run of the current version fails in [refresh_block_data],
    a [fetch] failure log is written and counted among the block's failure
    logs of the last hour (so the count is at least 1).  If the count
    exceeds 1, nothing else happens and the failure of the run is raised.
    If it is at most 1, [heal_block] is called once and returns, and
    [refresh_block_data] is entered once more: it runs the executor once
    on the then current version and returns its payload, or, when that
    run fails too, writes the second failure log, does not heal again and
    the failure of the first run is raised (this for an oracle answering
    the heal within an hour less two executor timeouts, so that the first
    failure log is still inside the window of the retry).  And over any
    sequence of operations from the initial state, two automated heals of
    one block are decided at least one hour apart. *)
Theorem refresh_failure_heals_at_most_once :
  (forall block_id w block cv e w1,
     first_block (db w) block_id = Some block ->
     first_version (db w) block_id (Block.current_version block) = Some cv ->
     ExecutionService.execute_block env (Block.id block)
       (Block.current_version block) (BlockVersion.backend_code cv) w
     = (Raise e, w1) ->
     let w2 := failed_world block e w1 in
     let recent := recent_errors (db w2) block_id (clock w1) in
     1 <= recent
     /\ (1 < recent ->
         forall depth,
           refresh_block_data env (S depth) block_id w = (Raise e, w2))
     /\ (recent <= 1 ->
         took_of (oracle env (calls w1)) + 2 * ExecutionService.TIMEOUT < HOUR ->
         exists blk w3 cv3,
           heal_block env block_id
             (record (EvAutoHeal block_id (clock w1)) w2) = (Return blk, w3)
           /\ first_block (db w3) block_id = Some blk
           /\ first_version (db w3) block_id (Block.current_version blk)
              = Some cv3
           /\ forall depth,
                refresh_block_data env (S (S depth)) block_id w =
                match ExecutionService.execute_block env (Block.id blk)
                        (Block.current_version blk)
                        (BlockVersion.backend_code cv3) w3 with
                | (Return data, w4) =>
                    (Return data, refreshed_world blk data w4)
                | (Raise e', w4) => (Raise e, failed_world blk e' w4)
                end))
  /\ (forall depth ops,
        sparse (trace (Api.run env depth ops initial_world))).
Proof.
  split.
  2:{ intros depth ops.
      apply (reach_throttled initial_world);
        [apply run_reach | apply throttled_initial]. }
  intros block_id w block cv e w1 Hb Hv Hexec w2 recent.
  pose proof (first_block_Some _ _ _ Hb) as [_ Hid].
  pose proof HOUR_pos as Hpos.
  pose proof (execute_block_effect env _ _ _ _ _ _ Hexec) as (Hdb1 & _ & _).
  set (l := fetch_log block false (Some (exn_msg e)) w1).
  assert (counted block_id (clock w1) l) as Hcl.
  { unfold counted, l. simpl. repeat split; try done. lia. }
  assert (recent = recent_errors (db w1) block_id (clock w1) + 1) as Hrecent.
  { unfold recent, w2, failed_world. simpl. fold l.
    by rewrite recent_errors_insert_log, decide_True. }
  split; [|split].
  - pose proof (recent_errors_nonneg (db w1) block_id (clock w1)). lia.
  - intros Hmany depth.
    rewrite (refresh_block_data_unfold env _ _ _ _ _ Hb Hv), Hexec.
    cbv zeta. fold w2. fold recent.
    by rewrite (proj2 (Z.leb_gt recent 1)) by lia.
  - intros Hfirst Hlat.
    set (w2' := record (EvAutoHeal block_id (clock w1)) w2).
    assert (is_Some (latest_error (db w2') block_id)) as [le Hle].
    { unfold w2', w2, failed_world. simpl.
      apply latest_error_after_failure. by split. }
    assert (first_block (db w2') block_id = Some block) as Hb2.
    { unfold w2', w2, failed_world. simpl.
      by rewrite first_block_insert_log, Hdb1. }
    assert (first_version (db w2') block_id (Block.current_version block)
            = Some cv) as Hv2.
    { unfold w2', w2, failed_world. simpl.
      by rewrite first_version_insert_log, Hdb1. }
    destruct (heal_block_after _ _ _ _ _ Hb2 Hv2 Hle)
      as (blk & w3 & Hheal & Hb3 & [cv3 Hv3] & [extra Hlogs] & Hck3).
    exists blk, w3, cv3. split; [done|]. split; [done|]. split; [done|].
    intros depth.
    rewrite (refresh_block_data_unfold env _ _ _ _ _ Hb Hv), Hexec.
    cbv zeta. fold w2. fold recent.
    rewrite (proj2 (Z.leb_le recent 1)) by lia.
    fold w2'. rewrite Hheal.
    rewrite (refresh_block_data_unfold env _ _ _ _ _ Hb3 Hv3).
    destruct (ExecutionService.execute_block env (Block.id blk) _ _ w3)
      as [[data|e'] w4] eqn:Hexec'; [done|].
    cbv zeta.
    pose proof (execute_block_effect env _ _ _ _ _ _ Hexec')
      as (Hdb4 & Hck4 & _).
    pose proof (first_block_Some _ _ _ Hb3) as [_ Hid3].
    assert (1 < recent_errors (db (failed_world blk e' w4)) block_id
                  (clock w4)) as Hsecond.
    { unfold failed_world. simpl.
      apply (recent_errors_second _ l).
      - rewrite Hdb4, Hlogs. apply elem_of_app. left.
        unfold w2', w2, failed_world. simpl. apply elem_of_app. right.
        by apply list_elem_of_singleton.
      - unfold counted, l. simpl. repeat split; try done.
        unfold w2', w2, failed_world in Hck3. simpl in Hck3. lia.
      - unfold counted. simpl. repeat split; try done. lia. }
    by rewrite (proj2 (Z.leb_gt _ 1)) by lia.
Qed.

End FailingRefresh.

(** ** Cached data and the two ways to fetch *)

Section Cache.
Import BlockService.
Context `{host : PyHost} (env : Env).

Lemma first_desc_acc_spec {A} (key : A -> Z) (l : list A) (a r : A) :
  fold_left
    (fun best x =>
       match best with
       | None => Some x
       | Some b => if key b <? key x then Some x else Some b
       end) l (Some a) = Some r ->
  (r = a \/ r ∈ l) /\ key a <= key r /\ forall x, x ∈ l -> key x <= key r.
Proof.
  revert a. induction l as [|x l IH]; intros a; simpl.
  - intros [= <-]. split; [by left|]. split; [lia|].
    intros x Hx. by apply elem_of_nil in Hx.
  - destruct (key a <? key x) eqn:E; intros H; apply IH in H
      as (Hin & Hle & Hall).
    + apply Z.ltb_lt in E. split; [|split; [lia|]].
      * right. destruct Hin as [->|Hin]; [by left | by right].
      * intros y [->|Hy]%elem_of_cons; [done | by apply Hall].
    + apply Z.ltb_ge in E. split; [|split; [done|]].
      * destruct Hin as [->|Hin]; [by left | right; by right].
      * intros y [->|Hy]%elem_of_cons; [lia | by apply Hall].
Qed.

Lemma first_desc_spec {A} (key : A -> Z) (l : list A) (r : A) :
  first_desc key l = Some r ->
  r ∈ l /\ forall x, x ∈ l -> key x <= key r.
Proof.
  unfold first_desc. destruct l as [|a l]; [done|]. simpl.
  intros H. apply first_desc_acc_spec in H as (Hin & Hle & Hall). split.
  - destruct Hin as [->|Hin]; [by left | by right].
  - intros x [->|Hx]%elem_of_cons; [done | by apply Hall].
Qed.

(** The row the cache lookup answers is a row of the block, and no row of
    the block was fetched later. *)
Lemma most_recent_data_spec d block_id r :
  Api.most_recent_data d block_id = Some r ->
  r ∈ block_data d /\ BlockData.block_id r = block_id
  /\ forall r', r' ∈ block_data d -> BlockData.block_id r' = block_id ->
                BlockData.fetched_at r' <= BlockData.fetched_at r.
Proof.
  unfold Api.most_recent_data. intros H.
  apply first_desc_spec in H as [Hin Hmax].
  apply list_elem_of_filter in Hin as [Hid Hin].
  split; [done|]. split; [done|].
  intros r' Hin' Hid'. apply Hmax. by apply list_elem_of_filter.
Qed.

Lemma reach_trace w w' : reach w w' -> exists evs, trace w' = trace w ++ evs.
Proof. intros H. apply reach_moved in H as (evs & Ht & _). by exists evs. Qed.

(** A payload answered by [refresh_block_data] was printed by a run of
    the executor made during the call. *)
Lemma refresh_block_data_fresh depth block_id w data w' :
  refresh_block_data env depth block_id w = (Return data, w') ->
  exists evs v t,
    trace w' = trace w ++ evs /\ EvExec block_id v t true ∈ evs.
Proof.
  revert w. induction depth as [|depth IH]; intros w; [done|].
  destruct (first_block (db w) block_id) as [block|] eqn:Hb;
    [|simpl; msimpl; by rewrite Hb].
  destruct (first_version (db w) block_id (Block.current_version block))
    as [cv|] eqn:Hv; [|simpl; msimpl; by rewrite Hb, Hv].
  pose proof (first_block_Some _ _ _ Hb) as [_ Hid].
  rewrite (refresh_block_data_unfold env _ _ _ _ _ Hb Hv).
  destruct (ExecutionService.execute_block env _ _ _ w)
    as [[data1|e] w1] eqn:Hexec.
  - intros [= <- <-]. apply execute_block_returns in Hexec as [_ Ht].
    eexists _, _, _. split; [exact Ht|]. rewrite Hid.
    by apply list_elem_of_singleton.
  - cbv zeta. destruct (recent_errors _ _ _ <=? 1); [|done].
    pose proof (execute_block_reach env (Block.id block)
                  (Block.current_version block)
                  (BlockVersion.backend_code cv) w) as Hr1.
    rewrite Hexec in Hr1. simpl in Hr1.
    apply reach_trace in Hr1 as [evs1 Ht1].
    pose proof (heal_block_reach env block_id
                  (record (EvAutoHeal block_id (clock w1))
                     (failed_world block e w1))) as Hr3.
    destruct (heal_block env block_id _) as [[blk|e'] w3]; [|done].
    apply reach_trace in Hr3 as [evs3 Ht3]. simpl in Ht3.
    destruct (refresh_block_data env depth block_id w3)
      as [[data4|e4] w4] eqn:Hn; [|done].
    intros [= <- <-]. apply IH in Hn as (evs4 & v & t & Ht4 & Hin).
    exists (evs1 ++ [EvAutoHeal block_id (clock w1)] ++ evs3 ++ evs4), v, t.
    split.
    + rewrite Ht4, Ht3, Ht1. by rewrite <- !app_assoc.
    + rewrite !elem_of_app. auto.
Qed.

(** C9. [get_block_data] answers the most recent cached row of the block,
    marked as cached, and leaves the world (hence the trace of executor
    runs) as it was, whenever that row exists and has not expired at the
    time of the call; otherwise it is one call of [refresh_block_data],
    whose payload, printed by an executor run made during the call, is
    answered marked as not cached; and the explicit refresh, whatever the
    cache holds, runs the executor on the current version of a stored
    block (the first new event of the trace, given that the version
    directory can be made). *)
Theorem get_block_data_cache_or_refresh depth :
  (forall block_id w cached_data,
     Api.most_recent_data (db w) block_id = Some cached_data ->
     Api.expired cached_data (clock w) = false ->
     Api.get_block_data env depth block_id w
     = (Return (Api.mkResponse (BlockData.data cached_data) true
                  (BlockData.fetched_at cached_data)), w)
     /\ cached_data ∈ block_data (db w)
     /\ BlockData.block_id cached_data = block_id
     /\ forall r, r ∈ block_data (db w) -> BlockData.block_id r = block_id ->
                  BlockData.fetched_at r <= BlockData.fetched_at cached_data)
  /\ (forall block_id w,
        (Api.most_recent_data (db w) block_id = None
         \/ exists cached_data,
              Api.most_recent_data (db w) block_id = Some cached_data
              /\ Api.expired cached_data (clock w) = true) ->
        Api.get_block_data env depth block_id w
        = match refresh_block_data env depth block_id w with
          | (Return data, w') =>
              (Return (Api.mkResponse data false (clock w')), w')
          | (Raise e, w') => (Raise e, w')
          end
        /\ forall data w',
             refresh_block_data env depth block_id w = (Return data, w') ->
             exists evs v t,
               trace w' = trace w ++ evs /\ EvExec block_id v t true ∈ evs)
  /\ (forall depth' block_id w block cv w0,
        first_block (db w) block_id = Some block ->
        first_version (db w) block_id (Block.current_version block) = Some cv ->
        ExecutionService.makedirs block_id
          ("v" +:+ str_of_int (Block.current_version block)) w
        = (Return tt, w0) ->
        exists t ok evs,
          trace (Api.refresh_block env (S depth') block_id w).2
          = trace w ++ EvExec block_id (Block.current_version block) t ok
                         :: evs).
Proof.
  split; [|split].
  - intros block_id w cached_data Hc He.
    split; [|by apply most_recent_data_spec].
    destruct (get_block_data_cases env depth block_id w)
      as [(c & Hc' & _ & ->) | [[Hn | (c & Hc' & He')] _]]; congruence.
  - intros block_id w Hmiss.
    split; [|intros data w'; apply refresh_block_data_fresh].
    destruct (get_block_data_cases env depth block_id w)
      as [(c & Hc' & He' & _) | [_ ->]]; [|done].
    destruct Hmiss as [Hn | (c' & Hc & He)]; congruence.
  - intros depth' block_id w block cv w0 Hb Hv Hmk.
    pose proof (first_block_Some _ _ _ Hb) as [_ Hid].
    rewrite refresh_block_world.
    pose proof (refresh_block_data_reach env (S depth') block_id w) as Hreach.
    rewrite (refresh_block_data_unfold env _ _ _ _ _ Hb Hv) in *.
    assert (exists r w1,
              ExecutionService.execute_block env (Block.id block)
                (Block.current_version block) (BlockVersion.backend_code cv) w
              = (r, w1)
              /\ trace w1 = trace w ++ [EvExec block_id
                                          (Block.current_version block)
                                          (clock w1) (is_return r)])
      as (r & w1 & Hexec & Ht1).
    { unfold ExecutionService.execute_block. rewrite bind_run, Hid, Hmk.
      unfold observed. rewrite run_script_classified.
      apply makedirs_db in Hmk as (_ & Htr & _).
      destruct (script_world_effect (child env (calls w0)) w0)
        as (_ & _ & Htr' & _).
      destruct (script_result _) as [j|e]; eexists _, _;
        (split; [reflexivity|]); simpl; by rewrite Htr', Htr. }
    rewrite Hexec in *. destruct r as [data|e]; simpl.
    + eexists _, _, []. exact Ht1.
    + cbv zeta in *.
      destruct (recent_errors _ _ _ <=? 1).
      * pose proof (heal_block_reach env block_id
                      (record (EvAutoHeal block_id (clock w1))
                         (failed_world block e w1))) as Hr3.
        destruct (heal_block env block_id _) as [[blk|e'] w3].
        -- apply reach_trace in Hr3 as [evs3 Ht3]. simpl in Ht3.
           pose proof (refresh_block_data_reach env depth' block_id w3) as Hr4.
           destruct (refresh_block_data env depth' block_id w3)
             as [[data4|e4] w4]; apply reach_trace in Hr4 as [evs4 Ht4];
             simpl in *; eexists _, _, _;
             rewrite Ht4, Ht3, Ht1, <- !app_assoc; reflexivity.
        -- apply reach_trace in Hr3 as [evs3 Ht3]. simpl in *.
           eexists _, _, _. rewrite Ht3, Ht1, <- !app_assoc. reflexivity.
      * simpl. eexists _, _, []. exact Ht1.
Qed.

End Cache.

(* ====================================================================== *)
(** * Part III: scenarios                                                  *)
(* ====================================================================== *)

(** The properties above, exercised on runs of the model with the host and
    the scripted environments of module [Demo]. *)

Section Scenarios.
Import Demo BlockService.
#[local] Existing Instance demo_host.

(** ** A block is created, then its refresh fails once *)

Definition env_heal : Env :=
  scripted [oracle_ok; child_ok; child_crash; oracle_ok; child_ok; child_ok] [].

Definition weather : Block.t :=
  Block.mk 1 "NYC weather" "NYC weather" 1 3600 default_layout "active".

Definition weather_v1 : BlockVersion.t :=
  BlockVersion.mk 1 1 "class BlockExecutor: pass"
    "export function GeneratedBlock() {}" "Shows the weather." "active".

Definition created : World :=
  Api.run env_heal 5 [Api.Create "NYC weather" None 3600] initial_world.

Definition crash : exn :=
  mkExn Exception "Execution error: Block execution failed: Traceback".

Definition after_crash : World :=
  (ExecutionService.execute_block env_heal 1 1 "class BlockExecutor: pass"
     created).2.

Lemma refresh_failure_heals_at_most_once_witness :
  exists blk w3,
    heal_block env_heal 1
      (record (EvAutoHeal 1 (clock after_crash))
         (failed_world weather crash after_crash)) = (Return blk, w3)
    /\ first_block (db w3) 1 = Some blk.
Proof.
  destruct (proj1 (refresh_failure_heals_at_most_once env_heal)
              1 created weather weather_v1 crash after_crash)
    as (_ & _ & Hheal);
    [vm_compute; reflexivity | vm_compute; reflexivity
    | vm_compute; reflexivity |].
  destruct Hheal as (blk & w3 & cv3 & Hrun & Hb & _);
    [vm_compute; discriminate | vm_compute; reflexivity |].
  exists blk, w3. split; [exact Hrun | exact Hb].
Defined.

(** ** A block whose first run crashed, and an oracle that is down *)

Definition env_down : Env := scripted [oracle_ok; child_crash; oracle_down] [].

Definition broken : World :=
  Api.run env_down 5 [Api.Create "NYC weather" None 3600] initial_world.

Definition first_failure : ExecutionLog.t :=
  ExecutionLog.mk 1 1 "fetch" false
    (Some "Execution error: Block execution failed: Traceback") 6000000.

Lemma heal_block_never_raises_witness :
  exists block' w',
    heal_block env_down 1 broken = (Return block', w')
    /\ first_block (db w') 1 = Some block'.
Proof.
  apply (proj1 (heal_block_never_raises env_down 1 broken
                  (with_status "error" weather) weather_v1 first_failure
                  ltac:(vm_compute; reflexivity)
                  ltac:(vm_compute; reflexivity)
                  ltac:(vm_compute; reflexivity))).
Defined.

(** ** An update whose candidate crashes *)

Definition env_bad_update : Env :=
  scripted [oracle_ok; child_ok; oracle_ok; child_crash; oracle_ok; child_ok] [].

Definition before_update : World :=
  Api.run env_bad_update 5 [Api.Create "NYC weather" None 3600] initial_world.

Lemma current_version_moves_only_on_success_witness :
  exists b',
    first_block
      (db (update_block env_bad_update 1 "hourly" before_update).2) 1
    = Some b'
    /\ Block.status b' = "error"
    /\ Block.current_version b' = Block.current_version weather.
Proof.
  exists (with_status "error" weather).
  split; [vm_compute; reflexivity|]. split; [reflexivity|].
  apply (proj1 (proj2 (proj2
           (current_version_moves_only_on_success env_bad_update 5)))
           1 "hourly" before_update weather
           (update_block env_bad_update 1 "hourly" before_update).1
           (update_block env_bad_update 1 "hourly" before_update).2).
  - vm_compute; reflexivity.
  - apply surjective_pairing.
  - vm_compute; reflexivity.
  - reflexivity.
Defined.

(** The version of the crashed candidate is taken again by the next
    update: the numbers of the block's rows are 1, 2, 2. *)
Definition after_two_updates : World :=
  Api.run env_bad_update 5
    [Api.Create "NYC weather" None 3600; Api.Update 1 "hourly";
     Api.Update 1 "daily"] initial_world.

Lemma version_numbers_climb_from_one_witness :
  head (versions_of (db after_two_updates) 1) = Some 1
  /\ climbs (versions_of (db after_two_updates) 1).
Proof.
  destruct (proj1 (version_numbers_climb_from_one env_bad_update 5)
              [Api.Create "NYC weather" None 3600; Api.Update 1 "hourly";
               Api.Update 1 "daily"]
              1 (healed_block weather)) as (Hhead & Hclimb & _);
    [vm_compute; reflexivity|].
  split; [exact Hhead | exact Hclimb].
Defined.

(** C4 fails as stated: after a creation, an update whose candidate
    crashes and a further update, the third row is numbered 2 like the
    second, not one more than the highest number so far, and the numbers
    are not strictly increasing. *)
Lemma failed_candidate_number_is_reused :
  versions_of (db after_two_updates) 1 = [1; 2; 2]
  /\ ~ (forall i j x y,
          (i < j)%nat ->
          versions_of (db after_two_updates) 1 !! i = Some x ->
          versions_of (db after_two_updates) 1 !! j = Some y -> x < y).
Proof.
  split; [vm_compute; reflexivity|].
  intros H. specialize (H 1%nat 2%nat 2 2).
  assert (2 < 2) as Hlt; [|lia].
  apply H; [lia | vm_compute; reflexivity | vm_compute; reflexivity].
Qed.

(** ** A child that never exits *)

Definition env_hang : Env := scripted [child_hang] [].

Lemma execute_block_timeout_witness :
  exists w',
    ExecutionService.execute_block env_hang 1 1 "" initial_world
    = (Raise timed_out, w')
    /\ procs w' = procs initial_world ++ [Running].
Proof.
  destruct (execute_block_timeout env_hang 1 1 "" initial_world
              (ExecutionService.makedirs 1 "v1" initial_world).2
              ltac:(vm_compute; reflexivity) ltac:(reflexivity))
    as (w' & Hrun & Hprocs & _).
  exists w'. split; [exact Hrun | exact Hprocs].
Defined.

(** C5 fails as stated: the executor times out on a child that never
    exits, and afterwards the child is still running, not killed. *)
Lemma timed_out_child_is_left_running :
  let '(r, w') :=
    ExecutionService.execute_block env_hang 1 1 "" initial_world in
  r = Raise timed_out /\ procs w' = [Running] /\ Killed ∉ procs w'.
Proof.
  vm_compute. split; [reflexivity|]. split; [reflexivity|].
  intros H. apply list_elem_of_singleton in H. discriminate.
Qed.

(** ** Six versions, and a cleanup with a directory that cannot go *)

Definition env_six : Env :=
  scripted [oracle_ok; child_ok; oracle_ok; child_ok; oracle_ok; child_ok;
            oracle_ok; child_ok; oracle_ok; child_ok; oracle_ok; child_ok]
           ["v1"].

Definition six_versions : World :=
  Api.run env_six 5
    [Api.Create "NYC weather" None 3600; Api.Update 1 "a"; Api.Update 1 "b";
     Api.Update 1 "c"; Api.Update 1 "d"; Api.Update 1 "e"] initial_world.

Definition six_dirs : Listing :=
  [("v1", DirNode); ("v2", DirNode); ("v3", DirNode); ("v4", DirNode);
   ("v5", DirNode); ("v6", DirNode)].

Lemma cleanup_keeps_most_recent_witness :
  ExecutionService.version_dirs
    (ExecutionService.cleanup_listing env_six 1 5 six_dirs)
  ≡ₚ [(6, "v6"); (5, "v5"); (4, "v4"); (3, "v3"); (2, "v2"); (1, "v1")].
Proof.
  destruct (cleanup_keeps_most_recent env_six 1 six_dirs)
    as (_ & _ & Hrem & _).
  - apply (bool_decide_unpack _). vm_compute. exact I.
  - exact Hrem.
Defined.


(** ** The cache *)

Definition env_cache : Env := scripted [oracle_ok; child_ok; child_ok] [].

Definition fetched : World :=
  Api.run env_cache 5
    [Api.Create "NYC weather" None 3600; Api.RefreshData 1] initial_world.

Lemma get_block_data_cache_or_refresh_witness :
  Api.get_block_data env_cache 5 1 fetched
  = (Return (Api.mkResponse (JString "{}") true 9000000), fetched).
Proof.
  apply (proj1 (get_block_data_cache_or_refresh env_cache 5) 1 fetched
           (BlockData.mk 1 (JString "{}") 9000000 (Some 3609000000))
           ltac:(vm_compute; reflexivity) ltac:(vm_compute; reflexivity)).
Defined.

(** ** Listing after a soft deletion *)

Lemma get_blocks_lists_all_but_deleted_witness :
  get_block (db (delete_block 1 created).2) 1
  = Some (with_status "deleted" weather)
  /\ get_blocks (db (delete_block 1 created).2) = [].
Proof.
  destruct (proj2 (proj2 (get_blocks_lists_all_but_deleted (db created)))
              created 1 weather eq_refl ltac:(vm_compute; reflexivity))
    as (Hget & _ & _).
  split; [exact Hget | vm_compute; reflexivity].
Defined.

End Scenarios.

(* ====================================================================== *)
(** * Part IV: further properties of the services                          *)
(* ====================================================================== *)

(** What the services do besides: the outcomes of a creation and of an
    update, the operations on single rows, what every run keeps true of
    the store, the outcomes of the executor, the artifact directories
    over a run, the cleanup, the parser on well-formed and on cut replies,
    the cache, the status codes of the routes, and what the healing oracle
    is shown. *)

(** ** Calls to the oracle *)

Section OracleCalls.
Context `{host : PyHost} (env : Env).

Definition answered (ev : Z -> Event) (w : World) : World :=
  let w' := tick (took_of (oracle env (calls w))) w in
  record (ev (clock w')) w'.

Definition no_content : string := "'NoneType' object has no attribute 'split'".

Lemma generate_block_code_run user_prompt context w :
  AIService.generate_block_code env user_prompt context w =
  match oracle env (calls w) with
  | Reply (Some text) _ =>
      (Return (AIService._parse_generated_code text),
       answered (EvGenerate user_prompt context) w)
  | Reply None _ =>
      (Raise (mkExn Exception ("AI code generation failed: " +:+ no_content)),
       answered (EvGenerate user_prompt context) w)
  | ApiError msg _ =>
      (Raise (mkExn Exception ("AI code generation failed: " +:+ msg)),
       answered (EvGenerate user_prompt context) w)
  end.
Proof.
  unfold AIService.generate_block_code, AIService.chat_completion, answered.
  rewrite try_except_run, bind_run.
  destruct (oracle env (calls w)) as [[text|] took|msg took]; reflexivity.
Qed.

End OracleCalls.

(** ** Creating a block *)

Section Creation.
Import BlockService.
Context `{host : PyHost} (env : Env).

Lemma update_row_elsewhere (bs : list Block.t) block_id f :
  (forall b, b ∈ bs -> Block.id b <> block_id) ->
  map (fun b => if bool_decide (Block.id b = block_id) then f b else b) bs = bs.
Proof.
  intros Hne. induction bs as [|b bs IH]; [done|]. simpl.
  rewrite bool_decide_eq_false_2 by (apply Hne; by left).
  f_equal. apply IH. intros b' Hb'. apply Hne. by right.
Qed.

(** The rows of a block table after an assignment to the row just
    inserted. *)
Lemma update_row_new d b f :
  Block.id b = next_block_id d ->
  blocks (update_row (Block.id b) f (insert_block b d)) = blocks d ++ [f b].
Proof.
  intros Hid. unfold update_row, insert_block. simpl.
  rewrite map_app. simpl. rewrite bool_decide_eq_true_2 by done.
  f_equal. apply update_row_elsewhere.
  intros b' Hb'. apply next_block_id_above in Hb'. lia.
Qed.

Lemma create_block_run user_prompt title refresh_interval w :
  create_block env user_prompt title refresh_interval w =
  match AIService.generate_block_code env user_prompt None w with
  | (Raise e, w1) => (Raise e, w1)
  | (Return g, w1) =>
      let b := created_block w1 user_prompt title refresh_interval in
      match ExecutionService.execute_block env (Block.id b) 1
              (AIService.backend_code g)
              (set_db (insert_version (first_version_row b g))
                 (set_db (insert_block b) w1)) with
      | (Return _, w3) =>
          let w4 := set_db (update_row (Block.id b) (with_status "active")) w3 in
          (Return (default b (first_block (db w4) (Block.id b))), w4)
      | (Raise e, w3) =>
          let w4 := rejected_world b 1 e w3 in
          (Return (default b (first_block (db w4) (Block.id b))), w4)
      end
  end.
Proof.
  unfold create_block. msimpl.
  destruct (AIService.generate_block_code env _ _ w) as [[g|e] w1]; [|done].
  fold (created_block w1 user_prompt title refresh_interval).
  set (b := created_block w1 user_prompt title refresh_interval).
  fold (first_version_row b g).
  by destruct (ExecutionService.execute_block env _ _ _ _) as [[data|e] w3].
Qed.


Lemma first_block_last d (bs : list Block.t) b :
  blocks d = bs ++ [b] ->
  (forall b', b' ∈ bs -> Block.id b' <> Block.id b) ->
  first_block d (Block.id b) = Some b.
Proof.
  intros Hbl Hne. unfold first_block. rewrite Hbl, filter_app.
  assert (filter (fun b' => Block.id b' = Block.id b) bs = []) as ->.
  { clear Hbl. induction bs as [|b' bs' IH]; [done|].
    rewrite filter_cons_False by (apply Hne; by left).
    apply IH. intros b'' Hb''. apply Hne. by right. }
  by rewrite filter_cons_True.
Qed.

(** X1. When the oracle does not answer with a text (the call fails, or
    the answer has no content), [create_block] raises an [Exception] whose
    message is "AI code generation failed: " followed by the cause, after
    that one call to the oracle: no row is written to any table, no
    artifact directory is made and no process is spawned. *)
Theorem create_block_failed_generation_stores_nothing
    user_prompt title refresh_interval w cause :
  (exists took, oracle env (calls w) = ApiError cause took)
  \/ (cause = no_content /\ exists took, oracle env (calls w) = Reply None took) ->
  exists w',
    create_block env user_prompt title refresh_interval w
    = (Raise (mkExn Exception ("AI code generation failed: " +:+ cause)), w')
    /\ db w' = db w /\ fs w' = fs w /\ procs w' = procs w
    /\ calls w' = S (calls w)
    /\ trace w' = trace w ++ [EvGenerate user_prompt None (clock w')].
Proof.
  intros Hor. rewrite create_block_run, generate_block_code_run.
  destruct Hor as [[took ->] | [-> [took ->]]]; by eexists.
Qed.

(** How a creation whose oracle call is answered ends. *)
Lemma create_block_outcome user_prompt title refresh_interval w text took :
  oracle env (calls w) = Reply (Some text) took ->
  let g := AIService._parse_generated_code text in
  let b := created_block w user_prompt title refresh_interval in
  exists s w',
    create_block env user_prompt title refresh_interval w
    = (Return (with_status s b), w')
    /\ blocks (db w') = blocks (db w) ++ [with_status s b]
    /\ block_versions (db w') = block_versions (db w) ++ [first_version_row b g]
    /\ block_data (db w') = block_data (db w)
    /\ (s = "active" /\ execution_logs (db w') = execution_logs (db w)
        \/ s = "error"
           /\ exists msg t,
                execution_logs (db w')
                = execution_logs (db w)
                  ++ [ExecutionLog.mk (Block.id b) 1 "fetch" false
                        (Some msg) t]).
Proof.
  intros Hor g b. rewrite create_block_run, generate_block_code_run, Hor.
  fold g.
  change (created_block (answered env (EvGenerate user_prompt None) w)
            user_prompt title refresh_interval) with b.
  cbv zeta.
  assert (forall (s : string) d',
            blocks d' = blocks (db w) ++ [with_status s b] ->
            first_block d' (Block.id b) = Some (with_status s b)) as Hlast.
  { intros s d' Hbl.
    apply (first_block_last d' (blocks (db w)) (with_status s b) Hbl).
    intros b' Hb'. apply next_block_id_above in Hb'. simpl. lia. }
  destruct (ExecutionService.execute_block env _ _ _ _)
    as [[data|e] w3] eqn:Ee;
    apply execute_block_effect in Ee as (Hdb3 & _).
  - assert (blocks (db (set_db (update_row (Block.id b) (with_status "active"))
                          w3))
            = blocks (db w) ++ [with_status "active" b]) as Hbl.
    { simpl. rewrite Hdb3. by apply (update_row_new (db w) b). }
    rewrite (Hlast _ _ Hbl).
    exists "active", (set_db (update_row (Block.id b) (with_status "active")) w3).
    split; [done|]. split; [exact Hbl|].
    simpl. rewrite Hdb3. simpl. repeat split; try done. by left.
  - assert (blocks (db (rejected_world b 1 e w3))
            = blocks (db w) ++ [with_status "error" b]) as Hbl.
    { simpl. rewrite Hdb3. by apply (update_row_new (db w) b). }
    rewrite (Hlast _ _ Hbl).
    exists "error", (rejected_world b 1 e w3).
    split; [done|]. split; [exact Hbl|].
    simpl. rewrite Hdb3. simpl. repeat split; try done.
    right. split; [done|]. by eexists _, _.
Qed.

(** The world in which the code of a new block is first run: the row of
    the block and the row of its first version are stored, after the
    oracle's answer. *)
Definition first_run_world (w : World) (user_prompt : string) (b : Block.t)
    (g : AIService.GeneratedCode) : World :=
  set_db (insert_version (first_version_row b g))
    (set_db (insert_block b) (answered env (EvGenerate user_prompt None) w)).

(** A creation whose oracle call is answered, by the outcome of the first
    run of the stored code. *)
Lemma create_block_by_run user_prompt title refresh_interval w text took :
  oracle env (calls w) = Reply (Some text) took ->
  let g := AIService._parse_generated_code text in
  let b := created_block w user_prompt title refresh_interval in
  create_block env user_prompt title refresh_interval w =
  match ExecutionService.execute_block env (Block.id b) 1
          (AIService.backend_code g) (first_run_world w user_prompt b g) with
  | (Return _, w3) =>
      (Return (with_status "active" b),
       set_db (update_row (Block.id b) (with_status "active")) w3)
  | (Raise e, w3) =>
      (Return (with_status "error" b), rejected_world b 1 e w3)
  end.
Proof.
  intros Hor g b. rewrite create_block_run, generate_block_code_run, Hor.
  fold g.
  change (created_block (answered env (EvGenerate user_prompt None) w)
            user_prompt title refresh_interval) with b.
  cbv zeta. fold (first_run_world w user_prompt b g).
  assert (forall (s : string) d',
            blocks d' = blocks (db w) ++ [with_status s b] ->
            first_block d' (Block.id b) = Some (with_status s b)) as Hlast.
  { intros s d' Hbl.
    apply (first_block_last d' (blocks (db w)) (with_status s b) Hbl).
    intros b' Hb'. apply next_block_id_above in Hb'. simpl. lia. }
  destruct (ExecutionService.execute_block env _ _ _ _)
    as [[data|e] w3] eqn:Ee;
    apply execute_block_effect in Ee as (Hdb3 & _).
  - rewrite (Hlast "active"); [done|].
    simpl. rewrite Hdb3. by apply (update_row_new (db w) b).
  - rewrite (Hlast "error"); [done|].
    simpl. rewrite Hdb3. by apply (update_row_new (db w) b).
Qed.

(** X2. When the oracle answers with a text, [create_block] returns, and
    what it returns is the row it stored: a block with the next free id
    (above every id in the table), the prompt and refresh interval given,
    the title given or else generated, the default layout and
    [current_version] 1, appended to the table of blocks, with one version
    row numbered 1 that holds the three parts parsed from the answer.  The
    stored code is then run once, as version 1 of that id, in the world
    where both rows are stored, and the outcome of that run decides the
    rest: when it returns, the block is [active] and nothing is logged;
    when it raises [e], the block is [error] and one failed [fetch] log of
    version 1 carries the message of [e].  In both cases the artifacts, the
    processes, the clock and the trace are as that run left them.  The
    lookup by id then answers the block returned. *)
Theorem create_block_stores_block
    user_prompt title refresh_interval w text took :
  oracle env (calls w) = Reply (Some text) took ->
  let g := AIService._parse_generated_code text in
  let b := created_block w user_prompt title refresh_interval in
  exists blk w',
    create_block env user_prompt title refresh_interval w = (Return blk, w')
    /\ Block.id blk = next_block_id (db w)
    /\ (forall b', b' ∈ blocks (db w) -> Block.id b' < Block.id blk)
    /\ Block.user_prompt blk = user_prompt
    /\ Block.title blk = title_or title user_prompt
    /\ Block.current_version blk = 1
    /\ Block.refresh_interval blk = refresh_interval
    /\ Block.layout_data blk = default_layout
    /\ blocks (db w') = blocks (db w) ++ [blk]
    /\ block_versions (db w')
       = block_versions (db w) ++ [first_version_row blk g]
    /\ block_data (db w') = block_data (db w)
    /\ match ExecutionService.execute_block env (Block.id b) 1
               (AIService.backend_code g)
               (first_run_world w user_prompt b g) with
       | (Return _, w3) =>
           Block.status blk = "active"
           /\ execution_logs (db w') = execution_logs (db w)
           /\ fs w' = fs w3 /\ procs w' = procs w3
           /\ clock w' = clock w3 /\ trace w' = trace w3
       | (Raise e, w3) =>
           Block.status blk = "error"
           /\ (exists t,
                 execution_logs (db w')
                 = execution_logs (db w)
                   ++ [ExecutionLog.mk (Block.id blk) 1 "fetch" false
                         (Some (exn_msg e)) t])
           /\ fs w' = fs w3 /\ procs w' = procs w3
           /\ clock w' = clock w3 /\ trace w' = trace w3
       end
    /\ get_block (db w') (Block.id blk) = Some blk.
Proof.
  intros Hor g b.
  rewrite (create_block_by_run user_prompt title refresh_interval w text took
             Hor).
  fold g b.
  assert (forall (s : string) d',
            blocks d' = blocks (db w) ++ [with_status s b] ->
            first_block d' (Block.id b) = Some (with_status s b)) as Hlast.
  { intros s d' Hbl.
    apply (first_block_last d' (blocks (db w)) (with_status s b) Hbl).
    intros b' Hb'. apply next_block_id_above in Hb'. simpl. lia. }
  destruct (ExecutionService.execute_block env _ _ _ _)
    as [[data|e] w3] eqn:Ee;
    apply execute_block_effect in Ee as (Hdb3 & _).
  - assert (blocks (db (set_db (update_row (Block.id b) (with_status "active"))
                          w3))
            = blocks (db w) ++ [with_status "active" b]) as Hbl.
    { simpl. rewrite Hdb3. by apply (update_row_new (db w) b). }
    eexists _, _. split; [reflexivity|].
    split; [done|]. split; [intros b' Hb'; by apply next_block_id_above|].
    do 5 (split; [done|]). split; [exact Hbl|].
    split; [simpl; by rewrite Hdb3|]. split; [simpl; by rewrite Hdb3|].
    split; [|exact (Hlast _ _ Hbl)].
    split; [done|]. split; [simpl; by rewrite Hdb3|]. done.
  - assert (blocks (db (rejected_world b 1 e w3))
            = blocks (db w) ++ [with_status "error" b]) as Hbl.
    { simpl. rewrite Hdb3. by apply (update_row_new (db w) b). }
    eexists _, _. split; [reflexivity|].
    split; [done|]. split; [intros b' Hb'; by apply next_block_id_above|].
    do 5 (split; [done|]). split; [exact Hbl|].
    split; [simpl; by rewrite Hdb3|]. split; [simpl; by rewrite Hdb3|].
    split; [|exact (Hlast _ _ Hbl)].
    split; [done|]. split; [|done].
    eexists. simpl. by rewrite Hdb3.
Qed.

End Creation.

(** ** Updating a block *)

Section Updating.
Import BlockService.
Context `{host : PyHost} (env : Env).

Lemma update_block_run block_id user_prompt w block :
  first_block (db w) block_id = Some block ->
  update_block env block_id user_prompt w =
  match AIService.generate_block_code env user_prompt
          (Some (update_context w block user_prompt)) w with
  | (Raise e, w1) => (Raise e, w1)
  | (Return g, w1) =>
      match ExecutionService.execute_block env (Block.id block)
              (Block.current_version block + 1) (AIService.backend_code g)
              (set_db (insert_version (new_version block g)) w1) with
      | (Return _, w3) =>
          let w4 := advanced_world block w3 in
          (Return (default block (first_block (db w4) block_id)), w4)
      | (Raise e, w3) =>
          let w4 := rejected_world block (Block.current_version block + 1) e w3 in
          (Return (default block (first_block (db w4) block_id)), w4)
      end
  end.
Proof.
  intros Hb. pose proof (first_block_Some _ _ _ Hb) as [_ Hid]. subst block_id.
  unfold update_block. msimpl. rewrite Hb.
  fold (update_context w block user_prompt).
  destruct (AIService.generate_block_code env _ _ w) as [[g|e] w1]; [|done].
  fold (new_version block g).
  by destruct (ExecutionService.execute_block env _ _ _ _) as [[data|e] w3].
Qed.

Lemma first_block_status d block_id b s :
  first_block d block_id = Some b ->
  first_block (update_row block_id (with_status s) d) block_id
  = Some (with_status s b).
Proof.
  intros Hb. pose proof (first_block_Some _ _ _ Hb) as [_ Hid].
  rewrite first_block_update_row, Hb by done. simpl.
  by rewrite bool_decide_eq_true_2.
Qed.

(** How an update of a stored block whose oracle call is answered ends. *)
Lemma update_block_outcome block_id user_prompt w block text took :
  first_block (db w) block_id = Some block ->
  oracle env (calls w) = Reply (Some text) took ->
  exists blk w',
    update_block env block_id user_prompt w = (Return blk, w')
    /\ first_block (db w') block_id = Some blk
    /\ (blk = healed_block block \/ blk = with_status "error" block)
    /\ block_versions (db w')
       = block_versions (db w)
         ++ [new_version block (AIService._parse_generated_code text)].
Proof.
  intros Hb Hor. pose proof (first_block_Some _ _ _ Hb) as [_ Hid].
  rewrite (update_block_run _ _ _ _ Hb), generate_block_code_run, Hor.
  set (g := AIService._parse_generated_code text).
  destruct (ExecutionService.execute_block env _ _ _ _)
    as [[data|e] w3] eqn:Ee;
    apply execute_block_effect in Ee as (Hdb3 & _); cbv zeta.
  - assert (first_block (db (advanced_world block w3)) block_id
            = Some (healed_block block)) as Hfb.
    { apply (first_block_advanced_world _ _ w); [done|]. by rewrite Hdb3. }
    rewrite Hfb. eexists _, _. split; [reflexivity|].
    split; [exact Hfb|]. split; [by left|]. simpl. by rewrite Hdb3.
  - assert (first_block (db (rejected_world block
                               (Block.current_version block + 1) e w3))
              block_id
            = Some (with_status "error" block)) as Hfb.
    { unfold rejected_world. simpl. rewrite first_block_insert_log.
      rewrite <- Hid at 1. apply first_block_status.
      rewrite Hdb3, Hid. exact Hb. }
    rewrite Hfb. eexists _, _. split; [reflexivity|].
    split; [exact Hfb|]. split; [by right|]. simpl. by rewrite Hdb3.
Qed.

(** The world in which the candidate of an update is run: its version
    row is stored, after the oracle's answer. *)
Definition candidate_world (w : World) (block : Block.t)
    (user_prompt : string) (g : AIService.GeneratedCode) : World :=
  set_db (insert_version (new_version block g))
    (answered env
       (EvGenerate user_prompt (Some (update_context w block user_prompt))) w).

(** An update whose oracle call is answered, by the outcome of the run of
    the candidate. *)
Lemma update_block_by_run block_id user_prompt w block text took :
  first_block (db w) block_id = Some block ->
  oracle env (calls w) = Reply (Some text) took ->
  let g := AIService._parse_generated_code text in
  update_block env block_id user_prompt w =
  match ExecutionService.execute_block env (Block.id block)
          (Block.current_version block + 1) (AIService.backend_code g)
          (candidate_world w block user_prompt g) with
  | (Return _, w3) => (Return (healed_block block), advanced_world block w3)
  | (Raise e, w3) =>
      (Return (with_status "error" block),
       rejected_world block (Block.current_version block + 1) e w3)
  end.
Proof.
  intros Hb Hor g. pose proof (first_block_Some _ _ _ Hb) as [_ Hid].
  rewrite (update_block_run _ _ _ _ Hb), generate_block_code_run, Hor.
  fold g. fold (candidate_world w block user_prompt g).
  destruct (ExecutionService.execute_block env _ _ _ _)
    as [[data|e] w3] eqn:Ee;
    apply execute_block_effect in Ee as (Hdb3 & _); cbv zeta.
  - assert (first_block (db (advanced_world block w3)) block_id
            = Some (healed_block block)) as ->; [|done].
    apply (first_block_advanced_world _ _ w); [done|]. by rewrite Hdb3.
  - assert (first_block (db (rejected_world block
                               (Block.current_version block + 1) e w3))
              block_id
            = Some (with_status "error" block)) as ->; [|done].
    unfold rejected_world. simpl. rewrite first_block_insert_log.
    rewrite <- Hid at 1. apply first_block_status.
    rewrite Hdb3, Hid. exact Hb.
Qed.

(** X3. An update of a stored block, whatever its status (so also of a
    soft-deleted one), whose oracle call is answered with a text stores the
    candidate as one more version row, numbered [current_version + 1], with
    the parts parsed from the answer, runs it once under that number, and
    returns the stored row of the block.  The outcome of that run decides
    the row: when it returns, the block is [active] with [current_version]
    one higher; when it raises [e], the block is [error], its
    [current_version] is unchanged, and one failed [fetch] log of the
    candidate's number carries the message of [e].  In both cases the block
    is listed again by [get_blocks], the prompt stored with it is still the
    one given at creation, not the one of the update, and the artifacts,
    the processes, the clock and the trace are as the run left them. *)
Theorem update_block_relists_block block_id user_prompt w block text took :
  first_block (db w) block_id = Some block ->
  oracle env (calls w) = Reply (Some text) took ->
  let g := AIService._parse_generated_code text in
  exists blk w',
    update_block env block_id user_prompt w = (Return blk, w')
    /\ get_block (db w') block_id = Some blk
    /\ blk ∈ get_blocks (db w')
    /\ Block.user_prompt blk = Block.user_prompt block
    /\ match ExecutionService.execute_block env (Block.id block)
               (Block.current_version block + 1) (AIService.backend_code g)
               (candidate_world w block user_prompt g) with
       | (Return _, w3) =>
           Block.status blk = "active"
           /\ Block.current_version blk = Block.current_version block + 1
           /\ execution_logs (db w') = execution_logs (db w)
           /\ fs w' = fs w3 /\ procs w' = procs w3
           /\ clock w' = clock w3 /\ trace w' = trace w3
       | (Raise e, w3) =>
           Block.status blk = "error"
           /\ Block.current_version blk = Block.current_version block
           /\ (exists t,
                 execution_logs (db w')
                 = execution_logs (db w)
                   ++ [ExecutionLog.mk (Block.id block)
                         (Block.current_version block + 1) "fetch" false
                         (Some (exn_msg e)) t])
           /\ fs w' = fs w3 /\ procs w' = procs w3
           /\ clock w' = clock w3 /\ trace w' = trace w3
       end
    /\ block_versions (db w') = block_versions (db w) ++ [new_version block g].
Proof.
  intros Hb Hor g. pose proof (first_block_Some _ _ _ Hb) as [_ Hid].
  rewrite (update_block_by_run _ user_prompt _ _ _ _ Hb Hor). fold g.
  destruct (ExecutionService.execute_block env _ _ _ _)
    as [[data|e] w3] eqn:Ee;
    apply execute_block_effect in Ee as (Hdb3 & _).
  - assert (first_block (db (advanced_world block w3)) block_id
            = Some (healed_block block)) as Hfb.
    { apply (first_block_advanced_world _ _ w); [done|]. by rewrite Hdb3. }
    eexists _, _. split; [reflexivity|]. split; [exact Hfb|].
    split; [|split; [done|split]].
    + apply first_block_Some in Hfb as [Hin _].
      unfold get_blocks. by apply list_elem_of_filter.
    + split; [done|]. split; [done|]. split; [simpl; by rewrite Hdb3|]. done.
    + simpl. by rewrite Hdb3.
  - assert (first_block (db (rejected_world block
                               (Block.current_version block + 1) e w3))
              block_id
            = Some (with_status "error" block)) as Hfb.
    { unfold rejected_world. simpl. rewrite first_block_insert_log.
      rewrite <- Hid at 1. apply first_block_status.
      rewrite Hdb3, Hid. exact Hb. }
    eexists _, _. split; [reflexivity|]. split; [exact Hfb|].
    split; [|split; [done|split]].
    + apply first_block_Some in Hfb as [Hin _].
      unfold get_blocks. by apply list_elem_of_filter.
    + split; [done|]. split; [done|]. split; [|done].
      eexists. simpl. by rewrite Hdb3.
    + simpl. by rewrite Hdb3.
Qed.

End Updating.

(** ** Operations on one row *)

Section RowOperations.
Import BlockService.
Context `{host : PyHost} (env : Env).

Definition not_found (block_id : Z) : exn :=
  mkExn ValueError ("Block " +:+ str_of_int block_id +:+ " not found").

(** X4. On an id that no block row has, [update_block], [heal_block] and
    [refresh_block_data] raise [ValueError] with the message
    "Block <id> not found", and [delete_block] and [update_block_layout]
    answer [False]; all five leave the database, the artifacts, the clock
    and the trace exactly as they were: neither the oracle nor the executor
    is called.  [GET /blocks/{id}/data], which has no handler of its own,
    lets that [ValueError] through when nothing is cached for the id. *)
Theorem unknown_block_changes_nothing block_id w :
  first_block (db w) block_id = None ->
  (forall user_prompt,
     update_block env block_id user_prompt w = (Raise (not_found block_id), w))
  /\ heal_block env block_id w = (Raise (not_found block_id), w)
  /\ (forall depth,
        refresh_block_data env (S depth) block_id w
        = (Raise (not_found block_id), w))
  /\ delete_block block_id w = (Return false, w)
  /\ (forall layout_data,
        update_block_layout block_id layout_data w = (Return false, w))
  /\ (forall depth,
        Api.most_recent_data (db w) block_id = None ->
        Api.get_block_data env (S depth) block_id w
        = (Raise (not_found block_id), w)).
Proof.
  intros Hb. repeat split; intros.
  - unfold update_block. msimpl. by rewrite Hb.
  - unfold heal_block. msimpl. by rewrite Hb.
  - simpl. msimpl. by rewrite Hb.
  - unfold delete_block. msimpl. by rewrite Hb.
  - unfold update_block_layout. msimpl. by rewrite Hb.
  - unfold Api.get_block_data. simpl. msimpl.
    match goal with H : Api.most_recent_data _ _ = None |- _ => rewrite H end.
    by rewrite Hb.
Qed.

Lemma update_row_twice block_id f g d :
  (forall b, Block.id (f b) = Block.id b) ->
  update_row block_id g (update_row block_id f d)
  = update_row block_id (fun b => g (f b)) d.
Proof.
  intros Hid. unfold update_row. simpl. f_equal.
  rewrite map_map. apply map_ext. intros b.
  destruct (decide (Block.id b = block_id)) as [Hb|Hb].
  - rewrite (bool_decide_eq_true_2 _ Hb).
    by rewrite bool_decide_eq_true_2 by (by rewrite Hid).
  - rewrite (bool_decide_eq_false_2 _ Hb).
    by rewrite bool_decide_eq_false_2.
Qed.

Lemma update_block_layout_run block_id layout_data w b :
  first_block (db w) block_id = Some b ->
  update_block_layout block_id layout_data w =
  (Return true, set_db (update_row block_id (with_layout_data layout_data)) w).
Proof.
  intros H. unfold update_block_layout. rewrite bind_run. simpl. by rewrite H.
Qed.

(** X5. Deleting a stored block answers [True] and is soft: the row
    stays, and the lookup by id answers it with the status [deleted] and
    with its id, prompt, title, current version, refresh interval and
    layout as they were (of the columns of a block only the timestamps
    [created_at] and [updated_at], which the store keeps, are outside this
    model).  The rows of other blocks, the version rows, the cached data,
    the logs, the artifact directories, the trace and the clock stay as
    they are.  Deleting the block again answers [True] again and leaves
    everything as the first deletion left it. *)
Theorem delete_block_is_soft_and_repeatable block_id w b :
  first_block (db w) block_id = Some b ->
  exists w1 b1,
    delete_block block_id w = (Return true, w1)
    /\ first_block (db w1) block_id = Some b1
    /\ Block.status b1 = "deleted"
    /\ Block.id b1 = Block.id b
    /\ Block.user_prompt b1 = Block.user_prompt b
    /\ Block.title b1 = Block.title b
    /\ Block.current_version b1 = Block.current_version b
    /\ Block.refresh_interval b1 = Block.refresh_interval b
    /\ Block.layout_data b1 = Block.layout_data b
    /\ List.length (blocks (db w1)) = List.length (blocks (db w))
    /\ (forall other, other <> block_id ->
          first_block (db w1) other = first_block (db w) other)
    /\ block_versions (db w1) = block_versions (db w)
    /\ block_data (db w1) = block_data (db w)
    /\ execution_logs (db w1) = execution_logs (db w)
    /\ fs w1 = fs w /\ trace w1 = trace w /\ clock w1 = clock w
    /\ delete_block block_id w1 = (Return true, w1).
Proof.
  intros Hb. rewrite (delete_block_run _ _ _ Hb).
  assert (first_block (update_row block_id (with_status "deleted") (db w))
            block_id = Some (with_status "deleted" b)) as Hfb
    by (by apply first_block_status).
  eexists _, (with_status "deleted" b). split; [reflexivity|].
  split; [exact Hfb|]. do 7 (split; [done|]).
  split; [simpl; by rewrite length_map|].
  split; [intros other Hne; simpl; by apply first_block_update_row_other|].
  do 6 (split; [done|]).
  rewrite (delete_block_run block_id
             (set_db (update_row block_id (with_status "deleted")) w)
             (with_status "deleted" b) Hfb).
  f_equal. unfold set_db. simpl. f_equal.
  by rewrite update_row_twice.
Qed.

(** X6. Setting the layout of a stored block answers [True]; the lookup
    by id then answers the row with exactly that layout and with its id,
    prompt, title, current version, refresh interval and status as they
    were (a deleted block stays deleted); rows of other blocks, the version
    rows, the cached data, the logs and the artifact directories are not
    touched; and of two layouts set one after the other, the second is the
    one read back.  (The function also sets the timestamp [updated_at],
    a column outside this model, so nothing is said here of the
    timestamps of the row.) *)
Theorem update_block_layout_round_trip block_id layout_data w b :
  first_block (db w) block_id = Some b ->
  exists w1 b1,
    update_block_layout block_id layout_data w = (Return true, w1)
    /\ get_block (db w1) block_id = Some b1
    /\ Block.layout_data b1 = layout_data
    /\ Block.id b1 = Block.id b
    /\ Block.user_prompt b1 = Block.user_prompt b
    /\ Block.title b1 = Block.title b
    /\ Block.current_version b1 = Block.current_version b
    /\ Block.refresh_interval b1 = Block.refresh_interval b
    /\ Block.status b1 = Block.status b
    /\ (forall other, other <> block_id ->
          get_block (db w1) other = get_block (db w) other)
    /\ block_versions (db w1) = block_versions (db w)
    /\ block_data (db w1) = block_data (db w)
    /\ execution_logs (db w1) = execution_logs (db w)
    /\ fs w1 = fs w
    /\ (forall earlier,
          Block.layout_data <$>
            get_block
              (db (update_block_layout block_id layout_data
                     (update_block_layout block_id earlier w).2).2) block_id
          = Some layout_data).
Proof.
  intros Hb. pose proof (first_block_Some _ _ _ Hb) as [_ Hid].
  assert (forall layout d b0,
            first_block d block_id = Some b0 ->
            first_block (update_row block_id (with_layout_data layout) d)
              block_id = Some (with_layout_data layout b0)) as Hset.
  { intros layout d b0 Hb0. pose proof (first_block_Some _ _ _ Hb0) as [_ Hid0].
    rewrite first_block_update_row, Hb0 by done. simpl.
    by rewrite bool_decide_eq_true_2. }
  rewrite (update_block_layout_run _ _ _ _ Hb).
  eexists _, (with_layout_data layout_data b). split; [reflexivity|].
  split; [exact (Hset _ _ _ Hb)|]. do 7 (split; [done|]).
  split.
  { intros other Hne. unfold get_block. simpl.
    by apply first_block_update_row_other. }
  do 4 (split; [done|]).
  intros earlier. rewrite (update_block_layout_run _ earlier _ _ Hb). simpl.
  rewrite (update_block_layout_run _ _ _ (with_layout_data earlier b))
    by exact (Hset _ _ _ Hb).
  unfold get_block. simpl.
  by rewrite (Hset layout_data _ _ (Hset earlier _ _ Hb)).
Qed.

End RowOperations.

(** ** What every move keeps true of the store *)

Section StoreInvariants.
Import BlockService.

(** The ids of the block rows are 1, 2, 3, ... in the order of insertion. *)
Definition consecutive (d : DB) : Prop :=
  Block.id <$> blocks d = seqZ 1 (Z.of_nat (List.length (blocks d))).

(** Every block row has a version row numbered with its current version,
    which is at least 1. *)
Definition versioned (d : DB) : Prop :=
  forall b, b ∈ blocks d ->
    1 <= Block.current_version b
    /\ exists r, r ∈ block_versions d
                 /\ BlockVersion.block_id r = Block.id b
                 /\ BlockVersion.version r = Block.current_version b.

Lemma max_seqZ (n : nat) : foldr Z.max 0 (seqZ 1 (Z.of_nat n)) = Z.of_nat n.
Proof.
  induction n as [|n IH]; [done|].
  rewrite seqZ_S, foldr_app. simpl.
  assert (forall (l : list Z) a, 0 <= a -> foldr Z.max a l = Z.max a (foldr Z.max 0 l))
    as Hmax.
  { induction l as [|x l IHl]; intros a Ha; simpl; [lia|].
    rewrite (IHl a Ha). lia. }
  rewrite Hmax by lia. rewrite IH. lia.
Qed.

Lemma next_block_id_consecutive d :
  consecutive d -> next_block_id d = 1 + Z.of_nat (List.length (blocks d)).
Proof. unfold consecutive, next_block_id. intros ->. by rewrite max_seqZ. Qed.

Lemma ids_update_row block_id f d :
  (forall b, Block.id (f b) = Block.id b) ->
  Block.id <$> blocks (update_row block_id f d) = Block.id <$> blocks d.
Proof.
  intros Hid. unfold update_row. simpl.
  rewrite <- list_fmap_compose. apply list_fmap_ext.
  intros i b _. simpl. case_bool_decide; [apply Hid | done].
Qed.

Lemma consecutive_same d d' :
  Block.id <$> blocks d' = Block.id <$> blocks d ->
  consecutive d -> consecutive d'.
Proof.
  unfold consecutive. intros Hids Hc.
  assert (List.length (blocks d') = List.length (blocks d)) as ->.
  { by rewrite <- (length_fmap Block.id (blocks d')), Hids, length_fmap. }
  by rewrite Hids.
Qed.

Lemma consecutive_insert_block d b :
  Block.id b = next_block_id d -> consecutive d -> consecutive (insert_block b d).
Proof.
  intros Hid Hc. unfold consecutive, insert_block. simpl.
  rewrite fmap_app, length_app. simpl.
  rewrite Nat.add_1_r, seqZ_S. rewrite <- Hc. f_equal. simpl.
  by rewrite Hid, next_block_id_consecutive.
Qed.

Lemma step_consecutive w w' :
  step w w' -> consecutive (db w) -> consecutive (db w').
Proof.
  destruct 1 as [w w' evs Hdb _ _
                |w w' b r evs Hid _ _ _ Hdb _ _
                |w w' b r o t _ _ _ Hdb _ _
                |w w' b r evs _ _ _ Hdb _ _
                |w block_id s|w block_id j|w l|w r|w l block_id _ _];
    intros Hc; simpl; rewrite ?Hdb.
  - done.
  - apply (consecutive_same (insert_block b (db w))); [done|].
    by apply consecutive_insert_block.
  - apply (consecutive_same (db w)); [|done]. by rewrite ids_update_row.
  - by apply (consecutive_same (db w)).
  - apply (consecutive_same (db w)); [|done]. by rewrite ids_update_row.
  - apply (consecutive_same (db w)); [|done]. by rewrite ids_update_row.
  - by apply (consecutive_same (db w)).
  - by apply (consecutive_same (db w)).
  - by apply (consecutive_same (db w)).
Qed.

Lemma reach_consecutive w w' :
  reach w w' -> consecutive (db w) -> consecutive (db w').
Proof.
  induction 1 as [|w1 w2 w3 Hs _ IH]; [done|].
  intros Hc. apply IH. by apply (step_consecutive w1 w2).
Qed.

Lemma first_block_unique d b :
  NoDup (Block.id <$> blocks d) -> b ∈ blocks d ->
  first_block d (Block.id b) = Some b.
Proof.
  unfold first_block. induction (blocks d) as [|b0 bs IH]; simpl.
  - intros _ H. by apply elem_of_nil in H.
  - rewrite NoDup_cons. intros [Hnotin Hnd] [->|Hin]%elem_of_cons.
    + by rewrite filter_cons_True.
    + rewrite filter_cons_False; [by apply IH|].
      intros Heq. apply Hnotin. rewrite Heq. by apply list_elem_of_fmap_2.
Qed.


Lemma versioned_more d d' :
  (forall b, b ∈ blocks d' ->
     exists b0, b0 ∈ blocks d /\ Block.id b0 = Block.id b
                /\ Block.current_version b0 = Block.current_version b) ->
  (forall r, r ∈ block_versions d -> r ∈ block_versions d') ->
  versioned d -> versioned d'.
Proof.
  intros Hbl Hvs Hv b Hb.
  destruct (Hbl b Hb) as (b0 & Hb0 & Hid & Hcv).
  destruct (Hv b0 Hb0) as (Hone & r & Hr & Hrid & Hrv).
  split; [lia|]. exists r. split; [by apply Hvs|]. split; congruence.
Qed.

Lemma versioned_update_row d block_id f :
  (forall b, Block.id (f b) = Block.id b) ->
  (forall b, Block.current_version (f b) = Block.current_version b) ->
  versioned d -> versioned (update_row block_id f d).
Proof.
  intros Hid Hcv. apply versioned_more; [|done].
  intros b Hb. unfold update_row in Hb. simpl in Hb.
  apply list_elem_of_fmap in Hb as [b0 [-> Hb0]].
  exists b0. split; [done|]. by case_bool_decide.
Qed.

Lemma versioned_same_blocks d d' :
  blocks d' = blocks d ->
  (forall r, r ∈ block_versions d -> r ∈ block_versions d') ->
  versioned d -> versioned d'.
Proof.
  intros Hbl. apply versioned_more. intros b Hb. exists b.
  by rewrite <- Hbl.
Qed.

Lemma step_versioned w w' :
  step w w' -> versioned (db w) -> versioned (db w').
Proof.
  destruct 1 as [w w' evs Hdb _ _
                |w w' b r evs Hid Hcv Hrid Hrv Hdb _ _
                |w w' b r o t Hb Hrid Hrv Hdb _ _
                |w w' b r evs _ _ _ Hdb _ _
                |w block_id s|w block_id j|w l|w r|w l block_id _ _];
    intros Hv; simpl; rewrite ?Hdb.
  - done.
  - intros b0 [Hb0|Hb0]%elem_of_app.
    + destruct (Hv b0 Hb0) as (Hone & r0 & Hr0 & Hr0id & Hr0v).
      split; [done|]. exists r0. split; [|done].
      simpl. apply elem_of_app. by left.
    + apply list_elem_of_singleton in Hb0 as ->. split; [lia|].
      exists r. split; [|split; congruence].
      simpl. apply elem_of_app. right. by apply list_elem_of_singleton.
  - intros b0 Hb0. unfold update_row in Hb0. simpl in Hb0.
    apply list_elem_of_fmap in Hb0 as [b1 [-> Hb1]].
    destruct (Hv b1 Hb1) as (Hone & r1 & Hr1 & Hr1id & Hr1v).
    case_bool_decide as Heq.
    + apply first_block_Some in Hb as [Hbin _].
      destruct (Hv b Hbin) as (Hbone & _).
      split; [simpl; lia|]. exists r. split; [|split; [simpl; congruence|done]].
      simpl. apply elem_of_app. right. by apply list_elem_of_singleton.
    + split; [done|]. exists r1. split; [|done].
      simpl. apply elem_of_app. by left.
  - apply (versioned_same_blocks (db w)); [done| |done].
    intros r0 Hr0. simpl. apply elem_of_app. by left.
  - by apply versioned_update_row.
  - by apply versioned_update_row.
  - by apply (versioned_same_blocks (db w)).
  - by apply (versioned_same_blocks (db w)).
  - by apply (versioned_same_blocks (db w)).
Qed.

Lemma reach_versioned w w' :
  reach w w' -> versioned (db w) -> versioned (db w').
Proof.
  induction 1 as [|w1 w2 w3 Hs _ IH]; [done|].
  intros Hv. apply IH. by apply (step_versioned w1 w2).
Qed.

Lemma first_version_is_Some d block_id v r :
  r ∈ block_versions d -> BlockVersion.block_id r = block_id ->
  BlockVersion.version r = v -> is_Some (first_version d block_id v).
Proof.
  intros Hin Hid Hv. unfold first_version.
  destruct (filter _ (block_versions d)) as [|r0 rs] eqn:E; [|by eexists].
  assert (r ∈ filter (fun r => BlockVersion.block_id r = block_id
                               /\ BlockVersion.version r = v)
                     (block_versions d)) as Hf
    by (by apply list_elem_of_filter).
  rewrite E in Hf. by apply elem_of_nil in Hf.
Qed.

(** What no move changes in a block row: the prompt, the title and the
    refresh interval; and no row disappears. *)
Definition kept (w w' : World) : Prop :=
  forall block_id b,
    first_block (db w) block_id = Some b ->
    exists b', first_block (db w') block_id = Some b'
               /\ Block.user_prompt b' = Block.user_prompt b
               /\ Block.title b' = Block.title b
               /\ Block.refresh_interval b' = Block.refresh_interval b.

Lemma kept_same w w' : blocks (db w') = blocks (db w) -> kept w w'.
Proof.
  intros Hbl block_id b Hb. exists b.
  by rewrite (first_block_same_blocks (db w)).
Qed.

Lemma kept_update_row w w' block_id f :
  (forall b, Block.id (f b) = Block.id b) ->
  (forall b, Block.user_prompt (f b) = Block.user_prompt b) ->
  (forall b, Block.title (f b) = Block.title b) ->
  (forall b, Block.refresh_interval (f b) = Block.refresh_interval b) ->
  blocks (db w') = blocks (update_row block_id f (db w)) ->
  kept w w'.
Proof.
  intros Hid Hp Ht Hr Hbl id b Hb.
  rewrite (first_block_same_blocks _ _ _ Hbl).
  rewrite first_block_update_row, Hb by done. simpl.
  eexists. split; [done|]. by case_bool_decide.
Qed.

Lemma step_kept w w' : step w w' -> kept w w'.
Proof.
  destruct 1 as [w w' evs Hdb _ _
                |w w' b r evs Hid _ _ _ Hdb _ _
                |w w' b r o t _ _ _ Hdb _ _
                |w w' b r evs _ _ _ Hdb _ _
                |w block_id s|w block_id j|w l|w r|w l block_id _ _].
  - apply kept_same. by rewrite Hdb.
  - intros id b0 Hb0. exists b0. split; [|done].
    rewrite Hdb. simpl. rewrite first_block_insert_version.
    by apply first_block_insert_block_old.
  - apply (kept_update_row _ _ (Block.id b)
             (with_current_version (BlockVersion.version r))); try done.
    simpl. by rewrite Hdb.
  - apply kept_same. by rewrite Hdb.
  - by apply (kept_update_row _ _ block_id (with_status s)).
  - by apply (kept_update_row _ _ block_id (with_layout_data j)).
  - by apply kept_same.
  - by apply kept_same.
  - by apply kept_same.
Qed.

Lemma reach_kept w w' : reach w w' -> kept w w'.
Proof.
  induction 1 as [w|w1 w2 w3 Hs _ IH].
  - intros id b Hb. by exists b.
  - intros id b Hb. destruct (step_kept _ _ Hs id b Hb) as (b2 & Hb2 & ? & ? & ?).
    destruct (IH id b2 Hb2) as (b3 & Hb3 & ? & ? & ?).
    exists b3. split; [done|]. split; [congruence|]. split; congruence.
Qed.

End StoreInvariants.

(** ** What every run keeps true of the store *)

Section Runs.
Import BlockService.
Context `{host : PyHost} (env : Env) (depth : nat).

(** X7. After any sequence of operations on the empty store, the ids of
    the block rows are 1, 2, 3, ... in the order the blocks were created;
    so no two rows share an id, and the lookup by the id of a stored row
    answers that very row. *)
Theorem block_ids_count_from_one (ops : list Api.Op) :
  let d := db (Api.run env depth ops initial_world) in
  Block.id <$> blocks d = seqZ 1 (Z.of_nat (List.length (blocks d)))
  /\ NoDup (Block.id <$> blocks d)
  /\ forall b, b ∈ blocks d -> get_block d (Block.id b) = Some b.
Proof.
  intros d.
  assert (consecutive d) as Hc.
  { apply (reach_consecutive initial_world); [apply run_reach | done]. }
  assert (NoDup (Block.id <$> blocks d)) as Hnd.
  { rewrite Hc. apply NoDup_seqZ. }
  split; [exact Hc|]. split; [exact Hnd|].
  intros b Hb. by apply first_block_unique.
Qed.

(** X8. After any sequence of operations on the empty store, every stored
    block has a version row numbered with its [current_version], and that
    number is at least 1: the rows read by [refresh_block_data],
    [heal_block] and [update_block] for the current version are there. *)
Theorem current_version_row_is_stored (ops : list Api.Op) block_id b :
  let d := db (Api.run env depth ops initial_world) in
  first_block d block_id = Some b ->
  1 <= Block.current_version b
  /\ exists r, first_version d block_id (Block.current_version b) = Some r
               /\ BlockVersion.block_id r = block_id
               /\ BlockVersion.version r = Block.current_version b.
Proof.
  intros d Hb.
  assert (versioned d) as Hv.
  { apply (reach_versioned initial_world); [apply run_reach|].
    intros b0 Hb0. by apply elem_of_nil in Hb0. }
  apply first_block_Some in Hb as [Hin Hid].
  destruct (Hv b Hin) as (Hone & r & Hr & Hrid & Hrv).
  split; [done|].
  destruct (first_version_is_Some d block_id (Block.current_version b) r)
    as [r0 Hr0]; [done|congruence|done|].
  exists r0. split; [done|].
  unfold first_version in Hr0. apply head_Some_elem_of in Hr0.
  by apply list_elem_of_filter in Hr0 as [[? ?] _].
Qed.

(** X9. No operation removes a block row or changes the prompt, the title
    or the refresh interval it was created with: after any sequence of
    operations a block that was stored is still answered by the lookup by
    id, with those three columns as they were (the prompt of a later update
    is not stored), and with a [current_version] that is not lower. *)
Theorem block_row_is_permanent (ops : list Api.Op) w block_id b :
  first_block (db w) block_id = Some b ->
  exists b',
    get_block (db (Api.run env depth ops w)) block_id = Some b'
    /\ Block.user_prompt b' = Block.user_prompt b
    /\ Block.title b' = Block.title b
    /\ Block.refresh_interval b' = Block.refresh_interval b
    /\ Block.current_version b <= Block.current_version b'.
Proof.
  intros Hb.
  pose proof (run_reach env depth ops w) as Hr.
  destruct (reach_kept _ _ Hr block_id b Hb) as (b' & Hb' & Hp & Ht & Hi).
  exists b'. split; [exact Hb'|]. split; [done|]. split; [done|].
  split; [done|].
  destruct (reach_moved _ _ Hr) as (evs & _ & Hm).
  destruct (Hm block_id b Hb) as (b2 & Hb2 & Hcv).
  assert (b2 = b') as -> by congruence. lia.
Qed.

End Runs.

(** ** Outcomes of the executor *)

Section ExecutorOutcomes.
Import ExecutionService.
Context `{host : PyHost} (env : Env).

Lemma execute_block_run block_id version code w w0 :
  makedirs block_id ("v" +:+ str_of_int version) w = (Return tt, w0) ->
  execute_block env block_id version code w =
  let c := child env (calls w) in
  match script_result c with
  | Return j =>
      (Return j,
       record (EvExec block_id version (clock (script_world c w0)) true)
         (script_world c w0))
  | Raise e =>
      (Raise e,
       record (EvExec block_id version (clock (script_world c w0)) false)
         (script_world c w0))
  end.
Proof.
  intros Hmk. unfold execute_block. rewrite bind_run, Hmk.
  unfold observed. rewrite run_script_classified.
  apply makedirs_db in Hmk as (_ & _ & _ & -> & _).
  by destruct (script_result _).
Qed.




Lemma lookup_entry_app_new name (items : Listing) :
  lookup_entry name items = None ->
  lookup_entry name (items ++ [(name, DirNode)]) = Some DirNode.
Proof.
  unfold lookup_entry. induction items as [|[n k] items IH]; simpl.
  - by rewrite String.eqb_refl.
  - destruct (String.eqb n name); [done | exact IH].
Qed.

(** The listing of a block's directory once [v<version>] has been made in
    it. *)
Definition with_version_dir (name : string) (items : Listing) : Listing :=
  match lookup_entry name items with
  | Some _ => items
  | None => items ++ [(name, DirNode)]
  end.

(** X12. Unless a plain file of that name is in the way, [execute_block]
    leaves the directory [v<version>] in the block's artifact directory
    whatever the outcome of the run (a failed or timed-out candidate keeps
    its directory), adding it after the entries already there when it was
    missing and changing nothing when it was there; executing the same
    version again leaves the artifact directories as they are. *)
Theorem execute_block_leaves_version_directory block_id version code w :
  let name := "v" +:+ str_of_int version in
  let items := default [] (fs w !! block_id) in
  lookup_entry name items <> Some FileNode ->
  let w' := (execute_block env block_id version code w).2 in
  fs w' = <[block_id := with_version_dir name items]> (fs w)
  /\ lookup_entry name (default [] (fs w' !! block_id)) = Some DirNode
  /\ forall code', fs (execute_block env block_id version code' w').2 = fs w'.
Proof.
  intros name items Hfile.
  assert (forall code0 w1 its,
            fs w1 !! block_id = Some its ->
            lookup_entry name its = Some DirNode ->
            fs (execute_block env block_id version code0 w1).2 = fs w1)
    as Hagain.
  { intros code0 w1 its Hits Hdir.
    assert (makedirs block_id name w1 = (Return tt, w1)) as Hmk.
    { unfold makedirs. rewrite Hits. simpl. rewrite Hdir.
      f_equal. destruct w1 as [d f p c n t]. unfold set_fs. simpl in *.
      f_equal. by apply insert_id. }
    rewrite (execute_block_run _ _ _ _ _ Hmk). cbv zeta.
    destruct (script_world_effect (child env (calls w1)) w1) as (_ & Hfs & _).
    by destruct (script_result _). }
  assert (exists w0, makedirs block_id name w = (Return tt, w0)
                     /\ fs w0 = <[block_id := with_version_dir name items]> (fs w))
    as (w0 & Hmk & Hfs0).
  { unfold makedirs, with_version_dir. fold items.
    destruct (lookup_entry name items) as [[|]|]; [done|by eexists..]. }
  assert (fs (execute_block env block_id version code w).2 = fs w0) as Hfs.
  { rewrite (execute_block_run _ _ _ _ _ Hmk). cbv zeta.
    destruct (script_world_effect (child env (calls w)) w0) as (_ & Hfs & _).
    by destruct (script_result _). }
  assert (lookup_entry name (with_version_dir name items) = Some DirNode)
    as Hdir.
  { unfold with_version_dir.
    destruct (lookup_entry name items) as [[|]|] eqn:E; [done|done|].
    by apply lookup_entry_app_new. }
  cbv zeta. rewrite Hfs, Hfs0. split; [done|]. split.
  - by rewrite lookup_insert_eq.
  - intros code'. rewrite <- Hfs0, <- Hfs.
    apply (Hagain code' _ (with_version_dir name items)); [|done].
    by rewrite Hfs, Hfs0, lookup_insert_eq.
Qed.

End ExecutorOutcomes.

(** ** Artifact directories over a run *)

Section Directories.
Import ExecutionService BlockService.
Context `{host : PyHost} (env : Env).























End Directories.

(** ** The cleanup, beyond the default *)

Section CleanupMore.
Import ExecutionService.
Context `{host : PyHost} (env : Env).

Lemma same_name_same_entry (items : Listing) e e' :
  NoDup items.*1 -> e ∈ items -> e' ∈ items -> e.1 = e'.1 -> e = e'.
Proof.
  induction items as [|x items IH]; simpl.
  - intros _ H. by apply elem_of_nil in H.
  - rewrite NoDup_cons. intros [Hnotin Hnd].
    intros [->|He]%elem_of_cons [->|He']%elem_of_cons Hn.
    + done.
    + exfalso. apply Hnotin. rewrite Hn. by apply list_elem_of_fmap_2.
    + exfalso. apply Hnotin. rewrite <- Hn. by apply list_elem_of_fmap_2.
    + by apply IH.
Qed.

Lemma slice_from_subseteq {A} (k : Z) (l : list A) : slice_from k l ⊆ l.
Proof. unfold slice_from. destruct (0 <=? k); apply subseteq_drop. Qed.

(** A name the removal loop deletes is the name of a version directory of
    the listing whose removal succeeds. *)
Lemma gone_is_version_dir block_id keep_versions (items : Listing) name :
  name ∈ gone env block_id
           (slice_from keep_versions (sort_reverse (version_dirs items))) ->
  rmtree_ok env block_id name = true
  /\ exists e v, e ∈ items /\ e.1 = name /\ scan_item e = Some (v, name).
Proof.
  unfold gone. intros H. apply list_elem_of_fmap in H as [d [-> Hd]].
  apply list_elem_of_filter in Hd as [Hok Hd]. split; [done|].
  apply slice_from_subseteq in Hd. rewrite sort_reverse_perm in Hd.
  unfold version_dirs in Hd. apply list_elem_of_omap in Hd as [e [He Hs]].
  exists e, d.1. split; [done|].
  pose proof (scan_item_name _ _ Hs) as Hn. split; [done|].
  rewrite Hs. by destruct d.
Qed.

(** X13. The cleanup only ever removes version directories: what is left
    of a listing is a sub-list of it, in the same order; every entry that
    the scan does not take for a version directory (a file, a directory not
    named [v<number>]) is left; and an entry that is gone was a version
    directory whose removal succeeded. *)
Theorem cleanup_removes_only_version_directories
    block_id keep_versions (items : Listing) :
  NoDup items.*1 ->
  let items' := cleanup_listing env block_id keep_versions items in
  items' `sublist_of` items
  /\ (forall e, e ∈ items -> scan_item e = None -> e ∈ items')
  /\ (forall e, e ∈ items -> e ∉ items' ->
        rmtree_ok env block_id e.1 = true
        /\ exists v, scan_item e = Some (v, e.1)).
Proof.
  intros Hnd items'. unfold items', cleanup_listing. cbv zeta.
  rewrite remove_dirs_filter. split; [apply sublist_filter|]. split.
  - intros e He Hs. apply list_elem_of_filter. split; [|done].
    intros Hg. apply gone_is_version_dir in Hg as (_ & e' & v & He' & Hn & Hs').
    assert (e' = e) as -> by (by apply (same_name_same_entry items)).
    congruence.
  - intros e He Hnot.
    destruct (decide (e.1 ∈ gone env block_id
                (slice_from keep_versions (sort_reverse (version_dirs items)))))
      as [Hg|Hg].
    + apply gone_is_version_dir in Hg as (Hok & e' & v & He' & Hn & Hs').
      assert (e' = e) as -> by (by apply (same_name_same_entry items)).
      split; [done|]. by exists v.
    + exfalso. apply Hnot. by apply list_elem_of_filter.
Qed.

Lemma set_fs_same block_id (items : Listing) w :
  fs w !! block_id = Some items -> set_fs <[block_id := items]> w = w.
Proof.
  intros H. destruct w as [d f p c n t]. unfold set_fs. simpl in *.
  f_equal. by apply insert_id.
Qed.

Lemma remove_dirs_nil block_id (items : Listing) :
  remove_dirs env block_id [] items = items.
Proof. done. Qed.

(** X14. When a block's directory is missing, or holds no more version
    directories than the number to keep (not negative), the cleanup
    returns and leaves every artifact directory as it is. *)
Theorem cleanup_within_limit_changes_nothing block_id keep_versions w :
  0 <= keep_versions ->
  (forall items, fs w !! block_id = Some items ->
     Z.of_nat (List.length (version_dirs items)) <= keep_versions) ->
  cleanup_old_versions env block_id keep_versions w = (Return tt, w).
Proof.
  intros Hk Hfew. unfold cleanup_old_versions.
  destruct (fs w !! block_id) as [items|] eqn:Hfs; [|done].
  f_equal. unfold cleanup_listing, slice_from.
  apply Z.leb_le in Hk as Hk'. rewrite Hk'.
  rewrite drop_ge.
  - by apply set_fs_same.
  - rewrite (Permutation_length (sort_reverse_perm _)).
    specialize (Hfew items eq_refl). lia.
Qed.


Lemma insert_reverse_front x l :
  Forall (before x) l -> insert_reverse x l = x :: l.
Proof.
  destruct 1 as [|y l Hy _]; simpl; [done|].
  unfold before in Hy. by rewrite Hy.
Qed.

Lemma filter_insert_reverse (P : Z * string -> Prop)
    `{!forall d, Decision (P d)} x l :
  StronglySorted before l ->
  filter P (insert_reverse x l)
  = if decide (P x) then insert_reverse x (filter P l) else filter P l.
Proof.
  induction 1 as [|y l Hl IH Hy]; simpl.
  - rewrite filter_cons, filter_nil. by destruct (decide (P x)).
  - destruct (key_geb x y) eqn:E.
    + rewrite filter_cons. destruct (decide (P x)) as [Hx|Hx]; [|done].
      symmetry. apply insert_reverse_front.
      apply Forall_forall. intros z Hz.
      apply list_elem_of_filter in Hz as [_ Hz].
      apply elem_of_cons in Hz as [->|Hz]; [done|].
      rewrite Forall_forall in Hy. apply (key_geb_trans x y z); [done|].
      by apply Hy.
    + rewrite !(filter_cons _ y), IH.
      destruct (decide (P y)) as [Hpy|Hpy];
        destruct (decide (P x)) as [Hx|Hx]; try done.
      simpl. by rewrite E.
Qed.

Lemma sort_reverse_filter (P : Z * string -> Prop)
    `{!forall d, Decision (P d)} l :
  sort_reverse (filter P l) = filter P (sort_reverse l).
Proof.
  induction l as [|x l IH]; [done|].
  rewrite filter_cons. simpl. fold (sort_reverse l).
  rewrite filter_insert_reverse by apply sort_reverse_sorted.
  destruct (decide (P x)); [|done]. simpl. fold (sort_reverse (filter P l)).
  by rewrite IH.
Qed.

(** X15. Running the cleanup a second time, with the same number (not
    negative) of versions to keep, changes nothing, in an environment that
    answers the removal of a given directory the same way each time: the
    directories whose removal failed are tried again and fail again, and
    the kept ones are kept. *)
Theorem cleanup_old_versions_idempotent block_id keep_versions w :
  0 <= keep_versions ->
  (forall items, fs w !! block_id = Some items -> NoDup items.*1) ->
  let w1 := (cleanup_old_versions env block_id keep_versions w).2 in
  cleanup_old_versions env block_id keep_versions w1 = (Return tt, w1).
Proof.
  intros Hk Hnd. cbv zeta.
  assert ((cleanup_old_versions env block_id keep_versions w).2
          = match fs w !! block_id with
            | Some items =>
                set_fs <[block_id :=
                           cleanup_listing env block_id keep_versions items]> w
            | None => w
            end) as ->
    by (unfold cleanup_old_versions; by destruct (fs w !! block_id)).
  destruct (fs w !! block_id) as [items|] eqn:Hfs.
  2:{ unfold cleanup_old_versions. by rewrite Hfs. }
  specialize (Hnd items eq_refl).
  unfold cleanup_old_versions. simpl. rewrite lookup_insert_eq.
  f_equal. unfold set_fs. simpl. f_equal. rewrite insert_insert_eq.
  f_equal.
  unfold cleanup_listing, slice_from. apply Z.leb_le in Hk as ->.
  set (k := Z.to_nat keep_versions).
  set (S0 := sort_reverse (version_dirs items)).
  set (G := gone env block_id (drop k S0)).
  rewrite (remove_dirs_filter env block_id (drop k S0) items). fold G.
  rewrite remove_dirs_filter.
  apply filter_all_elem. intros e He Hg.
  apply list_elem_of_filter in He as [HeG He].
  assert (version_dirs (filter (fun e => e.1 ∉ G) items)
          = filter (fun d => d.2 ∉ G) (version_dirs items)) as Hvd
    by exact (version_dirs_filter (fun n => n ∉ G) items).
  rewrite Hvd, sort_reverse_filter in Hg. fold S0 in Hg.
  unfold gone in Hg. apply list_elem_of_fmap in Hg as [d [Hname Hd]].
  apply list_elem_of_filter in Hd as [Hok Hd].
  assert (NoDup S0.*2) as HndS.
  { unfold S0. rewrite sort_reverse_perm. by apply version_dirs_NoDup. }
  rewrite <- (take_drop k S0) in HndS.
  rewrite fmap_app in HndS. apply NoDup_app in HndS as (_ & Hdisj & _).
  assert (filter (fun d => d.2 ∉ G) (take k S0) = take k S0) as Htake.
  { apply filter_all_elem. intros x Hx Hxg.
    apply (Hdisj x.2); [by apply list_elem_of_fmap_2|].
    by apply (gone_subset env block_id). }
  assert (d ∈ drop k S0) as Hdrop.
  { rewrite <- (take_drop k S0), filter_app, Htake in Hd.
    destruct (decide (k <= List.length S0)%nat) as [Hle|Hgt].
    - rewrite drop_app_length' in Hd by (rewrite length_take; lia).
      by apply list_elem_of_filter in Hd as [_ Hd].
    - rewrite (drop_ge S0 k) in Hd by lia.
      rewrite filter_nil, app_nil_r, take_ge in Hd by lia.
      rewrite drop_ge in Hd by lia. by apply elem_of_nil in Hd. }
  apply HeG. rewrite Hname. unfold G, gone.
  apply list_elem_of_fmap_2. by apply list_elem_of_filter.
Qed.

End CleanupMore.

(** ** The parser on whole replies *)

Section ParserRuns.
Import AIService.

(** The line is one of the three labels or opens or closes a code fence. *)
Definition marks (line : string) : bool :=
  let s := strip line in
  String.eqb s (header backend) || String.eqb s (header frontend)
  || String.eqb s (header explanation_section) || startswith s fence.

Definition closes_fence (line : string) : bool :=
  marks line && startswith (strip line) fence.

(** No character of the text satisfies [p]. *)
Fixpoint free_of (p : ascii -> bool) (s : string) : bool :=
  match s with
  | EmptyString => true
  | String c s' => negb (p c) && free_of p s'
  end.

Definition one_line (s : string) : bool := free_of (Ascii.eqb "010"%char) s.

Lemma split_by_clean p a : free_of p a = true -> split_by p a = [a].
Proof.
  induction a as [|c a IH]; simpl; [done|].
  intros [Hc Ha]%andb_prop. apply negb_true_iff in Hc. rewrite Hc.
  by rewrite (IH Ha).
Qed.

Lemma split_by_app_sep p a c rest :
  free_of p a = true -> p c = true ->
  split_by p (a ++ String c rest) = a :: split_by p rest.
Proof.
  intros Ha Hc. induction a as [|x a IH]; simpl.
  - by rewrite Hc.
  - simpl in Ha. apply andb_prop in Ha as [Hx Ha].
    apply negb_true_iff in Hx. rewrite Hx. by rewrite (IH Ha).
Qed.

Lemma split_join lines :
  lines <> [] -> Forall (fun l => one_line l = true) lines ->
  split "010"%char (join nl lines) = lines.
Proof.
  intros Hne Hall. unfold split, join.
  induction Hall as [|x ls Hx Hls IH]; [done|].
  destruct ls as [|y ys].
  - simpl. by apply split_by_clean.
  - change (String.concat nl (x :: y :: ys))
      with (x ++ String "010"%char (String.concat nl (y :: ys)))%string.
    rewrite split_by_app_sep; [|exact Hx|done].
    f_equal. by apply IH.
Qed.

Lemma parse_line_plain st line :
  marks line = false ->
  parse_line st line =
  match current_section st with
  | Some _ => mkParse (result st) (current_section st) (current_code st ++ [line])
  | None => st
  end.
Proof.
  unfold marks, parse_line. cbv zeta.
  intros H. apply orb_false_elim in H as [H Hf].
  apply orb_false_elim in H as [H He]. apply orb_false_elim in H as [Hb Hfr].
  rewrite Hb, Hfr, He, Hf. by destruct (current_section st) as [[| |]|].
Qed.

Lemma fold_plain lines st s :
  Forall (fun l => marks l = false) lines ->
  current_section st = Some s ->
  fold_left parse_line lines st
  = mkParse (result st) (Some s) (current_code st ++ lines).
Proof.
  intros Hall. revert st. induction Hall as [|l ls Hl _ IH]; intros st Hs.
  - simpl. rewrite app_nil_r. destruct st. simpl in *. by subst.
  - simpl. rewrite (parse_line_plain _ _ Hl), Hs.
    rewrite IH by (by rewrite <- Hs). simpl. by rewrite <- app_assoc.
Qed.

(** The reply laid out as the system prompt asks for it. *)
Definition formatted_reply (b f e : list string) : string :=
  join nl (["## Backend Code"; "```python"] ++ b
           ++ ["```"; ""; "## Frontend Code"; "```typescript"] ++ f
           ++ ["```"; ""; "## Explanation"] ++ e).

(** X16. A reply laid out as the system prompt asks (the label, an opening
    fence, the code, a closing fence, for the backend and then for the
    frontend, then the explanation), whose code and explanation lines are
    neither labels nor fence lines, parses back to its parts: the two codes
    exactly as written, indentation included, and the explanation stripped
    of surrounding blanks. *)
Theorem parse_formatted_reply (b f e : list string) :
  Forall (fun l => one_line l = true /\ marks l = false) (b ++ f ++ e) ->
  _parse_generated_code (formatted_reply b f e)
  = mkGenerated (join nl b) (join nl f) (strip (join nl e)).
Proof.
  intros Hall.
  assert (Forall (fun l => one_line l = true) (b ++ f ++ e)) as Hone
    by (eapply Forall_impl; [exact Hall|]; by intros l [? _]).
  assert (Forall (fun l => marks l = false) (b ++ f ++ e)) as Hpl
    by (eapply Forall_impl; [exact Hall|]; by intros l [_ ?]).
  apply Forall_app in Hone as [Hb1 Hfe1]. apply Forall_app in Hfe1 as [Hf1 He1].
  apply Forall_app in Hpl as [Hb Hfe]. apply Forall_app in Hfe as [Hf He].
  unfold _parse_generated_code, formatted_reply.
  rewrite split_join.
  2:{ done. }
  2:{ repeat (apply Forall_app; split); try done; by repeat constructor. }
  rewrite !fold_left_app.
  change (fold_left parse_line ["## Backend Code"; "```python"] initial)
    with (mkParse (mkGenerated "" "" "") (Some backend) []).
  rewrite (fold_plain b (mkParse (mkGenerated "" "" "") (Some backend) [])
             backend Hb eq_refl).
  simpl app at 1.
  set (st1 := fold_left parse_line
                ["```"; ""; "## Frontend Code"; "```typescript"] _).
  assert (st1 = mkParse (mkGenerated (join nl b) "" "") (Some frontend) [])
    as ->.
  { unfold st1. by destruct b. }
  rewrite (fold_plain f (mkParse (mkGenerated (join nl b) "" "")
                           (Some frontend) []) frontend Hf eq_refl).
  simpl app at 1.
  set (st2 := fold_left parse_line ["```"; ""; "## Explanation"] _).
  assert (st2 = mkParse (mkGenerated (join nl b) (join nl f) "")
                  (Some explanation_section) []) as ->.
  { unfold st2. by destruct f. }
  rewrite (fold_plain e (mkParse (mkGenerated (join nl b) (join nl f) "")
                           (Some explanation_section) [])
             explanation_section He eq_refl).
  simpl app.
  unfold finish. simpl. by destruct e.
Qed.


Lemma parse_line_explanation st line :
  explanation (result (parse_line st line)) = explanation (result st).
Proof.
  unfold parse_line. cbv zeta.
  destruct (String.eqb _ (header backend)); [done|].
  destruct (String.eqb _ (header frontend)); [done|].
  destruct (String.eqb _ (header explanation_section)); [done|].
  destruct (startswith _ fence).
  - destruct (current_code st); [done|].
    by destruct (current_section st) as [[| |]|].
  - by destruct (current_section st) as [[| |]|].
Qed.

Lemma fold_explanation lines st :
  explanation (result (fold_left parse_line lines st))
  = explanation (result st).
Proof.
  revert st. induction lines as [|l ls IH]; intros st; simpl; [done|].
  by rewrite IH, parse_line_explanation.
Qed.

Lemma parse_line_header st line s :
  strip line = header s -> current_section (parse_line st line) = Some s.
Proof.
  intros H. unfold parse_line. cbv zeta. rewrite H. by destruct s.
Qed.

(** X17. The explanation is taken only from the section the reply ends
    in: when the label of the backend or of the frontend section comes
    after the last "## Explanation" label, the explanation returned is
    empty, whatever was written under that label. *)
Theorem parse_explanation_must_come_last content pre h post s :
  split "010"%char content = pre ++ h :: post ->
  strip h = header s -> s <> explanation_section ->
  Forall (fun l => strip l <> header explanation_section) post ->
  explanation (_parse_generated_code content) = "".
Proof.
  intros Hsplit Hh Hs Hpost. unfold _parse_generated_code.
  rewrite Hsplit, fold_left_app. simpl.
  apply (finish_untouched explanation_section).
  apply fold_untouched.
  - intros line Hin. rewrite Forall_forall in Hpost. by apply Hpost.
  - split.
    + rewrite (parse_line_header _ _ s Hh). congruence.
    + simpl. by rewrite parse_line_explanation, fold_explanation.
Qed.

(** The lines read so far end in a label or fence line followed by the
    lines collected since. *)
Definition collecting (pre : list string) (st : ParseState) : Prop :=
  match current_section st with
  | None => current_code st = []
  | Some _ =>
      exists l1 h, pre = l1 ++ h :: current_code st /\ marks h = true
                   /\ Forall (fun l => marks l = false) (current_code st)
  end.

(** The code stored for [s] is empty, or it is a run of lines between a
    label or fence line and a fence line. *)
Definition fenced (lines : list string) (code : string) : Prop :=
  code = ""
  \/ exists l1 h body f l2,
       lines = l1 ++ h :: body ++ f :: l2
       /\ marks h = true /\ body <> []
       /\ Forall (fun l => marks l = false) body
       /\ startswith (strip f) fence = true
       /\ code = join nl body.

Lemma fenced_snoc lines code x : fenced lines code -> fenced (lines ++ [x]) code.
Proof.
  intros [->|(l1 & h & body & f & l2 & -> & Hh & Hne & Hb & Hf & ->)];
    [by left|].
  right. exists l1, h, body, f, (l2 ++ [x]). split; [|done].
  by rewrite <- app_assoc, <- !app_comm_cons, <- app_assoc, <- app_comm_cons.
Qed.

Lemma parse_line_fences pre st line :
  collecting pre st ->
  fenced pre (backend_code (result st)) ->
  fenced pre (frontend_code (result st)) ->
  collecting (pre ++ [line]) (parse_line st line)
  /\ fenced (pre ++ [line]) (backend_code (result (parse_line st line)))
  /\ fenced (pre ++ [line]) (frontend_code (result (parse_line st line))).
Proof.
  intros Hc Hb Hf.
  destruct (marks line) eqn:Hm.
  2:{ rewrite (parse_line_plain _ _ Hm). unfold collecting in *.
      destruct (current_section st) as [s|] eqn:Hs; simpl.
      - destruct Hc as (l1 & h & -> & Hh & Hall).
        split; [|split; by apply fenced_snoc].
        exists l1, h. split; [by rewrite <- app_assoc|].
        split; [done|]. apply Forall_app. split; [done|]. by constructor.
      - rewrite Hs. split; [done|]. split; by apply fenced_snoc. }
  assert (forall s r, collecting (pre ++ [line]) (mkParse r (Some s) [])) as Hnew.
  { intros s r. exists pre, line. by split; [|split]. }
  pose proof Hm as Hm'. unfold marks in Hm'. cbv zeta in Hm'.
  unfold parse_line. cbv zeta.
  destruct (String.eqb (strip line) (header backend));
    [split; [apply Hnew | split; by apply fenced_snoc]|].
  destruct (String.eqb (strip line) (header frontend));
    [split; [apply Hnew | split; by apply fenced_snoc]|].
  destruct (String.eqb (strip line) (header explanation_section));
    [split; [apply Hnew | split; by apply fenced_snoc]|].
  simpl in Hm'. rewrite Hm'.
  split.
  { unfold collecting. simpl. destruct (current_section st); [|done].
    exists pre, line. by split; [|split]. }
  unfold collecting in Hc.
  destruct (current_code st) as [|c cs] eqn:Hcode;
    [simpl; split; by apply fenced_snoc|].
  destruct (current_section st) as [[| |]|] eqn:Hs; simpl;
    try (split; by apply fenced_snoc).
  - destruct Hc as (l1 & h & -> & Hh & Hall).
    split; [|by apply fenced_snoc].
    right. exists l1, h, (c :: cs), line, [].
    split; [by rewrite <- app_assoc|]. by repeat split.
  - destruct Hc as (l1 & h & -> & Hh & Hall).
    split; [by apply fenced_snoc|].
    right. exists l1, h, (c :: cs), line, [].
    split; [by rewrite <- app_assoc|]. by repeat split.
Qed.

Lemma fold_fences lines pre st :
  collecting pre st ->
  fenced pre (backend_code (result st)) ->
  fenced pre (frontend_code (result st)) ->
  let st' := fold_left parse_line lines st in
  fenced (pre ++ lines) (backend_code (result st'))
  /\ fenced (pre ++ lines) (frontend_code (result st')).
Proof.
  revert pre st. induction lines as [|l ls IH]; intros pre st Hc Hb Hf; simpl.
  - by rewrite app_nil_r.
  - destruct (parse_line_fences pre st l Hc Hb Hf) as (Hc' & Hb' & Hf').
    specialize (IH (pre ++ [l]) (parse_line st l) Hc' Hb' Hf').
    by rewrite <- app_assoc in IH.
Qed.

(** X18. The parser takes code only from between fences: each of the two
    code keys of the result is empty, or it is, joined by newlines and
    exactly as written, a non-empty run of lines of the reply that are
    neither labels nor fence lines, with a label or fence line right before
    the run and a fence line right after it.  Code that is not closed by a
    fence (a reply cut short) is not returned. *)
Theorem parse_code_is_a_fenced_run content :
  let lines := split "010"%char content in
  let r := _parse_generated_code content in
  fenced lines (backend_code r) /\ fenced lines (frontend_code r).
Proof.
  intros lines r. unfold r, _parse_generated_code. fold lines.
  destruct (fold_fences lines [] initial) as [Hb Hf];
    [done | by left | by left |].
  cbv zeta in Hb, Hf. simpl in Hb, Hf.
  unfold finish.
  destruct (current_section _) as [[| |]|]; try done.
  by destruct (current_code _).
Qed.

End ParserRuns.

(** ** A refresh, then a read of the cache *)

Section CacheRoundTrip.
Import BlockService.
Context `{host : PyHost} (env : Env).

Lemma first_desc_snoc {A} (key : A -> Z) (l : list A) (x : A) :
  (forall y, y ∈ l -> key y < key x) -> first_desc key (l ++ [x]) = Some x.
Proof.
  intros Hlt. unfold first_desc. rewrite fold_left_app. simpl.
  destruct (fold_left _ l None) as [b|] eqn:E; [|done].
  apply first_desc_spec in E as [Hin _].
  apply Hlt in Hin. apply Z.ltb_lt in Hin. by rewrite Hin.
Qed.

(** X19. A refresh whose run of the current version passes returns the
    payload and appends one cache row for the block, holding that payload
    and expiring one refresh interval after the run, and one successful
    [fetch] log of the current version.  The stamp [fetched_at] of the row
    is the store's ([func.now()]); all that is used of it is that it lies
    within the second that ends when the run ends, so the statement holds
    as well for a store that keeps whole seconds.  When the rows cached
    before for the block are at least one second older than the end of the
    run, [get_block_data] then answers that payload from the cache, marked
    as cached, stamped with the [fetched_at] of the row and without
    changing anything, for as long as no more than the refresh interval
    has passed; the instant of expiry itself still counts as fresh. *)
Theorem refresh_then_get_block_data_is_cached
    depth depth' block_id w block cv data w1 elapsed :
  first_block (db w) block_id = Some block ->
  first_version (db w) block_id (Block.current_version block) = Some cv ->
  ExecutionService.execute_block env block_id (Block.current_version block)
    (BlockVersion.backend_code cv) w = (Return data, w1) ->
  (forall r, r ∈ block_data (db w) -> BlockData.block_id r = block_id ->
             BlockData.fetched_at r + seconds 1 <= clock w1) ->
  0 <= elapsed <= seconds (Block.refresh_interval block) ->
  exists w2 row log,
    refresh_block_data env (S depth) block_id w = (Return data, w2)
    /\ block_data (db w2) = block_data (db w) ++ [row]
    /\ BlockData.block_id row = block_id
    /\ BlockData.data row = data
    /\ BlockData.expires_at row
       = Some (clock w1 + seconds (Block.refresh_interval block))
    /\ clock w1 - seconds 1 < BlockData.fetched_at row <= clock w1
    /\ execution_logs (db w2) = execution_logs (db w) ++ [log]
    /\ ExecutionLog.block_id log = block_id
    /\ ExecutionLog.version log = Block.current_version block
    /\ ExecutionLog.execution_type log = "fetch"
    /\ ExecutionLog.success log = true
    /\ ExecutionLog.error_message log = None
    /\ Api.get_block_data env depth' block_id (wait elapsed w2)
       = (Return (Api.mkResponse data true (BlockData.fetched_at row)),
          wait elapsed w2).
Proof.
  intros Hb Hv Hexec Hold Hel.
  pose proof (first_block_Some _ _ _ Hb) as [_ Hid].
  rewrite (refresh_block_data_unfold env _ _ _ _ _ Hb Hv), Hid, Hexec.
  apply execute_block_effect in Hexec as (Hdb & _).
  eexists _, (fetched_row block data w1), (fetch_log block true None w1).
  split; [reflexivity|].
  unfold refreshed_world, fetched_row, fetch_log. simpl. rewrite Hdb, Hid.
  do 4 (split; [done|]). split; [unfold seconds; lia|].
  do 6 (split; [done|]).
  unfold Api.get_block_data. msimpl. rewrite ?Hdb, ?Hid.
  assert (Api.most_recent_data
            (insert_log
               (ExecutionLog.mk block_id (Block.current_version block) "fetch"
                  true None (clock w1))
               (insert_data
                  (BlockData.mk block_id data (clock w1)
                     (Some (clock w1 + seconds (Block.refresh_interval block))))
                  (db w))) block_id
          = Some (BlockData.mk block_id data (clock w1)
                    (Some (clock w1 + seconds (Block.refresh_interval block)))))
    as ->.
  { unfold Api.most_recent_data. simpl.
    rewrite filter_app, filter_cons_True, filter_nil by done.
    apply first_desc_snoc. intros r Hr.
    apply list_elem_of_filter in Hr as [Hrid Hr]. simpl.
    pose proof (Hold r Hr Hrid). unfold seconds in *. lia. }
  unfold Api.expired. simpl.
  assert ((clock w1 + seconds (Block.refresh_interval block)
           <? clock w1 + elapsed) = false) as -> by (apply Z.ltb_ge; lia).
  done.
Qed.

End CacheRoundTrip.

(** ** Status codes of the routes *)

Section RouterStatus.
Import BlockService.
Context `{host : PyHost} (env : Env).

Lemma model_validate_run block w :
  Router.model_validate block w =
  match Block.layout_data block with
  | JObject _ => (Return block, w)
  | _ => (Raise (mkExn ValueError
                   "1 validation error for BlockResponse: layout_data"), w)
  end.
Proof. unfold Router.model_validate. by destruct (Block.layout_data block). Qed.

Lemma model_validate_raises block w e w' :
  Router.model_validate block w = (Raise e, w') -> exn_class e = ValueError.
Proof.
  rewrite model_validate_run.
  destruct (Block.layout_data block); by intros [= <- _].
Qed.

(** How a heal of a block that has its current version row and a failure
    log ends. *)
Lemma heal_block_outcome block_id w block cv le :
  first_block (db w) block_id = Some block ->
  first_version (db w) block_id (Block.current_version block) = Some cv ->
  latest_error (db w) block_id = Some le ->
  exists blk w',
    heal_block env block_id w = (Return blk, w')
    /\ (blk = block \/ blk = healed_block block).
Proof.
  intros Hb Hv Hl. pose proof (first_block_Some _ _ _ Hb) as [_ Hid].
  destruct (heal_attempt_cases env block cv le w)
    as [(e & w1 & Hf & _) | (w1 & Hp & Hrun)].
  - destruct (heal_block_failure_run env _ _ _ _ _ _ _ Hb Hv Hl Hf) as [-> _].
    eexists _, _. split; [done|]. by left.
  - rewrite (heal_block_run env _ _ _ _ _ Hb Hv Hl), Hrun.
    pose proof (first_block_healed_world _ _ _ _ Hb
                  (heal_passes_blocks env _ _ _ _ _ Hp)) as Hfb.
    rewrite Hid, Hfb.
    eexists _, _. split; [done|]. by right.
Qed.

(** X20. [POST /blocks/{id}/heal] fails only with status 404: every
    exception of the service and of the response validation is a
    [ValueError].  A healing attempt that fails (the oracle is down, or the
    healed code does not run) is answered like a successful one, with the
    block: for a block that has its current version row, a failure log and
    an object as layout the route returns. *)
Theorem heal_route_fails_only_with_404 block_id w :
  (forall e w',
     Router.heal_block env block_id w = (Raise e, w') ->
     exn_class e = HTTPException 404)
  /\ (forall block cv le members,
        first_block (db w) block_id = Some block ->
        first_version (db w) block_id (Block.current_version block) = Some cv ->
        latest_error (db w) block_id = Some le ->
        Block.layout_data block = JObject members ->
        exists blk w', Router.heal_block env block_id w = (Return blk, w')).
Proof.
  split.
  - intros e w'. unfold Router.heal_block. rewrite try_except_run, bind_run.
    destruct (heal_block env block_id w) as [[blk|e0] w1] eqn:Eh.
    + destruct (Router.model_validate blk w1) as [[b|e1] w2] eqn:Ev;
        [done|].
      apply model_validate_raises in Ev. destruct e1 as [c m].
      simpl in Ev. subst c. by intros [= <- _].
    + apply heal_block_raises_only_at_entry in Eh as (_ & Hc & _).
      destruct e0 as [c m]. simpl in Hc. subst c. by intros [= <- _].
  - intros block cv le members Hb Hv Hl Hlay.
    destruct (heal_block_outcome _ _ _ _ _ Hb Hv Hl) as (blk & w' & Hrun & Hblk).
    unfold Router.heal_block. rewrite try_except_run, bind_run, Hrun.
    rewrite model_validate_run.
    assert (Block.layout_data blk = JObject members) as ->
      by (by destruct Hblk as [-> | ->]).
    by eexists _, _.
Qed.

Lemma execute_block_raise_class block_id version code w e w' :
  ExecutionService.execute_block env block_id version code w = (Raise e, w') ->
  exn_class e = Exception \/ exn_class e = OSError.
Proof.
  unfold ExecutionService.execute_block. rewrite bind_run.
  destruct (ExecutionService.makedirs _ _ w) as [[[]|e0] w0] eqn:Emk.
  - unfold observed. rewrite run_script_classified.
    destruct (script_result _) as [j|e1] eqn:Es; [done|].
    intros [= <- _]. left.
    destruct (child env (calls w0)) as [msg|after rc out err|]; simpl in Es.
    + by injection Es as <-.
    + destruct (after <? _); [|by injection Es as <-].
      destruct (rc =? 0); simpl in Es.
      * destruct out as [s|?]; [destruct (json_loads s)|];
          try discriminate; by injection Es as <-.
      * destruct err; by injection Es as <-.
    + by injection Es as <-.
  - intros [= <- _]. right. unfold ExecutionService.makedirs in Emk.
    destruct (ExecutionService.lookup_entry _ _) as [[|]|];
      try discriminate. by injection Emk as <- _.
Qed.

(** The exception [refresh_block_data] raises for a block that has its
    current version row is the one of its first run of the executor. *)
Lemma refresh_block_data_raise_class depth block_id w block cv e w' :
  first_block (db w) block_id = Some block ->
  first_version (db w) block_id (Block.current_version block) = Some cv ->
  refresh_block_data env (S depth) block_id w = (Raise e, w') ->
  exn_class e = Exception \/ exn_class e = OSError.
Proof.
  intros Hb Hv. rewrite (refresh_block_data_unfold env _ _ _ _ _ Hb Hv).
  destruct (ExecutionService.execute_block env _ _ _ w)
    as [[data|e0] w1] eqn:Ee; [done|].
  apply execute_block_raise_class in Ee. cbv zeta.
  destruct (recent_errors _ _ _ <=? 1).
  - destruct (heal_block env block_id _) as [[blk|e1] w3].
    + destruct (refresh_block_data env depth block_id w3) as [[d|e2] w4];
        [done|]. by intros [= <- _].
    + by intros [= <- _].
  - by intros [= <- _].
Qed.


(** X21. [POST /blocks/] fails only with status 500, and only when the
    oracle call does not give a text: the detail is the message
    "AI code generation failed: ..." and nothing has been stored; whenever
    the oracle answers with a text the route returns the stored block, also
    when the first run of the generated code failed. *)
Theorem create_route_fails_only_with_500 request w :
  (forall e w',
     Router.create_block env request w = (Raise e, w') ->
     exn_class e = HTTPException 500
     /\ (exists cause, exn_msg e = "AI code generation failed: " +:+ cause)
     /\ db w' = db w /\ fs w' = fs w)
  /\ (forall text took,
        oracle env (calls w) = Reply (Some text) took ->
        exists blk w',
          Router.create_block env request w = (Return blk, w')
          /\ get_block (db w') (Block.id blk) = Some blk).
Proof.
  assert (forall text took,
            oracle env (calls w) = Reply (Some text) took ->
            exists blk w',
              Router.create_block env request w = (Return blk, w')
              /\ get_block (db w') (Block.id blk) = Some blk) as Hok.
  { intros text took Hor.
    destruct (create_block_outcome env (Router.user_prompt request)
                (Router.title request) (Router.refresh_interval request)
                w text took Hor) as (s & w' & Hrun & Hbl & _).
    unfold Router.create_block. rewrite try_except_run, bind_run, Hrun.
    rewrite model_validate_run. simpl. eexists _, _. split; [done|].
    unfold get_block.
    apply (first_block_last (db w') (blocks (db w)) (with_status s _) Hbl).
    intros b' Hb'. apply next_block_id_above in Hb'. simpl. lia. }
  split; [|exact Hok].
  intros e w' Hraise.
  destruct (oracle env (calls w)) as [[text|] took|msg took] eqn:Hor.
  - destruct (Hok text took eq_refl) as (blk & w1 & Hrun & _). congruence.
  - unfold Router.create_block in Hraise.
    rewrite try_except_run, bind_run, create_block_run,
      generate_block_code_run, Hor in Hraise.
    injection Hraise as <- <-. split; [done|]. split; [by eexists|done].
  - unfold Router.create_block in Hraise.
    rewrite try_except_run, bind_run, create_block_run,
      generate_block_code_run, Hor in Hraise.
    injection Hraise as <- <-. split; [done|]. split; [by eexists|done].
Qed.

(** X22. [PUT /blocks/{id}] answers 404 with "Block <id> not found", and
    changes nothing, when no row has the id.  Its only other failures are a
    404 and a 500; the 500 is for a stored block whose oracle call did not
    give a text, with the detail "AI code generation failed: ..." and the
    database unchanged.  (A candidate that fails its run is no failure of
    the route.) *)
Theorem update_route_status block_id user_prompt w :
  (first_block (db w) block_id = None ->
   Router.update_block env block_id user_prompt w
   = (Raise (Router.http 404 (exn_msg (not_found block_id))), w))
  /\ (forall e w',
        Router.update_block env block_id user_prompt w = (Raise e, w') ->
        exn_class e = HTTPException 404
        \/ exn_class e = HTTPException 500
           /\ is_Some (first_block (db w) block_id)
           /\ (exists cause,
                 exn_msg e = "AI code generation failed: " +:+ cause)
           /\ db w' = db w).
Proof.
  split.
  - intros Hb. unfold Router.update_block.
    rewrite try_except_run, bind_run.
    assert (update_block env block_id user_prompt w
            = (Raise (not_found block_id), w)) as ->
      by (unfold update_block; msimpl; by rewrite Hb).
    done.
  - intros e w'. unfold Router.update_block.
    rewrite try_except_run, bind_run.
    destruct (first_block (db w) block_id) as [block|] eqn:Hb.
    2:{ assert (update_block env block_id user_prompt w
                = (Raise (not_found block_id), w)) as ->
          by (unfold update_block; msimpl; by rewrite Hb).
        intros [= <- _]. by left. }
    destruct (oracle env (calls w)) as [[text|] took|msg took] eqn:Hor.
    + destruct (update_block_outcome env _ user_prompt _ _ _ _ Hb Hor)
        as (blk & w1 & -> & _).
      destruct (Router.model_validate blk w1) as [[b|e1] w2] eqn:Ev; [done|].
      apply model_validate_raises in Ev. destruct e1 as [c m].
      simpl in Ev. subst c. intros [= <- _]. by left.
    + rewrite (update_block_run env _ _ _ _ Hb), generate_block_code_run, Hor.
      intros [= <- <-]. right. split; [done|]. split; [by eexists|].
      split; [by eexists|done].
    + rewrite (update_block_run env _ _ _ _ Hb), generate_block_code_run, Hor.
      intros [= <- <-]. right. split; [done|]. split; [by eexists|].
      split; [by eexists|done].
Qed.

(** X23. After any sequence of operations on the empty store,
    [POST /blocks/{id}/refresh] answers 404, with "Block <id> not found"
    and without changing anything, exactly for the ids that no row has;
    every failure for a stored block is a 500 (its current version row is
    always there, and what the executor raises is no [ValueError]). *)
Theorem refresh_route_status (ops : list Api.Op) depth depth' block_id :
  let w := Api.run env depth ops initial_world in
  (first_block (db w) block_id = None ->
   Api.refresh_block env (S depth') block_id w
   = (Raise (Router.http 404 (exn_msg (not_found block_id))), w))
  /\ (forall e w',
        Api.refresh_block env (S depth') block_id w = (Raise e, w') ->
        first_block (db w) block_id <> None ->
        exn_class e = HTTPException 500).
Proof.
  intros w. split.
  - intros Hb. unfold Api.refresh_block. rewrite try_except_run, bind_run.
    assert (refresh_block_data env (S depth') block_id w
            = (Raise (not_found block_id), w)) as ->
      by (simpl; msimpl; by rewrite Hb).
    done.
  - intros e w' Hraise Hsome.
    destruct (first_block (db w) block_id) as [block|] eqn:Hb; [|done].
    assert (versioned (db w)) as Hv.
    { apply (reach_versioned initial_world); [apply run_reach|].
      intros b0 Hb0. by apply elem_of_nil in Hb0. }
    pose proof (first_block_Some _ _ _ Hb) as [Hin Hid].
    destruct (Hv block Hin) as (_ & r & Hr & Hrid & Hrv).
    destruct (first_version_is_Some (db w) block_id
                (Block.current_version block) r) as [cv Hcv];
      [done|congruence|done|].
    unfold Api.refresh_block in Hraise.
    rewrite try_except_run, bind_run in Hraise.
    destruct (refresh_block_data env (S depth') block_id w)
      as [[data|e0] w1] eqn:Er; [done|].
    apply (refresh_block_data_raise_class _ _ _ block cv) in Er; [|done..].
    destruct e0 as [c m]. simpl in Er.
    destruct Er as [-> | ->]; by injection Hraise as <- _.
Qed.

End RouterStatus.

(** ** The list of versions of a block *)

Section VersionsRoute.
Import Router.

Lemma insert_desc_perm {A} (key : A -> Z) x l : insert_desc key x l ≡ₚ x :: l.
Proof.
  induction l as [|y l IH]; simpl; [done|].
  destruct (key x <? key y); [|done]. rewrite IH. apply Permutation_swap.
Qed.

Lemma order_by_desc_perm {A} (key : A -> Z) l : order_by_desc key l ≡ₚ l.
Proof.
  induction l as [|x l IH]; simpl; [done|].
  fold (order_by_desc key l). by rewrite insert_desc_perm, IH.
Qed.

Lemma insert_desc_sorted {A} (key : A -> Z) x l :
  StronglySorted (fun a b => key b <= key a) l ->
  StronglySorted (fun a b => key b <= key a) (insert_desc key x l).
Proof.
  induction 1 as [|y l Hl IH Hy]; simpl; [repeat constructor|].
  destruct (key x <? key y) eqn:E.
  - apply Z.ltb_lt in E. constructor; [done|].
    rewrite insert_desc_perm. constructor; [lia|done].
  - apply Z.ltb_ge in E. constructor; [by constructor|].
    constructor; [done|]. eapply Forall_impl; [exact Hy|].
    intros z Hz. simpl in *. lia.
Qed.

Lemma order_by_desc_sorted {A} (key : A -> Z) l :
  StronglySorted (fun a b => key b <= key a) (order_by_desc key l).
Proof.
  induction l as [|x l IH]; simpl; [constructor|].
  by apply insert_desc_sorted.
Qed.

Lemma StronglySorted_fmap {A B} (f : A -> B) (R : B -> B -> Prop) l :
  StronglySorted (fun a b => R (f a) (f b)) l -> StronglySorted R (f <$> l).
Proof.
  induction 1 as [|x l Hl IH Hx]; simpl; constructor; [done|].
  by apply Forall_fmap.
Qed.

(** X24. [GET /blocks/{id}/versions] answers 404 for an id that no row
    has, and for every stored block, soft-deleted ones included, the
    version rows of that block, each exactly once (candidates that failed
    their run too), ordered by version number from the highest down;
    nothing is changed by the call. *)
Theorem get_block_versions_sorted block_id w :
  (BlockService.first_block (db w) block_id = None ->
   get_block_versions block_id w = (Raise (http 404 "Block not found"), w))
  /\ (forall block,
        BlockService.first_block (db w) block_id = Some block ->
        exists vs,
          get_block_versions block_id w = (Return vs, w)
          /\ vs ≡ₚ version_response <$>
                     filter (fun r => BlockVersion.block_id r = block_id)
                            (block_versions (db w))
          /\ StronglySorted (fun a b => version b <= version a) vs).
Proof.
  unfold get_block_versions, BlockService.get_block. msimpl. split.
  - by intros ->.
  - intros block ->. eexists. split; [reflexivity|]. split.
    + by rewrite order_by_desc_perm.
    + apply StronglySorted_fmap. simpl.
      apply (order_by_desc_sorted BlockVersion.version).
Qed.

End VersionsRoute.

(** ** What healing is given, and when it is skipped *)

Section HealingInputs.
Import BlockService.
Context `{host : PyHost} (env : Env).

(** X25. What [heal_block] shows the oracle: the prompt of the block, the
    code of the version that is current, and the message of the failure
    log of the block with the latest time stamp, whatever operation and
    whatever version that failure was logged for (it may be the failure of
    a candidate that never became current).  The call to the oracle is the
    first thing the heal does. *)
Theorem heal_block_shows_latest_failure block_id w block cv le :
  first_block (db w) block_id = Some block ->
  first_version (db w) block_id (Block.current_version block) = Some cv ->
  latest_error (db w) block_id = Some le ->
  (le ∈ execution_logs (db w)
   /\ is_failure_of block_id le
   /\ forall l, l ∈ execution_logs (db w) -> is_failure_of block_id l ->
                ExecutionLog.created_at l <= ExecutionLog.created_at le)
  /\ exists t rest,
       trace (heal_block env block_id w).2
       = trace w ++ EvHealOracle (Block.user_prompt block)
                      (ExecutionLog.error_message le)
                      (BlockVersion.backend_code cv) t :: rest.
Proof.
  intros Hb Hv Hl. split.
  - unfold latest_error in Hl. apply first_desc_spec in Hl as [Hin Hmax].
    unfold failures_of in Hin. apply list_elem_of_filter in Hin as [Hf Hin].
    split; [done|]. split; [done|].
    intros l Hlin Hlf. apply Hmax. unfold failures_of.
    by apply list_elem_of_filter.
  - destruct (heal_attempt_cases env block cv le w)
      as [(e & w1 & Hf & _) | (w1 & Hp & Hrun)].
    + destruct (heal_block_failure_run env _ _ _ _ _ _ _ Hb Hv Hl Hf)
        as [-> _]. simpl.
      destruct Hf as [Ho | (healed & w0 & Ho & He)].
      * apply oracle_heal_effect in Ho as (_ & _ & _ & ->). by eexists _, [].
      * apply oracle_heal_effect in Ho as (_ & _ & _ & Ht0).
        apply execute_block_raises in He as (_ & evs & -> & _). simpl.
        rewrite Ht0, <- app_assoc. by eexists _, _.
    + rewrite (heal_block_run env _ _ _ _ _ Hb Hv Hl), Hrun. simpl.
      destruct Hp as (healed & w0 & data & Ho & He).
      apply oracle_heal_effect in Ho as (_ & _ & _ & Ht0).
      apply execute_block_returns in He as (_ & ->). simpl.
      rewrite Ht0, <- app_assoc. by eexists _, _.
Qed.

Lemma recent_errors_counts d block_id now l :
  l ∈ execution_logs d -> counted block_id now l ->
  1 <= recent_errors d block_id now.
Proof.
  intros Hin Hc.
  destruct (decide (recent_errors d block_id now <= 0)) as [Hz|Hz]; [|lia].
  by destruct (recent_errors_zero d block_id now l Hz Hin).
Qed.

(** X26. The throttle counts the failure logs of every kind: when a
    refresh fails and the block already has a failure log younger than one
    hour (a failed fetch, the failed candidate of an update or of the
    creation, a failed heal), no heal is attempted: the refresh writes its
    own failure log and raises the failure of its run, without a call to
    the oracle. *)
Theorem earlier_failure_suppresses_auto_heal
    depth block_id w block cv e w1 l :
  first_block (db w) block_id = Some block ->
  first_version (db w) block_id (Block.current_version block) = Some cv ->
  ExecutionService.execute_block env block_id (Block.current_version block)
    (BlockVersion.backend_code cv) w = (Raise e, w1) ->
  l ∈ execution_logs (db w) -> is_failure_of block_id l ->
  clock w1 - HOUR < ExecutionLog.created_at l ->
  refresh_block_data env (S depth) block_id w
  = (Raise e, failed_world block e w1)
  /\ execution_logs (db (failed_world block e w1))
     = execution_logs (db w)
       ++ [ExecutionLog.mk block_id (Block.current_version block) "fetch"
             false (Some (exn_msg e)) (clock w1)]
  /\ trace (failed_world block e w1) = trace w1
  /\ calls (failed_world block e w1) = calls w1.
Proof.
  intros Hb Hv Hexec Hin [Hlid Hls] Hrecent.
  pose proof (first_block_Some _ _ _ Hb) as [_ Hid].
  rewrite (refresh_block_data_unfold env _ _ _ _ _ Hb Hv), Hid, Hexec.
  apply execute_block_effect in Hexec as (Hdb & _). cbv zeta.
  assert (2 <= recent_errors (db (failed_world block e w1)) block_id (clock w1))
    as Hcount.
  { unfold failed_world. simpl. rewrite recent_errors_insert_log.
    rewrite decide_True
      by (unfold counted, fetch_log; simpl; split; [done|split; [done|]];
          pose proof HOUR_pos; lia).
    pose proof (recent_errors_counts (db w1) block_id (clock w1) l) as H1.
    rewrite Hdb in H1. specialize (H1 Hin). rewrite Hdb.
    assert (counted block_id (clock w1) l) as Hc by done.
    specialize (H1 Hc). lia. }
  assert ((recent_errors (db (failed_world block e w1)) block_id (clock w1)
           <=? 1) = false) as -> by (apply Z.leb_gt; lia).
  split; [done|]. unfold failed_world, fetch_log. simpl.
  by rewrite Hdb, Hid.
Qed.

End HealingInputs.

(** ** Scenarios for the properties of this part *)

Section MoreScenarios.
Import Demo BlockService.
#[local] Existing Instance demo_host.

(** ** An oracle that is down from the start *)

Definition env_offline : Env := scripted [oracle_down] [].

Lemma create_block_failed_generation_stores_nothing_witness :
  exists w',
    create_block env_offline "NYC weather" None 3600 initial_world
    = (Raise (mkExn Exception
                ("AI code generation failed: " +:+ "rate limited")), w')
    /\ db w' = db initial_world.
Proof.
  destruct (create_block_failed_generation_stores_nothing env_offline
              "NYC weather" None 3600 initial_world "rate limited")
    as (w' & Hrun & Hdb & _).
  - left. exists (seconds 1). reflexivity.
  - exists w'. split; [exact Hrun | exact Hdb].
Defined.

Lemma create_block_stores_block_witness :
  exists blk w',
    create_block env_heal "NYC weather" None 3600 initial_world
    = (Return blk, w')
    /\ Block.id blk = 1
    /\ Block.status blk = "active"
    /\ get_block (db w') (Block.id blk) = Some blk.
Proof.
  pose proof (create_block_stores_block env_heal "NYC weather" None 3600
                initial_world good_reply (seconds 5) eq_refl) as H.
  cbv zeta in H.
  destruct H
    as (blk & w' & Hrun & Hid & _ & _ & _ & _ & _ & _ & _ & _ & _ & Hout
        & Hget).
  exists blk, w'. split; [exact Hrun|]. split; [exact Hid|].
  split; [|exact Hget].
  vm_compute in Hout. exact (proj1 Hout).
Defined.

(** ** A deleted block is updated *)

Definition deleted : World := (delete_block 1 before_update).2.

Lemma update_block_relists_block_witness :
  get_blocks (db deleted) = []
  /\ exists blk w',
       update_block env_bad_update 1 "hourly" deleted = (Return blk, w')
       /\ blk ∈ get_blocks (db w')
       /\ Block.status blk = "error".
Proof.
  split; [vm_compute; reflexivity|].
  assert (first_block (db deleted) 1 = Some (with_status "deleted" weather))
    as Hb by (vm_compute; reflexivity).
  assert (oracle env_bad_update (calls deleted)
          = Reply (Some good_reply) (seconds 5)) as Hor
    by (vm_compute; reflexivity).
  pose proof (update_block_relists_block env_bad_update 1 "hourly" deleted
                (with_status "deleted" weather) good_reply (seconds 5)
                Hb Hor) as H.
  cbv zeta in H.
  destruct H as (blk & w' & Hrun & _ & Hin & _ & Hout & _).
  exists blk, w'. split; [exact Hrun|]. split; [exact Hin|].
  vm_compute in Hout. exact (proj1 Hout).
Defined.

Lemma unknown_block_changes_nothing_witness :
  heal_block env_heal 7 created = (Raise (not_found 7), created)
  /\ delete_block 7 created = (Return false, created).
Proof.
  destruct (unknown_block_changes_nothing env_heal 7 created
              ltac:(vm_compute; reflexivity))
    as (_ & Hheal & _ & Hdel & _).
  split; [exact Hheal | exact Hdel].
Defined.

Lemma delete_block_is_soft_and_repeatable_witness :
  exists w1 b1,
    delete_block 1 created = (Return true, w1)
    /\ first_block (db w1) 1 = Some b1
    /\ Block.status b1 = "deleted"
    /\ Block.title b1 = "NYC weather"
    /\ delete_block 1 w1 = (Return true, w1).
Proof.
  destruct (delete_block_is_soft_and_repeatable 1 created weather
              ltac:(vm_compute; reflexivity))
    as (w1 & b1 & H1 & Hfb & Hst & _ & _ & Hti & _ & _ & _ & _ & _ & _ & _
        & _ & _ & _ & _ & H2).
  exists w1, b1. split; [exact H1|]. split; [exact Hfb|].
  split; [exact Hst|]. split; [exact Hti | exact H2].
Defined.

Definition wide : Json := JObject [("x", JInt 0); ("w", JInt 12)].

Lemma update_block_layout_round_trip_witness :
  exists w1 b1,
    update_block_layout 1 wide created = (Return true, w1)
    /\ get_block (db w1) 1 = Some b1
    /\ Block.layout_data b1 = wide
    /\ Block.status b1 = "active".
Proof.
  destruct (update_block_layout_round_trip 1 wide created weather
              ltac:(vm_compute; reflexivity))
    as (w1 & b1 & Hrun & Hget & Hlay & _ & _ & _ & _ & _ & Hst & _).
  exists w1, b1. split; [exact Hrun|]. split; [exact Hget|].
  split; [exact Hlay | exact Hst].
Defined.

(** ** Runs *)

Definition two_creations : list Api.Op :=
  [Api.Create "NYC weather" None 3600; Api.Create "BTC price" None 60].

Lemma block_ids_count_from_one_witness :
  Block.id <$> blocks (db (Api.run env_bad_update 5 two_creations
                             initial_world)) = [1; 2].
Proof.
  destruct (block_ids_count_from_one env_bad_update 5 two_creations)
    as (Hids & _).
  rewrite Hids. vm_compute. reflexivity.
Defined.

Lemma current_version_row_is_stored_witness :
  exists r,
    first_version (db after_two_updates) 1
      (Block.current_version (healed_block weather)) = Some r
    /\ BlockVersion.version r = Block.current_version (healed_block weather).
Proof.
  pose proof (current_version_row_is_stored env_bad_update 5
                [Api.Create "NYC weather" None 3600; Api.Update 1 "hourly";
                 Api.Update 1 "daily"] 1 (healed_block weather)) as H.
  cbv zeta in H.
  destruct H as (_ & r & Hr & _ & Hv); [vm_compute; reflexivity|].
  exists r. split; [exact Hr | exact Hv].
Defined.

Lemma block_row_is_permanent_witness :
  exists b',
    get_block (db (Api.run env_bad_update 5
                     [Api.Update 1 "hourly"; Api.Delete 1] before_update)) 1
    = Some b'
    /\ Block.user_prompt b' = "NYC weather".
Proof.
  destruct (block_row_is_permanent env_bad_update 5
              [Api.Update 1 "hourly"; Api.Delete 1] before_update 1 weather
              ltac:(vm_compute; reflexivity))
    as (b' & Hget & Hp & _).
  exists b'. split; [exact Hget | exact Hp].
Defined.

(** ** Runs of the executor *)





Lemma execute_block_leaves_version_directory_witness :
  fs (ExecutionService.execute_block env_hang 1 1 "" initial_world).2 !! 1
  = Some [("v1", DirNode)].
Proof.
  destruct (execute_block_leaves_version_directory env_hang 1 1 ""
              initial_world ltac:(vm_compute; discriminate)) as (Hfs & _).
  rewrite Hfs. vm_compute. reflexivity.
Defined.


(** ** Cleanups *)

Definition mixed_dirs : Listing :=
  [("v1", DirNode); ("notes.txt", FileNode); ("v2", DirNode);
   ("venv", DirNode); ("v3", DirNode)].

Lemma cleanup_removes_only_version_directories_witness :
  ("notes.txt", FileNode)
    ∈ ExecutionService.cleanup_listing env_heal 1 1 mixed_dirs
  /\ ("venv", DirNode)
       ∈ ExecutionService.cleanup_listing env_heal 1 1 mixed_dirs.
Proof.
  destruct (cleanup_removes_only_version_directories env_heal 1 1 mixed_dirs)
    as (_ & Hkeep & _).
  - apply (bool_decide_unpack _). vm_compute. exact I.
  - split; apply Hkeep;
      first [apply (bool_decide_unpack _); vm_compute; exact I
            | vm_compute; reflexivity].
Defined.

Lemma cleanup_within_limit_changes_nothing_witness :
  ExecutionService.cleanup_old_versions env_six 1 6 six_versions
  = (Return tt, six_versions).
Proof.
  apply (cleanup_within_limit_changes_nothing env_six 1 6 six_versions).
  - lia.
  - intros items Hitems. vm_compute in Hitems. injection Hitems as <-.
    vm_compute. discriminate.
Defined.

Lemma cleanup_old_versions_idempotent_witness :
  let w1 := (ExecutionService.cleanup_old_versions env_six 1 5 six_versions).2 in
  ExecutionService.cleanup_old_versions env_six 1 5 w1 = (Return tt, w1).
Proof.
  apply (cleanup_old_versions_idempotent env_six 1 5 six_versions).
  - lia.
  - intros items Hitems. vm_compute in Hitems. injection Hitems as <-.
    apply (bool_decide_unpack _). vm_compute. exact I.
Defined.

(** ** Replies of the oracle *)

Lemma parse_formatted_reply_witness :
  AIService._parse_generated_code
    (formatted_reply ["class BlockExecutor:"; "    pass"]
       ["export function GeneratedBlock() {}"] ["  Shows the weather. "])
  = AIService.mkGenerated (join nl ["class BlockExecutor:"; "    pass"])
      "export function GeneratedBlock() {}" "Shows the weather.".
Proof.
  apply (parse_formatted_reply ["class BlockExecutor:"; "    pass"]
           ["export function GeneratedBlock() {}"] ["  Shows the weather. "]).
  repeat constructor.
Defined.

Definition explanation_first : string :=
  join nl ["## Explanation"; "Shows the weather."; "## Backend Code";
           "```python"; "x = 1"; "```"].

Lemma parse_explanation_must_come_last_witness :
  AIService.explanation (AIService._parse_generated_code explanation_first)
  = "".
Proof.
  apply (parse_explanation_must_come_last explanation_first
           ["## Explanation"; "Shows the weather."] "## Backend Code"
           ["```python"; "x = 1"; "```"] AIService.backend).
  - vm_compute. reflexivity.
  - vm_compute. reflexivity.
  - discriminate.
  - repeat constructor; vm_compute; discriminate.
Defined.

(** ** A refresh, then the cache *)

Definition before_fetch : World :=
  Api.run env_cache 5 [Api.Create "NYC weather" None 3600] initial_world.

Lemma refresh_then_get_block_data_is_cached_witness :
  exists w2 row,
    refresh_block_data env_cache 1 1 before_fetch = (Return (JString "{}"), w2)
    /\ BlockData.expires_at row = Some (seconds 9 + seconds 3600)
    /\ Api.get_block_data env_cache 5 1 (wait (seconds 3600) w2)
       = (Return (Api.mkResponse (JString "{}") true
                    (BlockData.fetched_at row)),
          wait (seconds 3600) w2).
Proof.
  destruct (refresh_then_get_block_data_is_cached env_cache 0 5 1 before_fetch
              weather weather_v1 (JString "{}")
              (ExecutionService.execute_block env_cache 1 1
                 "class BlockExecutor: pass" before_fetch).2
              (seconds 3600))
    as (w2 & row & log & Hrun & _ & _ & _ & Hexp & _ & _ & _ & _ & _ & _ & _
        & Hget).
  - vm_compute. reflexivity.
  - vm_compute. reflexivity.
  - vm_compute. reflexivity.
  - intros r Hr. vm_compute in Hr. by apply elem_of_nil in Hr.
  - vm_compute. split; discriminate.
  - exists w2, row. split; [exact Hrun|]. split; [exact Hexp | exact Hget].
Defined.

(** ** Routes *)

Lemma heal_route_fails_only_with_404_witness :
  exists blk w', Router.heal_block env_down 1 broken = (Return blk, w').
Proof.
  apply (proj2 (heal_route_fails_only_with_404 env_down 1 broken)
           (with_status "error" weather) weather_v1 first_failure
           [("x", JInt 0); ("y", JInt 0); ("w", JInt 6); ("h", JInt 4)]);
    vm_compute; reflexivity.
Defined.

Lemma create_route_fails_only_with_500_witness :
  exists blk w',
    Router.create_block env_heal
      (Router.mkCreateRequest "NYC weather" None 3600) initial_world
    = (Return blk, w')
    /\ get_block (db w') (Block.id blk) = Some blk.
Proof.
  apply (proj2 (create_route_fails_only_with_500 env_heal
                  (Router.mkCreateRequest "NYC weather" None 3600)
                  initial_world) good_reply (seconds 5)).
  reflexivity.
Defined.

Lemma update_route_status_witness :
  Router.update_block env_heal 7 "hourly" created
  = (Raise (Router.http 404 "Block 7 not found"), created).
Proof.
  apply (proj1 (update_route_status env_heal 7 "hourly" created)).
  vm_compute. reflexivity.
Defined.

Lemma refresh_route_status_witness :
  Api.refresh_block env_heal 1 7 created
  = (Raise (Router.http 404 "Block 7 not found"), created).
Proof.
  apply (proj1 (refresh_route_status env_heal
                  [Api.Create "NYC weather" None 3600] 5 0 7)).
  vm_compute. reflexivity.
Defined.

Lemma get_block_versions_sorted_witness :
  exists vs,
    Router.get_block_versions 1 after_two_updates
    = (Return vs, after_two_updates)
    /\ Router.version <$> vs = [2; 2; 1].
Proof.
  destruct (proj2 (get_block_versions_sorted 1 after_two_updates)
              (healed_block weather) ltac:(vm_compute; reflexivity))
    as (vs & Hrun & _).
  exists vs. split; [exact Hrun|].
  vm_compute in Hrun. injection Hrun as <-. vm_compute. reflexivity.
Defined.

(** ** What the oracle is shown, and the throttle *)

Definition after_bad_update : World :=
  (update_block env_bad_update 1 "hourly" before_update).2.

Definition candidate_failure : ExecutionLog.t :=
  ExecutionLog.mk 1 2 "fetch" false
    (Some "Execution error: Block execution failed: Traceback") 13000000.

Lemma heal_block_shows_latest_failure_witness :
  ExecutionLog.version candidate_failure = 2
  /\ BlockVersion.version weather_v1 = 1
  /\ exists t rest,
       trace (heal_block env_bad_update 1 after_bad_update).2
       = trace after_bad_update
         ++ EvHealOracle "NYC weather"
              (Some "Execution error: Block execution failed: Traceback")
              "class BlockExecutor: pass" t :: rest.
Proof.
  split; [reflexivity|]. split; [reflexivity|].
  apply (proj2 (heal_block_shows_latest_failure env_bad_update 1
                  after_bad_update (with_status "error" weather) weather_v1
                  candidate_failure
                  ltac:(vm_compute; reflexivity)
                  ltac:(vm_compute; reflexivity)
                  ltac:(vm_compute; reflexivity))).
Defined.

Definition env_two_crashes : Env :=
  scripted [oracle_ok; child_ok; oracle_ok; child_crash; child_crash] [].

Lemma earlier_failure_suppresses_auto_heal_witness :
  exists e w',
    refresh_block_data env_two_crashes 1 1
      (update_block env_two_crashes 1 "hourly"
         (Api.run env_two_crashes 5 [Api.Create "NYC weather" None 3600]
            initial_world)).2
    = (Raise e, w')
    /\ calls w' = 5%nat.
Proof.
  set (w := (update_block env_two_crashes 1 "hourly"
               (Api.run env_two_crashes 5 [Api.Create "NYC weather" None 3600]
                  initial_world)).2).
  destruct (earlier_failure_suppresses_auto_heal env_two_crashes 0 1 w
              (with_status "error" weather) weather_v1 crash
              (ExecutionService.execute_block env_two_crashes 1 1
                 "class BlockExecutor: pass" w).2
              candidate_failure)
    as (Hrun & _ & _ & Hcalls).
  - vm_compute. reflexivity.
  - vm_compute. reflexivity.
  - vm_compute. reflexivity.
  - assert (execution_logs (db w) = [candidate_failure]) as ->
      by (vm_compute; reflexivity).
    apply list_elem_of_here.
  - split; reflexivity.
  - vm_compute. reflexivity.
  - eexists _, _. split; [exact Hrun|]. rewrite Hcalls. vm_compute. reflexivity.
Defined.

End MoreScenarios.

(** ** The status of a block across refreshes and heals *)

Section StatusDrift.
Import BlockService.
Context `{host : PyHost} (env : Env).

(** From [w] to [w'] every block row is still there, with the status it
    had or else [active]. *)
Definition calm (w w' : World) : Prop :=
  forall block_id b,
    first_block (db w) block_id = Some b ->
    exists b', first_block (db w') block_id = Some b'
               /\ (Block.status b' = Block.status b
                   \/ Block.status b' = "active").

Lemma calm_same w w' : blocks (db w') = blocks (db w) -> calm w w'.
Proof.
  intros Hbl i b Hb. exists b. split; [|by left].
  by rewrite (first_block_same_blocks (db w)).
Qed.

Lemma calm_trans w1 w2 w3 : calm w1 w2 -> calm w2 w3 -> calm w1 w3.
Proof.
  intros H12 H23 i b Hb.
  destruct (H12 i b Hb) as (b2 & Hb2 & Hs2).
  destruct (H23 i b2 Hb2) as (b3 & Hb3 & Hs3).
  exists b3. split; [done|].
  destruct Hs3 as [Hs3|Hs3]; [|by right]. rewrite Hs3. exact Hs2.
Qed.

Lemma heal_block_calm block_id w : calm w (heal_block env block_id w).2.
Proof.
  destruct (first_block (db w) block_id) as [block|] eqn:Hb.
  2:{ unfold heal_block. msimpl. rewrite Hb. by apply calm_same. }
  destruct (first_version (db w) block_id (Block.current_version block))
    as [cv|] eqn:Hv.
  2:{ unfold heal_block. msimpl. rewrite Hb, Hv. by apply calm_same. }
  destruct (latest_error (db w) block_id) as [le|] eqn:Hl.
  2:{ unfold heal_block. msimpl. rewrite Hb, Hv, Hl. by apply calm_same. }
  pose proof (first_block_Some _ _ _ Hb) as [_ Hid].
  destruct (heal_attempt_cases env block cv le w)
    as [(e & w1 & Hf & _) | (w1 & Hp & Hrun)].
  - destruct (heal_block_failure_run env _ _ _ _ _ _ _ Hb Hv Hl Hf)
      as [-> Hbl].
    by apply calm_same.
  - rewrite (heal_block_run env _ _ _ _ _ Hb Hv Hl), Hrun. simpl.
    pose proof (heal_passes_blocks env _ _ _ _ _ Hp) as Hbl.
    intros i b Hi.
    destruct (decide (i = block_id)) as [->|Hne].
    + exists (healed_block block). split; [|by right].
      by apply (first_block_healed_world _ _ w).
    + exists b. split; [|by left].
      unfold healed_world, set_db at 1. cbn [db].
      rewrite first_block_insert_log.
      rewrite first_block_advanced_world_other by congruence.
      by rewrite (first_block_same_blocks (db w)).
Qed.

Lemma refresh_block_data_calm depth block_id w :
  calm w (refresh_block_data env depth block_id w).2.
Proof.
  revert w. induction depth as [|depth IH]; intros w; [by apply calm_same|].
  destruct (first_block (db w) block_id) as [block|] eqn:Hb;
    [|simpl; msimpl; rewrite Hb; by apply calm_same].
  destruct (first_version (db w) block_id (Block.current_version block))
    as [cv|] eqn:Hv;
    [|simpl; msimpl; rewrite Hb, Hv; by apply calm_same].
  rewrite (refresh_block_data_unfold env _ _ _ _ _ Hb Hv).
  destruct (ExecutionService.execute_block env _ _ _ w)
    as [[data|e] w1] eqn:Hexec;
    apply execute_block_effect in Hexec as (Hdb & _).
  - apply calm_same. simpl. by rewrite Hdb.
  - cbv zeta.
    assert (calm w (record (EvAutoHeal block_id (clock w1))
                      (failed_world block e w1))) as Hfailed
      by (apply calm_same; simpl; by rewrite Hdb).
    destruct (recent_errors _ _ _ <=? 1).
    + pose proof (heal_block_calm block_id
                    (record (EvAutoHeal block_id (clock w1))
                       (failed_world block e w1))) as Hheal.
      destruct (heal_block env block_id _) as [[blk|e'] w3]; simpl in Hheal.
      * pose proof (IH w3) as Hnext.
        destruct (refresh_block_data env depth block_id w3)
          as [[data|e''] w4]; simpl in *;
          exact (calm_trans _ _ _ Hfailed (calm_trans _ _ _ Hheal Hnext)).
      * simpl. exact (calm_trans _ _ _ Hfailed Hheal).
    + simpl. apply calm_same. simpl. by rewrite Hdb.
Qed.

(** X27. A refresh never marks a block as failed: after
    [refresh_block_data], however it ended (cached payload, failure with or
    without an automated heal), and after [heal_block], every stored block
    is still stored with the status it had, or with [active] (which a
    successful heal sets, also on a soft-deleted block); only a creation or
    an update sets [error]. *)
Theorem refresh_never_marks_error depth block_id w other b :
  first_block (db w) other = Some b ->
  (exists b',
     first_block (db (refresh_block_data env depth block_id w).2) other = Some b'
     /\ (Block.status b' = Block.status b \/ Block.status b' = "active"))
  /\ (exists b',
        first_block (db (heal_block env block_id w).2) other = Some b'
        /\ (Block.status b' = Block.status b \/ Block.status b' = "active")).
Proof.
  intros Hb. split.
  - exact (refresh_block_data_calm depth block_id w other b Hb).
  - exact (heal_block_calm block_id w other b Hb).
Qed.

Definition cannot_heal : exn :=
  mkExn ValueError "Cannot heal block: missing version or error information".

Lemma latest_error_none d block_id :
  failures_of d block_id = [] -> latest_error d block_id = None.
Proof. unfold latest_error. by intros ->. Qed.

(** X28. Healing is there for blocks that failed, and only for them.
    Take a creation whose oracle call is answered, and the first run of the
    stored code that it makes.  When that run raises, the block can be
    healed at once: [heal_block] on the world the creation left returns.
    When that run returns, and no failure log carries the id the block is
    given, [heal_block] raises [ValueError] with "Cannot heal block: missing
    version or error information" and changes nothing. *)
Theorem heal_needs_a_failure user_prompt title refresh_interval w text took :
  oracle env (calls w) = Reply (Some text) took ->
  let g := AIService._parse_generated_code text in
  let b := created_block w user_prompt title refresh_interval in
  let w' := (create_block env user_prompt title refresh_interval w).2 in
  match ExecutionService.execute_block env (Block.id b) 1
          (AIService.backend_code g) (first_run_world env w user_prompt b g)
  with
  | (Raise _, _) =>
      exists blk2 w2, heal_block env (Block.id b) w' = (Return blk2, w2)
  | (Return _, _) =>
      failures_of (db w) (Block.id b) = [] ->
      heal_block env (Block.id b) w' = (Raise cannot_heal, w')
  end.
Proof.
  intros Hor g b w'. unfold w'.
  rewrite (create_block_by_run env user_prompt title refresh_interval w text
             took Hor).
  fold g b.
  assert (forall (s : string) d',
            blocks d' = blocks (db w) ++ [with_status s b] ->
            first_block d' (Block.id b) = Some (with_status s b)) as Hlast.
  { intros s d' Hbl.
    apply (first_block_last d' (blocks (db w)) (with_status s b) Hbl).
    intros b' Hb'. apply next_block_id_above in Hb'. simpl. lia. }
  assert (forall d',
            block_versions d'
            = block_versions (db w) ++ [first_version_row b g] ->
            forall s, first_block d' (Block.id b) = Some (with_status s b) ->
            is_Some (first_version d' (Block.id b) 1)) as Hver.
  { intros d' Hvs s Hfb.
    apply (first_version_is_Some _ _ _ (first_version_row b g)); [|done|done].
    rewrite Hvs. apply elem_of_app. right. by apply list_elem_of_singleton. }
  destruct (ExecutionService.execute_block env _ _ _ _)
    as [[data|e] w3] eqn:Ee;
    apply execute_block_effect in Ee as (Hdb3 & _); cbn [snd].
  - intros Hnone.
    set (w4 := set_db (update_row (Block.id b) (with_status "active")) w3).
    assert (first_block (db w4) (Block.id b) = Some (with_status "active" b))
      as Hfb.
    { apply Hlast. simpl. rewrite Hdb3. by apply (update_row_new (db w) b). }
    destruct (Hver (db w4)) with (s := "active"%string) as [cv Hcv];
      [simpl; by rewrite Hdb3 | exact Hfb |].
    subst w4. unfold heal_block. msimpl. simpl in Hfb. rewrite Hfb. simpl.
    simpl in Hcv. rewrite Hcv.
    rewrite latest_error_none; [done|].
    unfold failures_of. simpl. rewrite Hdb3. exact Hnone.
  - set (w4 := rejected_world b 1 e w3).
    assert (first_block (db w4) (Block.id b) = Some (with_status "error" b))
      as Hfb.
    { apply Hlast. simpl. rewrite Hdb3. by apply (update_row_new (db w) b). }
    destruct (Hver (db w4)) with (s := "error"%string) as [cv Hcv];
      [simpl; by rewrite Hdb3 | exact Hfb |].
    assert (is_Some (latest_error (db w4) (Block.id b))) as [le Hle].
    { unfold latest_error. apply first_desc_is_Some.
      unfold failures_of. simpl. rewrite Hdb3. simpl. rewrite filter_app.
      rewrite (filter_cons_True _ (ExecutionLog.mk _ _ _ _ _ _)) by done.
      by destruct (filter _ (execution_logs (db w))). }
    destruct (heal_block_outcome env (Block.id b) w4 (with_status "error" b)
                cv le Hfb Hcv Hle) as (blk2 & w2 & Hheal & _).
    by exists blk2, w2.
Qed.

End StatusDrift.

(** ** Scenarios for the status of a block *)

Section StatusScenarios.
Import Demo BlockService.
#[local] Existing Instance demo_host.

Lemma refresh_never_marks_error_witness :
  exists b',
    first_block (db (refresh_block_data env_heal 5 1 created).2) 1 = Some b'
    /\ (Block.status b' = Block.status weather \/ Block.status b' = "active").
Proof.
  apply (proj1 (refresh_never_marks_error env_heal 5 1 created 1 weather
                  ltac:(vm_compute; reflexivity))).
Defined.

Lemma heal_needs_a_failure_witness :
  heal_block env_heal 1 created = (Raise cannot_heal, created)
  /\ exists blk2 w2, heal_block env_down 1 broken = (Return blk2, w2).
Proof.
  split.
  - pose proof (heal_needs_a_failure env_heal "NYC weather" None 3600
                  initial_world good_reply (seconds 5) eq_refl) as H.
    cbv zeta in H. vm_compute in H. vm_compute. exact (H eq_refl).
  - pose proof (heal_needs_a_failure env_down "NYC weather" None 3600
                  initial_world good_reply (seconds 5) eq_refl) as H.
    cbv zeta in H. vm_compute in H. vm_compute. exact H.
Defined.

End StatusScenarios.
